(** * Smart Todo App: the task lifecycle engine of [server.js] over the
      SQLite schema of [db.js]

    The development embeds the request handlers of the Express server as
    functions over an explicit store (one finite map per table of the
    schema), and proves what the handlers do to that store and what they
    answer.

    Conventions of the embedding.
    - A table with a [TEXT PRIMARY KEY] is a [gmap string row]; the
      two-column table [task_dependencies], whose primary key is the whole
      row, is a [gset (string * string)].
    - Columns carry the values the handlers write into them: a [TEXT]
      column is an [option string] and an [INTEGER] column an [option Z],
      [None] standing for SQL [NULL].  [tasks.due_at] is the exception: the
      recurrence code writes an ISO-8601 text into that [INTEGER] column, so
      it holds a [dueval].  Request members have the type of the column
      they are bound to; SQLite's conversion of a value of another storage
      class (a numeric text bound to an [INTEGER] column, say) is not
      modelled, and timestamps are integers.
    - A JSON member that is missing or [null] is [None]; the sqlite3 driver
      binds both as [NULL].  The member [completed], which the handlers only
      test for truthiness, is a [jsval].
    - [uuidv4()], [Date.now()], the mail transport and a failing [db.run]
      of the sync loop are inputs of the handlers (oracles), never
      constants.  Elsewhere a statement fails only for a reason the store
      itself decides (a table the schema lacks, a primary key that is
      taken).
    - The callbacks of one request, or of one run of the scheduler with the
      transport's answers, are sequenced as written and are over before the
      next request or run starts.
    - The Socket.IO emissions are not part of the model. *)

From Stdlib Require Import ZArith String Ascii List Lia.
From stdpp Require Import gmap strings list.

Local Open Scope string_scope.
Local Open Scope list_scope.
Local Open Scope Z_scope.

(** ** JavaScript values and truthiness *)

(** The JSON values a client can put in the [completed] member, which the
    handlers only ever test for truthiness. *)
Inductive jsval :=
| JUndefined
| JNull
| JBool (b : bool)
| JNum (z : Z)
| JStr (s : string).

Definition truthy (v : jsval) : bool :=
  match v with
  | JUndefined | JNull => false
  | JBool b => b
  | JNum z => negb (z =? 0)
  | JStr s => negb (String.eqb s "")
  end.

(** [completed ? 1 : 0] *)
Definition flag (v : jsval) : Z := if truthy v then 1 else 0.

(** A due timestamp as it travels through requests and the [due_at] column:
    a number of milliseconds, or a text. *)
Inductive dueval :=
| DueNum (ms : Z)
| DueText (s : string).

Definition truthy_str (o : option string) : bool :=
  match o with
  | Some s => negb (String.eqb s "")
  | None => false
  end.

Definition truthy_due (o : option dueval) : bool :=
  match o with
  | Some (DueNum z) => negb (z =? 0)
  | Some (DueText s) => negb (String.eqb s "")
  | None => false
  end.

(** [x || d] on a text member, where [d] is a string literal. *)
Definition str_or (o : option string) (d : string) : string :=
  match o with
  | Some s => if String.eqb s "" then d else s
  | None => d
  end.

(** [x || null] *)
Definition str_or_null (o : option string) : option string :=
  if truthy_str o then o else None.

Definition due_or_null (o : option dueval) : option dueval :=
  if truthy_due o then o else None.

(** ** The Date object, after ECMA-262 (Dates and Times)

    Time values are integers of milliseconds since the epoch; [None] is the
    invalid date (a [NaN] time value). *)
Module JsDate.

Definition msPerDay : Z := 86400000.

Definition Day (t : Z) : Z := t / msPerDay.
Definition TimeWithinDay (t : Z) : Z := t mod msPerDay.

Definition DaysInYear (y : Z) : Z :=
  if negb (y mod 4 =? 0) then 365
  else if negb (y mod 100 =? 0) then 366
  else if negb (y mod 400 =? 0) then 365
  else 366.

Definition DayFromYear (y : Z) : Z :=
  365 * (y - 1970) + (y - 1969) / 4 - (y - 1901) / 100 + (y - 1601) / 400.

(** The year [y] with [DayFromYear y <= Day t < DayFromYear (y + 1)]: an
    estimate from the mean length of a year, moved by one where needed. *)
Definition YearFromTime (t : Z) : Z :=
  let d := Day t in
  let y := 1970 + (d * 400) / 146097 in
  if d <? DayFromYear y then y - 1
  else if DayFromYear (y + 1) <=? d then y + 1
  else y.

Definition InLeapYear (t : Z) : Z :=
  if DaysInYear (YearFromTime t) =? 366 then 1 else 0.

Definition DayWithinYear (t : Z) : Z := Day t - DayFromYear (YearFromTime t).

(** Day number within the year on which month [m] (0 = January) starts. *)
Definition monthStart (m leap : Z) : Z :=
  match m with
  | 0 => 0
  | 1 => 31
  | 2 => 59 + leap
  | 3 => 90 + leap
  | 4 => 120 + leap
  | 5 => 151 + leap
  | 6 => 181 + leap
  | 7 => 212 + leap
  | 8 => 243 + leap
  | 9 => 273 + leap
  | 10 => 304 + leap
  | _ => 334 + leap
  end.

Definition monthOfDay (d leap : Z) : Z :=
  if d <? 31 then 0
  else if d <? 59 + leap then 1
  else if d <? 90 + leap then 2
  else if d <? 120 + leap then 3
  else if d <? 151 + leap then 4
  else if d <? 181 + leap then 5
  else if d <? 212 + leap then 6
  else if d <? 243 + leap then 7
  else if d <? 273 + leap then 8
  else if d <? 304 + leap then 9
  else if d <? 334 + leap then 10
  else 11.

Definition MonthFromTime (t : Z) : Z :=
  monthOfDay (DayWithinYear t) (InLeapYear t).

Definition DateFromTime (t : Z) : Z :=
  DayWithinYear t - monthStart (MonthFromTime t) (InLeapYear t) + 1.

Definition HourFromTime (t : Z) : Z := (t / 3600000) mod 24.
Definition MinFromTime (t : Z) : Z := (t / 60000) mod 60.
Definition SecFromTime (t : Z) : Z := (t / 1000) mod 60.
Definition msFromTime (t : Z) : Z := t mod 1000.

(** [MakeDay year month date]: the day number of the [date]-th day counted
    from the first of month [month] of [year]; months beyond 0..11 carry
    into the year. *)
Definition MakeDay (year month date : Z) : Z :=
  let ym := year + month / 12 in
  let mn := month mod 12 in
  let leap := if DaysInYear ym =? 366 then 1 else 0 in
  DayFromYear ym + monthStart mn leap + date - 1.

Definition MakeDate (day time : Z) : Z := day * msPerDay + time.

Definition TimeClip (t : Z) : option Z :=
  if Z.abs t <=? 8640000000000000 then Some t else None.

Section LocalTime.
(** The offset of local time from UTC at a time value, in milliseconds;
    the flag says whether the time value is UTC. *)
Variable LocalTZA : Z -> bool -> Z.

Definition LocalTime (t : Z) : Z := t + LocalTZA t true.
Definition UTC (t : Z) : Z := t - LocalTZA t false.

(** [d.getDate()] and [d.getMonth()]; [None] is [NaN]. *)
Definition getDate (d : option Z) : option Z :=
  match d with
  | Some tv => Some (DateFromTime (LocalTime tv))
  | None => None
  end.

Definition getMonth (d : option Z) : option Z :=
  match d with
  | Some tv => Some (MonthFromTime (LocalTime tv))
  | None => None
  end.

(** [d.setDate(dt)]: the date object after the call. *)
Definition setDate (d : option Z) (dt : option Z) : option Z :=
  match d, dt with
  | Some tv, Some dt =>
      let t := LocalTime tv in
      let newDate :=
        MakeDate (MakeDay (YearFromTime t) (MonthFromTime t) dt)
                 (TimeWithinDay t) in
      TimeClip (UTC newDate)
  | _, _ => None
  end.

(** [d.setMonth(m)] *)
Definition setMonth (d : option Z) (m : option Z) : option Z :=
  match d, m with
  | Some tv, Some m =>
      let t := LocalTime tv in
      let newDate :=
        MakeDate (MakeDay (YearFromTime t) m (DateFromTime t))
                 (TimeWithinDay t) in
      TimeClip (UTC newDate)
  | _, _ => None
  end.
End LocalTime.

(** Decimal digits, most significant first, exactly [n] of them. *)
Fixpoint digits (n : nat) (z : Z) (acc : string) : string :=
  match n with
  | O => acc
  | S n' =>
      digits n' (z / 10)
             (String (ascii_of_nat (48 + Z.to_nat (z mod 10))) acc)
  end.

Definition isoYear (y : Z) : string :=
  if (0 <=? y) && (y <=? 9999) then digits 4 y ""
  else if 0 <=? y then "+" +:+ digits 6 y ""
  else "-" +:+ digits 6 (- y) "".

(** [d.toISOString()]; [None] is the [RangeError] thrown on an invalid
    date. *)
Definition toISOString (d : option Z) : option string :=
  match d with
  | None => None
  | Some t =>
      Some (isoYear (YearFromTime t) +:+ "-"
            +:+ digits 2 (MonthFromTime t + 1) "" +:+ "-"
            +:+ digits 2 (DateFromTime t) "" +:+ "T"
            +:+ digits 2 (HourFromTime t) "" +:+ ":"
            +:+ digits 2 (MinFromTime t) "" +:+ ":"
            +:+ digits 2 (SecFromTime t) "" +:+ "."
            +:+ digits 3 (msFromTime t) "" +:+ "Z")
  end.

End JsDate.


(** ** The schema of [db.js] *)

(** The tables [db.serialize] creates; no other statement of the repository
    creates a table. *)
Definition schema : list string :=
  ["users"; "teams"; "team_members"; "tasks"; "task_dependencies";
   "comments"; "time_entries"; "reminders"].

(** A row of [users]; of its columns only [email] is read by the handlers
    embedded here. *)
Record user := mkUser {
  email : option string;
  name : option string
}.

(** A row of [tasks], keyed by [id]. *)
Record task := mkTask {
  title : option string;
  description : option string;
  priority : option string;
  completed : Z;
  due_at : option dueval;
  created_by : option string;
  assignee : option string;
  recurring_rule : option string;
  created_at : option Z
}.

(** A row of [time_entries], keyed by [id]. *)
Record time_entry := mkTimeEntry {
  te_task_id : option string;
  te_user_id : option string;
  started_at : Z;
  stopped_at : option Z;
  duration : option Z
}.

(** A row of [reminders], keyed by [id]. *)
Record reminder := mkReminder {
  rem_task_id : option string;
  rem_user_id : option string;
  remind_at : option Z;
  snoozed_until : option Z;
  sent : Z
}.

Record store := mkStore {
  users : gmap string user;
  tasks : gmap string task;
  task_dependencies : gset (string * string);
  time_entries : gmap string time_entry;
  reminders : gmap string reminder
}.

Definition empty_store : store := mkStore ∅ ∅ ∅ ∅ ∅.

Definition with_tasks (f : gmap string task -> gmap string task) (s : store) : store :=
  mkStore (users s) (f (tasks s)) (task_dependencies s) (time_entries s)
          (reminders s).

Definition with_time_entries
  (f : gmap string time_entry -> gmap string time_entry) (s : store) : store :=
  mkStore (users s) (tasks s) (task_dependencies s) (f (time_entries s))
          (reminders s).

Definition with_reminders
  (f : gmap string reminder -> gmap string reminder) (s : store) : store :=
  mkStore (users s) (tasks s) (task_dependencies s) (time_entries s)
          (f (reminders s)).

(** The outcome of one statement: its rows (or the store it leaves), or the
    [err] handed to the callback. *)
Inductive sql_result (A : Type) :=
| SqlOk (a : A)
| SqlErr (msg : string).
Arguments SqlOk {A} a.
Arguments SqlErr {A} msg.

Definition no_such_table (table : string) : string :=
  "SQLITE_ERROR: no such table: " +:+ table.

Definition unique_failed (column : string) : string :=
  "SQLITE_CONSTRAINT: UNIQUE constraint failed: " +:+ column.

(** ** Requests *)

(** The members of a task request body (and of a sync payload, which adds
    [id]). *)
Record task_body := mkBody {
  b_id : option string;
  b_title : option string;
  b_description : option string;
  b_priority : option string;
  b_completed : jsval;
  b_due_at : option dueval;
  b_assignee : option string;
  b_recurring_rule : option string
}.

(** [o === lit] for a text member. *)
Definition str_is (o : option string) (lit : string) : bool :=
  match o with
  | Some s => String.eqb s lit
  | None => false
  end.

(** ** [PUT /api/tasks/:id] *)

(** [t.completed = 0] for the task [p] names, false when [p] names no task:
    the inner join drops an edge whose prerequisite has no row. *)
Definition is_incomplete (s : store) (p : string) : bool :=
  match tasks s !! p with
  | Some row => completed row =? 0
  | None => false
  end.

(** The [depends_on_id] of the edges of [id] joined with incomplete tasks. *)
Definition blocking_rows (id : string) (s : store) : list string :=
  map snd
      (List.filter (fun e => String.eqb (fst e) id && is_incomplete s (snd e))
                   (elements (task_dependencies s))).

(** [SELECT d.depends_on_id FROM <table> d JOIN tasks t
     ON d.depends_on_id = t.id WHERE d.task_id = ? AND t.completed = 0],
    for the table name the statement spells. *)
Definition select_blocking (table : string) (id : string) (s : store)
  : sql_result (list string) :=
  if bool_decide (table ∈ schema) then
    if String.eqb table "task_dependencies" then SqlOk (blocking_rows id s)
    else SqlErr "SQLITE_ERROR: no such column: d.depends_on_id"
  else SqlErr (no_such_table table).

(** [UPDATE tasks SET title=?,description=?,priority=?,completed=?,due_at=?,
     assignee=?,recurring_rule=? WHERE id=?]: the row after the statement. *)
Definition update_row (body : task_body) (row : task) : task :=
  {| title := b_title body;
     description := b_description body;
     priority := b_priority body;
     completed := flag (b_completed body);
     due_at := b_due_at body;
     created_by := created_by row;
     assignee := b_assignee body;
     recurring_rule := b_recurring_rule body;
     created_at := created_at row |}.

(** [INSERT INTO tasks ...] without [OR REPLACE]: refused when the primary
    key is taken. *)
Definition insert_task (id : string) (row : task) (s : store)
  : sql_result store :=
  match tasks s !! id with
  | Some _ => SqlErr (unique_failed "tasks.id")
  | None => SqlOk (with_tasks (insert id row) s)
  end.

(** What one call of the handler reads from its environment. *)
Record put_env := mkPutEnv {
  pe_date : Z;        (* [new Date()] *)
  pe_now : Z;         (* [Date.now()] *)
  pe_uuid : string    (* [uuidv4()] *)
}.

Inductive put_response :=
| Put200 (id : string) (body : task_body)            (* [{ id, ...req.body }] *)
| Put400 (error : string) (missing : list string)
| Put500 (error : string).

Section Platform.
(** The host's time zone and its parser of date strings ([None]: the string
    is no date). *)
Variable LocalTZA : Z -> bool -> Z.
Variable Date_parse : string -> option Z.

(** [taskRow.due_at ? new Date(taskRow.due_at) : new Date()] *)
Definition currentDue (taskRow : task) (date : Z) : option Z :=
  if truthy_due (due_at taskRow) then
    match due_at taskRow with
    | Some (DueNum ms) => JsDate.TimeClip ms
    | Some (DueText s) => Date_parse s
    | None => None
    end
  else Some date.

Definition plus1 (n : option Z) (k : Z) : option Z :=
  match n with Some n => Some (n + k) | None => None end.

(** [nextDue] after the three branches on the request's [recurring_rule]. *)
Definition nextDue (rule : option string) (current : option Z) : option Z :=
  if str_is rule "daily" then
    JsDate.setDate LocalTZA current (plus1 (JsDate.getDate LocalTZA current) 1)
  else if str_is rule "weekly" then
    JsDate.setDate LocalTZA current (plus1 (JsDate.getDate LocalTZA current) 7)
  else if str_is rule "monthly" then
    JsDate.setMonth LocalTZA current (plus1 (JsDate.getMonth LocalTZA current) 1)
  else current.

(** The row the recurrence branch inserts; the column [completed] is not
    listed by the statement and takes its default. *)
Definition successor_row (taskRow : task) (iso : string) (now : Z) : task :=
  {| title := title taskRow;
     description := description taskRow;
     priority := priority taskRow;
     completed := 0;
     due_at := Some (DueText iso);
     created_by := created_by taskRow;
     assignee := assignee taskRow;
     recurring_rule := recurring_rule taskRow;
     created_at := Some now |}.

(** The callback of [db.get] in the recurrence branch: nothing is inserted
    when the id names no row, when [toISOString] throws on an invalid date,
    or when the insert is refused. *)
Definition create_next (e : put_env) (id : string) (body : task_body)
  (s : store) : store :=
  match tasks s !! id with
  | None => s
  | Some taskRow =>
      let next := nextDue (b_recurring_rule body) (currentDue taskRow (pe_date e)) in
      match JsDate.toISOString next with
      | None => s
      | Some iso =>
          match insert_task (pe_uuid e) (successor_row taskRow iso (pe_now e)) s with
          | SqlOk s' => s'
          | SqlErr _ => s
          end
      end
  end.

Definition doTaskUpdate (e : put_env) (id : string) (body : task_body)
  (s : store) : store * put_response :=
  let s1 := with_tasks (alter (update_row body) id) s in
  let s2 :=
    if truthy (b_completed body) && truthy_str (b_recurring_rule body)
    then create_next e id body s1 else s1 in
  (s2, Put200 id body).

(** The handler, for the table name its dependency query spells. *)
Definition put_task_on (table : string) (e : put_env) (id : string)
  (body : task_body) (s : store) : store * put_response :=
  if truthy (b_completed body) then
    match select_blocking table id s with
    | SqlErr msg => (s, Put500 msg)
    | SqlOk rows =>
        if (0 <? length rows)%nat then
          (s, Put400 "Cannot complete task while dependencies are incomplete" rows)
        else doTaskUpdate e id body s
    end
  else doTaskUpdate e id body s.

(** [app.put('/api/tasks/:id', ...)]: the query reads [FROM dependencies d]. *)
Definition put_task : put_env -> string -> task_body -> store -> store * put_response :=
  put_task_on "dependencies".

End Platform.

(** ** [DELETE /api/tasks/:id] *)

Inductive delete_response :=
| Delete200            (* [{ ok: true }] *)
| Delete500 (error : string).

(** [DELETE FROM tasks WHERE id=?] succeeds whether or not a row matches;
    the callback reads only [err]. *)
Definition delete_task (id : string) (s : store) : store * delete_response :=
  (with_tasks (delete id) s, Delete200).

(** ** Time tracking *)

Inductive start_response :=
| Start200 (id : string) (task_id : string) (user_id : string) (started : Z)
| Start500 (error : string).

(** [POST /api/tasks/:id/time/start] *)
Definition time_start (uuid : string) (now : Z) (user_id task_id : string)
  (s : store) : store * start_response :=
  match time_entries s !! uuid with
  | Some _ => (s, Start500 (unique_failed "time_entries.id"))
  | None =>
      (with_time_entries
         (insert uuid (mkTimeEntry (Some task_id) (Some user_id) now None None)) s,
       Start200 uuid task_id user_id now)
  end.

Inductive stop_response :=
| Stop200 (id : string) (stopped : Z) (seconds : Z)
| Stop404 (error : string)
| Stop500 (error : string).

(** [Math.max(0, Math.floor((stopped_at - row.started_at)/1000))] on integer
    timestamps: [/] on [Z] rounds towards minus infinity, as [Math.floor]
    of the quotient does. *)
Definition elapsed_seconds (stopped started : Z) : Z :=
  Z.max 0 ((stopped - started) / 1000).

(** [POST /api/time/:entryId/stop]; [now] is the handler's [Date.now()]. *)
Definition time_stop (now : Z) (entryId : string) (s : store)
  : store * stop_response :=
  match time_entries s !! entryId with
  | None => (s, Stop404 "entry not found")
  | Some row =>
      let d := elapsed_seconds now (started_at row) in
      (with_time_entries
         (alter (fun r => mkTimeEntry (te_task_id r) (te_user_id r)
                                      (started_at r) (Some now) (Some d))
                entryId) s,
       Stop200 entryId now d)
  end.

(** ** Reminders *)

Inductive reminder_response :=
| Reminder200 (id : string)
| Reminder500 (error : string).

(** [remind_at || null] *)
Definition num_or_null (o : option Z) : option Z :=
  match o with
  | Some z => if z =? 0 then None else Some z
  | None => None
  end.

(** [POST /api/reminders] *)
Definition reminder_create (uuid : string) (user_id : string)
  (task_id : option string) (at_ : option Z) (s : store)
  : store * reminder_response :=
  match reminders s !! uuid with
  | Some _ => (s, Reminder500 (unique_failed "reminders.id"))
  | None =>
      (with_reminders
         (insert uuid (mkReminder task_id (Some user_id) (num_or_null at_) None 0)) s,
       Reminder200 uuid)
  end.

Definition set_snoozed (until : option Z) (r : reminder) : reminder :=
  mkReminder (rem_task_id r) (rem_user_id r) (remind_at r) until (sent r).

(** [POST /api/reminders/:id/snooze] *)
Definition reminder_snooze (id : string) (until : option Z) (s : store)
  : store * reminder_response :=
  (with_reminders (alter (set_snoozed until) id) s, Reminder200 id).

(** ** The reminder scheduler ([cron.schedule('* * * * *', ...)]) *)

Record mail := mkMail {
  mail_to : string;
  mail_subject : string
}.

(** One call of [transporter.sendMail]: the reminder it is for, the message,
    and whether the transport reported success. *)
Record attempt := mkAttempt {
  att_id : string;
  att_mail : mail;
  att_ok : bool
}.

(** [r.sent = 0 AND r.remind_at IS NOT NULL AND r.remind_at <= ?] *)
Definition is_due (now : Z) (r : reminder) : bool :=
  (sent r =? 0) &&
  match remind_at r with
  | Some t => t <=? now
  | None => false
  end.

(** The rows of the scheduler's query, each with its key. *)
Definition due_rows (now : Z) (s : store) : list (string * reminder) :=
  List.filter (fun kr => is_due now (snd kr)) (map_to_list (reminders s)).

(** [rem.snoozed_until && rem.snoozed_until > now] *)
Definition is_snoozed (now : Z) (r : reminder) : bool :=
  match snoozed_until r with
  | Some u => negb (u =? 0) && (now <? u)
  | None => false
  end.

(** [u.email as user_email] of the left join; [None] is [NULL]. *)
Definition user_email (s : store) (r : reminder) : option string :=
  match rem_user_id r with
  | Some uid =>
      match users s !! uid with
      | Some u => email u
      | None => None
      end
  | None => None
  end.

(** [t.title as task_title] of the left join. *)
Definition task_title (s : store) (r : reminder) : option string :=
  match rem_task_id r with
  | Some tid =>
      match tasks s !! tid with
      | Some t => title t
      | None => None
      end
  | None => None
  end.

Definition mark_sent (r : reminder) : reminder :=
  mkReminder (rem_task_id r) (rem_user_id r) (remind_at r) (snoozed_until r) 1.

(** The body of [rows.forEach]: [s0] is the store the query read (the joins
    were evaluated there), [acc] the store and the calls of [sendMail] so
    far.  [send] is the transport: whether the mail for a reminder gets
    through. *)
Definition scan_row (now : Z) (send : string -> bool) (s0 : store)
  (acc : store * list attempt) (kr : string * reminder)
  : store * list attempt :=
  let '(id, rem) := kr in
  if is_snoozed now rem then acc
  else
    match user_email s0 rem with
    | None => acc
    | Some to =>
        if String.eqb to "" then acc
        else
          let m := mkMail to ("Reminder: " +:+ str_or (task_title s0 rem) "Task") in
          if send id then
            (with_reminders (alter mark_sent id) (fst acc),
             snd acc ++ [mkAttempt id m true])
          else (fst acc, snd acc ++ [mkAttempt id m false])
    end.

(** One run of the scheduler at time [now]. *)
Definition scan (now : Z) (send : string -> bool) (s : store)
  : store * list attempt :=
  fold_left (scan_row now send s) (due_rows now s) (s, []).

(** Whether [forEach] reaches [sendMail] for a row of the query: the row is
    not snoozed and the join found a non-empty address. *)
Definition reaches_send (now : Z) (s0 : store) (rem : reminder) : bool :=
  negb (is_snoozed now rem) && truthy_str (user_email s0 rem).

(** The call of [sendMail] made for a row that reaches it. *)
Definition attempt_for (send : string -> bool) (s0 : store)
  (kr : string * reminder) : attempt :=
  mkAttempt (fst kr)
            (mkMail (str_or (user_email s0 (snd kr)) "")
                    ("Reminder: " +:+ str_or (task_title s0 (snd kr)) "Task"))
            (send (fst kr)).

(** Whether some row of [rows] with key [j] reaches [sendMail] and gets
    through. *)
Definition marked (now : Z) (send : string -> bool) (s0 : store)
  (rows : list (string * reminder)) (j : string) : bool :=
  existsb (fun kr => String.eqb (fst kr) j && reaches_send now s0 (snd kr)
                     && send (fst kr)) rows.

(** ** [POST /api/sync] *)

Record sync_op := mkOp {
  op_type : string;
  op_action : string;
  op_payload : option task_body
}.

Inductive sync_result :=
| SyncOk (id : option string)       (* [{ ok: true, id }] *)
| SyncFail (error : string).        (* [{ ok: false, error }] *)

(** What the loop reads from its environment at the operation of each
    index: the clock, the identifier generator, and whether [db.run] fails
    there (and with which message). *)
Record sync_env := mkSyncEnv {
  se_now : nat -> Z;
  se_uuid : nat -> string;
  se_fail : nat -> option string
}.

(** The row [INSERT OR REPLACE INTO tasks ...] writes. *)
Definition created_row (user_id : string) (now : Z) (t : task_body) : task :=
  {| title := Some (str_or (b_title t) "");
     description := Some (str_or (b_description t) "");
     priority := Some (str_or (b_priority t) "medium");
     completed := flag (b_completed t);
     due_at := due_or_null (b_due_at t);
     created_by := Some user_id;
     assignee := str_or_null (b_assignee t);
     recurring_rule := str_or_null (b_recurring_rule t);
     created_at := Some now |}.

(** [t.id || uuidv4()] *)
Definition create_id (t : task_body) (uuid : string) : string :=
  if truthy_str (b_id t) then str_or (b_id t) uuid else uuid.

(** [UPDATE tasks SET ... WHERE id=?] with [t.id] bound: a missing id binds
    [NULL], which equals no key. *)
Definition update_where (t : task_body) (m : gmap string task) : gmap string task :=
  match b_id t with
  | Some id => alter (update_row t) id m
  | None => m
  end.

(** What one turn of the loop does. *)
Inductive turn :=
| Pushed (r : sync_result)    (* [results.push(r)] *)
| Skipped                     (* no branch applies *)
| Thrown (error : string).    (* an exception leaves the loop *)

Definition sync_turn (e : sync_env) (user_id : string) (i : nat)
  (op : sync_op) (s : store) : store * turn :=
  if String.eqb (op_type op) "task" then
    if String.eqb (op_action op) "create" then
      match op_payload op with
      | None => (s, Thrown "Cannot read properties of undefined (reading 'id')")
      | Some t =>
          let id := create_id t (se_uuid e i) in
          match se_fail e i with
          | Some msg => (s, Pushed (SyncFail msg))
          | None =>
              (with_tasks (insert id (created_row user_id (se_now e i) t)) s,
               Pushed (SyncOk (Some id)))
          end
      end
    else if String.eqb (op_action op) "update" then
      match op_payload op with
      | None =>
          (s, Pushed (SyncFail "Cannot read properties of undefined (reading 'title')"))
      | Some t =>
          match se_fail e i with
          | Some msg => (s, Pushed (SyncFail msg))
          | None => (with_tasks (update_where t) s, Pushed (SyncOk (b_id t)))
          end
      end
    else (s, Skipped)
  else (s, Skipped).

(** The [for (const op of ops)] loop from index [i] on, with the results
    pushed so far; the answer is [None] when an exception left the loop, in
    which case [res.json] is never called. *)
Fixpoint sync_loop (e : sync_env) (user_id : string) (i : nat)
  (ops : list sync_op) (s : store) (results : list sync_result)
  : store * option (list sync_result) :=
  match ops with
  | [] => (s, Some results)
  | op :: rest =>
      match sync_turn e user_id i op s with
      | (s', Pushed r) => sync_loop e user_id (S i) rest s' (results ++ [r])
      | (s', Skipped) => sync_loop e user_id (S i) rest s' results
      | (s', Thrown _) => (s', None)
      end
  end.

Definition sync (e : sync_env) (user_id : string) (ops : list sync_op)
  (s : store) : store * option (list sync_result) :=
  sync_loop e user_id 0 ops s [].

(** The store after the first [k] operations of a batch. *)
Definition store_after (e : sync_env) (user_id : string) (ops : list sync_op)
  (s : store) (k : nat) : store :=
  fst (sync e user_id (take k ops) s).

(** The operations the data model gives a sync operation: a task create or
    update that carries a payload. *)
Definition is_sync_operation (op : sync_op) : bool :=
  String.eqb (op_type op) "task"
  && (String.eqb (op_action op) "create" || String.eqb (op_action op) "update")
  && match op_payload op with Some _ => true | None => false end.

(** ** The server as a transition system *)

Section Engine.
Variable LocalTZA : Z -> bool -> Z.
Variable Date_parse : string -> option Z.

(** One request served, or one run of the scheduler. *)
Inductive action :=
| PutTask (e : put_env) (id : string) (body : task_body)
| DeleteTask (id : string)
| TimeStart (uuid : string) (now : Z) (user_id task_id : string)
| TimeStop (now : Z) (entryId : string)
| ReminderCreate (uuid user_id : string) (task_id : option string) (at_ : option Z)
| ReminderSnooze (id : string) (until : option Z)
| Sync (e : sync_env) (user_id : string) (ops : list sync_op)
| Scan (now : Z) (send : string -> bool).

(** The store an action leaves and the calls of [sendMail] it makes. *)
Definition run (a : action) (s : store) : store * list attempt :=
  match a with
  | PutTask e id body => (fst (put_task LocalTZA Date_parse e id body s), [])
  | DeleteTask id => (fst (delete_task id s), [])
  | TimeStart uuid now user_id task_id =>
      (fst (time_start uuid now user_id task_id s), [])
  | TimeStop now entryId => (fst (time_stop now entryId s), [])
  | ReminderCreate uuid user_id task_id at_ =>
      (fst (reminder_create uuid user_id task_id at_ s), [])
  | ReminderSnooze id until => (fst (reminder_snooze id until s), [])
  | Sync e user_id ops => (fst (sync e user_id ops s), [])
  | Scan now send => scan now send s
  end.

Fixpoint run_all (acts : list action) (s : store) : store * list attempt :=
  match acts with
  | [] => (s, [])
  | a :: rest =>
      let '(s1, sent1) := run a s in
      let '(s2, sent2) := run_all rest s1 in
      (s2, sent1 ++ sent2)
  end.

End Engine.

(** ** Concrete inputs used in the examples *)

(** A host whose local time is UTC and whose parser knows no string. *)
Definition utc : Z -> bool -> Z := fun _ _ => 0.
Definition parse_none : string -> option Z := fun _ => None.

Definition env0 : put_env := mkPutEnv 1700000000000 1700000000000 "uuid-1".

Definition sync_env_at (now : Z) : sync_env :=
  mkSyncEnv (fun _ => now) (fun _ => "uuid-s") (fun _ => None).

Definition plain_task (done : Z) : task :=
  mkTask (Some "t") (Some "") (Some "medium") done None (Some "u1") None None
         (Some 1).

(** A request that marks a task done and repeats its other fields. *)
Definition body_done (rule : option string) (due : option dueval) : task_body :=
  mkBody None (Some "t") (Some "") (Some "medium") (JBool true) due None rule.

(** Task A with the single prerequisite B, whose [completed] is [doneB]. *)
Definition store_dep (doneB : Z) : store :=
  mkStore ∅ {[ "A" := plain_task 0; "B" := plain_task doneB ]} {[ ("A", "B") ]}
          ∅ ∅.

(** A daily task due 2024-01-31T10:00:00Z, with no prerequisite. *)
Definition due_jan31 : Z := 1706695200000.

Definition recurring_task : task :=
  mkTask (Some "t") (Some "") (Some "medium") 0 (Some (DueNum due_jan31))
         (Some "u1") None (Some "daily") (Some 1).

Definition store_rec : store :=
  mkStore ∅ {[ "R" := recurring_task ]} ∅ ∅ ∅.

(** A request that carries a title and nothing else. *)
Definition body_title_only : task_body :=
  mkBody None (Some "renamed") None None JUndefined None None None.

Definition t0 : Z := 1700000000000.

(** The store after user u1 started an entry e1 on task A at [t0]. *)
Definition store_timing : store :=
  fst (time_start "e1" t0 "u1" "A" empty_store).

(** User u1 with an address, and a reminder r1 of theirs for task A, due at
    [t0], with the given snooze time and sent flag. *)
Definition store_reminder (snooze : option Z) (flag_sent : Z) : store :=
  mkStore {[ "u1" := mkUser (Some "u1@example.com") (Some "U") ]}
          {[ "A" := plain_task 0 ]} ∅ ∅
          {[ "r1" := mkReminder (Some "A") (Some "u1") (Some t0) snooze flag_sent ]}.

Definition send_ok : string -> bool := fun _ => true.
Definition send_fails : string -> bool := fun _ => false.

(** Sync operations and batches. *)
Definition op_create (t : task_body) : sync_op := mkOp "task" "create" (Some t).
Definition op_update (t : task_body) : sync_op := mkOp "task" "update" (Some t).

Definition payload (id : string) (title_ : string) : task_body :=
  mkBody (Some id) (Some title_) None None JUndefined None None None.

(** The environment of a batch whose second [db.run] fails. *)
Definition sync_env_failing_second : sync_env :=
  mkSyncEnv (fun _ => 1000) (fun _ => "uuid-s")
            (fun i => if Nat.eqb i 1 then Some "SQLITE_BUSY: database is locked" else None).

Definition batch3 : list sync_op :=
  [op_create (payload "A" "first"); op_update (payload "A" "x");
   op_create (payload "B" "second")].

(** The batch [[create(id=A), update(id=A, title="x")]]. *)
Definition batch_ax : list sync_op :=
  [op_create (payload "A" "first"); op_update (payload "A" "x")].

(** A sync payload that marks task [id] done and repeats its other fields. *)
Definition payload_done (id : string) (rule : option string)
  (due : option dueval) : task_body :=
  mkBody (Some id) (Some "t") (Some "") (Some "medium") (JBool true) due None rule.

(** ** [POST /api/tasks] and [GET /api/tasks] *)

(** The task object the handler answers: the generated identifier, the
    members of the request as they are after the validation chain, and the
    creation time. *)
Record created_task := mkCreated {
  ct_id : string;
  ct_title : option string;
  ct_description : option string;
  ct_priority : option string;
  ct_due_at : option dueval;
  ct_assignee : option string;
  ct_recurring_rule : option string;
  ct_created_at : Z
}.

Inductive post_response :=
| Post200 (task_ : created_task)
| Post400                          (* [{ errors: errors.array() }] *)
| Post500 (error : string).

(** The row of [INSERT INTO tasks (id,title,description,priority,due_at,
    created_by,assignee,recurring_rule,created_at)]; [completed] takes its
    default. *)
Definition post_row (user_id : string) (now : Z)
  (title_ : option string) (body : task_body) : task :=
  {| title := Some (str_or title_ "");
     description := Some (str_or (b_description body) "");
     priority := Some (str_or (b_priority body) "medium");
     completed := 0;
     due_at := due_or_null (b_due_at body);
     created_by := str_or_null (Some user_id);
     assignee := str_or_null (b_assignee body);
     recurring_rule := str_or_null (b_recurring_rule body);
     created_at := Some now |}.

Section PostTask.
(** The sanitizers of the chain [body('title').notEmpty().trim().escape()],
    [trim] then [escape], which replace the request's title. *)
Variable sanitize : string -> string.

(** [app.post('/api/tasks', ...)].  [notEmpty] fails on a title that is
    missing or has no character. *)
Definition post_task (uuid : string) (now : Z) (user_id : string)
  (body : task_body) (s : store) : store * post_response :=
  if truthy_str (b_title body) then
    let title_ := option_map sanitize (b_title body) in
    match insert_task uuid (post_row user_id now title_ body) s with
    | SqlErr msg => (s, Post500 msg)
    | SqlOk s' =>
        (s', Post200 (mkCreated uuid title_ (b_description body)
                        (b_priority body) (b_due_at body) (b_assignee body)
                        (b_recurring_rule body) now))
    end
  else (s, Post400).

End PostTask.

(** [app.get('/api/tasks', ...)]: the rows of [SELECT * FROM tasks], each
    with its [id]. *)
Definition get_tasks (s : store) : list (string * task) :=
  map_to_list (tasks s).

(** ** [GET /api/reports/productivity] *)

(** [SUM] over a group: [NULL] durations do not count, and the sum of no
    value is [NULL]. *)
Definition sum_step (d : option Z) (acc : option Z) : option Z :=
  match d with
  | None => acc
  | Some x => Some (match acc with Some a => a + x | None => x end)
  end.

(** [SUM(duration)] of the group of [user_id]. *)
Definition total_seconds (user_id : option string) (s : store) : option Z :=
  map_fold (fun _ e acc =>
              if decide (te_user_id e = user_id) then sum_step (duration e) acc
              else acc)
           None (time_entries s).

(** [SELECT user_id, SUM(duration) as total_seconds FROM time_entries
     GROUP BY user_id]: one row per user that has an entry. *)
Definition productivity (s : store) : list (option string * option Z) :=
  map (fun u => (u, total_seconds u s))
      (remove_dups (map (fun kr => te_user_id (snd kr))
                        (map_to_list (time_entries s)))).

(** ** Turns of the sync loop by what they do *)

(** The operations whose turn pushes a result. *)
Definition pushes (op : sync_op) : bool :=
  String.eqb (op_type op) "task"
  && (String.eqb (op_action op) "create"
        && match op_payload op with Some _ => true | None => false end
      || negb (String.eqb (op_action op) "create")
         && String.eqb (op_action op) "update").

(** The operations whose turn throws out of the loop. *)
Definition throws (op : sync_op) : bool :=
  String.eqb (op_type op) "task"
  && String.eqb (op_action op) "create"
  && match op_payload op with Some _ => false | None => true end.

(** ** Lengths of months *)

(** The number of days of month [m] (0 = January) of a year that is a leap
    year ([leap = 1]) or not ([leap = 0]). *)
Definition DaysInMonth (m leap : Z) : Z :=
  match m with
  | 1 => 28 + leap
  | 3 | 5 | 8 | 10 => 30
  | _ => 31
  end.

(** ** [authMiddleware] *)

(** [s.split(sep)] for a separator of one character. *)
Fixpoint split_on (sep : ascii) (s : string) : list string :=
  match s with
  | EmptyString => [""]
  | String c rest =>
      match split_on sep rest with
      | [] => [String c ""]
      | piece :: pieces =>
          if Ascii.eqb c sep then "" :: piece :: pieces
          else String c piece :: pieces
      end
  end.

Inductive auth_result (A : Type) :=
| AuthNext (user_ : A)            (* [req.user = decoded; next()] *)
| Auth401 (error : string).
Arguments AuthNext {A} user_.
Arguments Auth401 {A} error.

(** [authMiddleware], for the value of the [authorization] header.
    [verify] is [jwt.verify(., JWT_SECRET)]: the decoded payload, or [None]
    where it throws.  It throws on an [undefined] token as well. *)
Definition authMiddleware {A : Type} (verify : string -> option A)
  (authorization : option string) : auth_result A :=
  if truthy_str authorization then
    match split_on " " (str_or authorization "") !! 1%nat with
    | Some token =>
        match verify token with
        | Some decoded => AuthNext decoded
        | None => Auth401 "Invalid token"
        end
    | None => Auth401 "Invalid token"
    end
  else Auth401 "Missing auth header".

(** ** [POST /api/ai/suggest] *)

(** [toLowerCase] on the letters A to Z; no other character has a lower
    case among the letters of the word looked for below. *)
Definition lower_char (c : ascii) : ascii :=
  let n := nat_of_ascii c in
  if (65 <=? n)%nat && (n <=? 90)%nat then ascii_of_nat (n + 32) else c.

Fixpoint toLowerCase (s : string) : string :=
  match s with
  | EmptyString => EmptyString
  | String c rest => String (lower_char c) (toLowerCase rest)
  end.

(** [s.includes(word)] *)
Fixpoint includes (s word : string) : bool :=
  String.prefix word s
  || match s with
     | EmptyString => false
     | String _ rest => includes rest word
     end.

Record ai_task := mkAiTask {
  ai_id : jsval;
  ai_text : option string
}.

Record suggestion := mkSuggestion {
  sg_id : jsval;
  sg_suggestion : string;
  sg_priorityBoost : Z
}.

(** The callback of [tasks.map]; [None] is the [TypeError] of
    [t.text.toLowerCase()] on a task without text. *)
Definition suggest_one (t : ai_task) : option suggestion :=
  match ai_text t with
  | None => None
  | Some text =>
      let urgent := includes (toLowerCase text) "urgent" in
      Some (mkSuggestion (ai_id t)
              (if urgent then "Do this now" else "Schedule this")
              (if urgent then 1 else 0))
  end.

(** The handler, for [req.body.tasks || []]: the suggestions, or [None]
    when the callback throws and the request ends in an error. *)
Fixpoint ai_suggest (tasks_ : list ai_task) : option (list suggestion) :=
  match tasks_ with
  | [] => Some []
  | t :: rest =>
      match suggest_one t with
      | None => None
      | Some sg =>
          match ai_suggest rest with
          | None => None
          | Some sgs => Some (sg :: sgs)
          end
      end
  end.

(** Whether a string is free of a character. *)
Fixpoint free_of (c : ascii) (s : string) : bool :=
  match s with
  | EmptyString => true
  | String d rest => negb (Ascii.eqb d c) && free_of c rest
  end.

(** ** The browser code: texts *)

(** The callback of [replace] in [escapeHtml], whose pattern matches the
    ampersand, the two angle brackets and the double quote, extended to the
    characters the pattern does not match, which stay. *)
Definition escape_char (c : ascii) : string :=
  if Ascii.eqb c "&"%char then "&amp;"
  else if Ascii.eqb c "<"%char then "&lt;"
  else if Ascii.eqb c ">"%char then "&gt;"
  else if Ascii.eqb c "034"%char then "&quot;"
  else String c "".

Fixpoint escapeHtml (s : string) : string :=
  match s with
  | EmptyString => EmptyString
  | String c rest => escape_char c +:+ escapeHtml rest
  end.

Definition digit_char (d : Z) : ascii := ascii_of_nat (48 + Z.to_nat d).

(** The decimal digits of a number that is not negative, in front of
    [acc]. *)
Fixpoint decimal (fuel : nat) (n : Z) (acc : string) : string :=
  match fuel with
  | O => acc
  | S fuel' =>
      let acc' := String (digit_char (n mod 10)) acc in
      if n <? 10 then acc' else decimal fuel' (n / 10) acc'
  end.

(** [String(n)] for an integer. *)
Definition String_of_int (n : Z) : string :=
  if n <? 0 then "-" +:+ decimal (S (Z.to_nat (- n))) (- n) ""
  else decimal (S (Z.to_nat n)) n "".

Fixpoint repeat_char (n : nat) (c : ascii) : string :=
  match n with
  | O => EmptyString
  | S n' => String c (repeat_char n' c)
  end.

(** [s.padStart(width, c)] for a pad of one character. *)
Definition padStart (width : nat) (c : ascii) (s : string) : string :=
  repeat_char (width - String.length s) c +:+ s.

(** [formatTime]; [%] is the remainder of the division that truncates. *)
Definition formatTime (seconds : Z) : string :=
  let mins := seconds / 60 in
  let secs := Z.rem seconds 60 in
  padStart 2 "0" (String_of_int mins) +:+ ":" +:+ padStart 2 "0" (String_of_int secs).

(** ** The browser code: the todo list *)

Record todo := mkTodo {
  todo_id : Z;
  todo_text : string;
  todo_priority : string;
  todo_completed : bool;
  todo_createdAt : Z
}.

Section AddTodo.
(** [String.prototype.trim] *)
Variable trim : string -> string.

(** [addTodo], for the value and the priority of the form, [Date.now()] and
    [new Date()]: the list after the call. *)
Definition addTodo (now created : Z) (value priority_ : string)
  (todos : list todo) : list todo :=
  let text := trim value in
  if String.eqb text "" then todos
  else todos ++ [mkTodo now text priority_ false created].

End AddTodo.

Definition flip_completed (t : todo) : todo :=
  mkTodo (todo_id t) (todo_text t) (todo_priority t) (negb (todo_completed t))
         (todo_createdAt t).

(** [toggleTodo]: [find] yields the first todo with the identifier. *)
Fixpoint toggleTodo (id : Z) (todos : list todo) : list todo :=
  match todos with
  | [] => []
  | t :: rest =>
      if todo_id t =? id then flip_completed t :: rest
      else t :: toggleTodo id rest
  end.

(** [selectFocusTask]: the todo whose text is shown, or [None] where the
    alert is. *)
Definition selectFocusTask (todos : list todo) : option todo :=
  let available := List.filter (fun t => negb (todo_completed t)) todos in
  match available with
  | [] => None
  | first :: _ =>
      match List.find (fun t => String.eqb (todo_priority t) "high") available with
      | Some high => Some high
      | None => Some first
      end
  end.

(** [setOneThing] *)
Definition setOneThing (todos : list todo) : option todo :=
  match List.filter (fun t => negb (todo_completed t)
                              && String.eqb (todo_priority t) "high") todos with
  | [] => None
  | task_ :: _ => Some task_
  end.

(** ** The browser code: the focus timer *)

Record focus_state := mkFocus {
  focusTimerSeconds : Z;
  isFocusTimerRunning : bool;
  focusTimer : bool;            (* whether an interval is set *)
  completedPomodoros : Z;
  currentSession : Z;
  dailyFocusTime : Z            (* minutes *)
}.

Definition focus_initial : focus_state := mkFocus (25 * 60) false false 0 1 0.

Definition pauseFocusTimer (st : focus_state) : focus_state :=
  mkFocus (focusTimerSeconds st) false false (completedPomodoros st)
          (currentSession st) (dailyFocusTime st).

Definition startFocusTimer (st : focus_state) : focus_state :=
  if isFocusTimerRunning st then st
  else mkFocus (focusTimerSeconds st) true true (completedPomodoros st)
               (currentSession st) (dailyFocusTime st).

Definition resetFocusTimer (st : focus_state) : focus_state :=
  let st' := pauseFocusTimer st in
  mkFocus (25 * 60) (isFocusTimerRunning st') (focusTimer st')
          (completedPomodoros st') (currentSession st') (dailyFocusTime st').

(** The callback of [setInterval], which runs only while the interval is
    set. *)
Definition focus_tick (st : focus_state) : focus_state :=
  if focusTimer st then
    let seconds := focusTimerSeconds st - 1 in
    if seconds <=? 0 then
      mkFocus (25 * 60) false false (completedPomodoros st + 1)
              (currentSession st) (dailyFocusTime st + 25)
    else mkFocus seconds (isFocusTimerRunning st) (focusTimer st)
                 (completedPomodoros st) (currentSession st) (dailyFocusTime st)
  else st.

Inductive focus_event := FocusStart | FocusPause | FocusReset | FocusTick.

Definition focus_step (st : focus_state) (ev : focus_event) : focus_state :=
  match ev with
  | FocusStart => startFocusTimer st
  | FocusPause => pauseFocusTimer st
  | FocusReset => resetFocusTimer st
  | FocusTick => focus_tick st
  end.

Definition focus_run (evs : list focus_event) (st : focus_state) : focus_state :=
  fold_left focus_step evs st.

(** The callbacks of the interval among the events. *)
Definition ticks (evs : list focus_event) : Z :=
  Z.of_nat (length (List.filter (fun ev => match ev with FocusTick => true | _ => false end) evs)).

(** What holds of the focus timer after [n] callbacks of the interval. *)
Definition focus_ok (st : focus_state) (n : Z) : Prop :=
  dailyFocusTime st = 25 * completedPomodoros st
  /\ 1 <= focusTimerSeconds st <= 25 * 60
  /\ currentSession st = 1
  /\ isFocusTimerRunning st = focusTimer st
  /\ 0 <= completedPomodoros st
  /\ 25 * 60 * completedPomodoros st + (25 * 60 - focusTimerSeconds st) <= n.

(** ** [POST /api/auth/register] and [POST /api/auth/login] *)

(** A row of [users] with the columns the two handlers write and read,
    keyed by [id].  [email] is nullable: a missing member is bound as
    [NULL]. *)
Record account := mkAccount {
  acc_email : option string;
  acc_name : string;
  acc_password : string;
  acc_is_admin : Z;
  acc_created_at : Z
}.

Inductive register_response :=
| Register200 (id : string) (email_ : option string) (token : string)
| RegisterInvalid              (* 400 [{ errors: errors.array() }] *)
| Register400                  (* 400 [{ error: err.message }] *)
| RegisterThrows.              (* [bcrypt.hashSync(undefined, 8)] throws *)

Inductive login_response :=
| Login200 (id : string) (email_ : option string) (token : string)
| Login400                     (* email and password required *)
| Login401.                    (* Invalid credentials *)

Definition has_email (email_ : string) (kr : string * account) : bool :=
  match acc_email (snd kr) with
  | Some e => String.eqb e email_
  | None => false
  end.

(** Whether the [UNIQUE] constraint on [email] refuses the value: a row has
    it.  [NULL] is never refused. *)
Definition email_taken (email_ : option string) (accounts : gmap string account)
  : bool :=
  match email_ with
  | Some e => existsb (has_email e) (map_to_list accounts)
  | None => false
  end.

(** The row of [SELECT * FROM users WHERE email = ?]. *)
Definition find_by_email (email_ : string) (accounts : gmap string account)
  : option (string * account) :=
  List.find (has_email email_) (map_to_list accounts).

Section Auth.
(** The validators [isEmail] and the character count of [isLength], which
    see a missing member as the empty string; bcrypt with the salt it
    draws; and [generateToken] as a function of the clock reading
    [jwt.sign] stamps the token with, the identifier and the address. *)
Variable isEmail : string -> bool.
Variable char_count : string -> nat.
Variable hashSync : string -> string -> string.
Variable compareSync : string -> string -> bool.
Variable sign : Z -> string -> option string -> string.

Definition register (uuid salt : string) (now issued : Z)
  (email_ password name_ : option string) (accounts : gmap string account)
  : gmap string account * register_response :=
  if isEmail (str_or email_ "") && (6 <=? char_count (str_or password ""))%nat then
    match password with
    | None => (accounts, RegisterThrows)
    | Some pw =>
        match accounts !! uuid with
        | Some _ => (accounts, Register400)
        | None =>
            if email_taken email_ accounts then (accounts, Register400)
            else
              (<[uuid := mkAccount email_ (str_or name_ "") (hashSync salt pw) 0 now]>
                 accounts,
               Register200 uuid email_ (sign issued uuid email_))
        end
    end
  else (accounts, RegisterInvalid).

Definition login (issued : Z) (email_ password : option string)
  (accounts : gmap string account) : login_response :=
  if truthy_str email_ && truthy_str password then
    match find_by_email (str_or email_ "") accounts with
    | None => Login401
    | Some (id, row) =>
        if compareSync (str_or password "") (acc_password row)
        then Login200 id (acc_email row) (sign issued id (acc_email row))
        else Login401
    end
  else Login400.

End Auth.

(** No two rows share an address. *)
Definition unique_emails (accounts : gmap string account) : Prop :=
  forall i j a b e,
    accounts !! i = Some a -> accounts !! j = Some b ->
    acc_email a = Some e -> acc_email b = Some e -> i = j.

(** Toy validators and a toy hash for the examples: an address holds an at
    sign, a hash is the salt, a dollar sign and the password, and a token
    the identifier, a colon and the address. *)
Definition toy_isEmail (s : string) : bool := negb (free_of "@" s).
Definition toy_hash (salt password : string) : string := salt +:+ "$" +:+ password.
Definition toy_compare (password hash : string) : bool :=
  String.eqb hash ("salt" +:+ "$" +:+ password).
Definition toy_sign (issued : Z) (id : string) (email_ : option string) : string :=
  id +:+ ":" +:+ str_or email_ "".

(** * Properties *)

(** ** The store under the table updates *)

Lemma with_tasks_same f s : f (tasks s) = tasks s -> with_tasks f s = s.
Proof. destruct s; unfold with_tasks; simpl; intros ->; reflexivity. Qed.

Lemma with_tasks_compose f g s :
  with_tasks f (with_tasks g s) = with_tasks (fun m => f (g m)) s.
Proof. reflexivity. Qed.

Lemma with_tasks_ext f g s : f (tasks s) = g (tasks s) -> with_tasks f s = with_tasks g s.
Proof. unfold with_tasks; intros ->; reflexivity. Qed.

(** ** Date arithmetic *)

Module JsDateFacts.
Import JsDate.

Lemma YearFromTime_spec t :
  DayFromYear (YearFromTime t) <= Day t < DayFromYear (YearFromTime t + 1).
Proof.
  unfold YearFromTime; cbv zeta.
  destruct (Z.ltb_spec (Day t) (DayFromYear (1970 + Day t * 400 / 146097))) as [Hlt|Hge].
  - unfold DayFromYear in *.
    generalize dependent (Day t); intros d Hlt.
    split; Z.to_euclidean_division_equations; lia.
  - destruct (Z.leb_spec (DayFromYear (1970 + Day t * 400 / 146097 + 1)) (Day t)) as [Hle|Hgt].
    + unfold DayFromYear in *.
      generalize dependent (Day t); intros d Hge Hle.
      split; Z.to_euclidean_division_equations; lia.
    + lia.
Qed.

(** A year has the days [DaysInYear] gives it. *)
Lemma DayFromYear_succ y : DayFromYear (y + 1) = DayFromYear y + DaysInYear y.
Proof.
  unfold DayFromYear, DaysInYear.
  destruct (Z.eqb_spec (y mod 4) 0); simpl;
    [destruct (Z.eqb_spec (y mod 100) 0); simpl;
       [destruct (Z.eqb_spec (y mod 400) 0); simpl|]|];
    Z.to_euclidean_division_equations; lia.
Qed.

Lemma monthOfDay_range d leap : 0 <= monthOfDay d leap <= 11.
Proof.
  unfold monthOfDay.
  repeat match goal with |- context [if ?b then _ else _] => destruct b end; lia.
Qed.

Lemma MonthFromTime_range t : 0 <= MonthFromTime t <= 11.
Proof. apply monthOfDay_range. Qed.

(** Within the months 0..11, [MakeDay] counts days from the first of the
    month of the same year. *)
Lemma MakeDay_same_year t dt :
  MakeDay (YearFromTime t) (MonthFromTime t) dt =
  DayFromYear (YearFromTime t) + monthStart (MonthFromTime t) (InLeapYear t) + dt - 1.
Proof.
  pose proof (MonthFromTime_range t) as Hm.
  unfold MakeDay; cbv zeta.
  rewrite (Z.div_small (MonthFromTime t) 12) by lia.
  rewrite (Z.mod_small (MonthFromTime t) 12) by lia.
  rewrite Z.add_0_r. reflexivity.
Qed.

(** Setting the day of the month to the current one plus [k] moves the local
    time by [k] whole days. *)
Lemma MakeDate_shift_days t k :
  MakeDate (MakeDay (YearFromTime t) (MonthFromTime t) (DateFromTime t + k))
           (TimeWithinDay t) = t + k * msPerDay.
Proof.
  rewrite MakeDay_same_year.
  unfold DateFromTime, DayWithinYear, MakeDate, TimeWithinDay, Day, msPerDay.
  pose proof (Z.div_mod t 86400000 ltac:(lia)). lia.
Qed.

Section FixedOffset.
Variable LocalTZA : Z -> bool -> Z.
Variable offset : Z.
Hypothesis fixed : forall t b, LocalTZA t b = offset.

(** With a time zone of fixed offset, [d.setDate(d.getDate() + k)] adds
    exactly [k] days of 86400000 ms to the time value. *)
Lemma setDate_getDate_plus tv k :
  setDate LocalTZA (Some tv) (plus1 (getDate LocalTZA (Some tv)) k)
  = TimeClip (tv + k * msPerDay).
Proof.
  unfold setDate, getDate, plus1, LocalTime, UTC.
  rewrite MakeDate_shift_days, !fixed. f_equal. lia.
Qed.

Lemma nextDue_daily tv :
  nextDue LocalTZA (Some "daily") (Some tv) = TimeClip (tv + 86400000).
Proof.
  unfold nextDue.
  change (str_is (Some "daily") "daily") with true; cbv iota.
  apply setDate_getDate_plus.
Qed.

Lemma nextDue_weekly tv :
  nextDue LocalTZA (Some "weekly") (Some tv) = TimeClip (tv + 7 * 86400000).
Proof.
  unfold nextDue.
  change (str_is (Some "weekly") "daily") with false.
  change (str_is (Some "weekly") "weekly") with true; cbv iota.
  apply setDate_getDate_plus.
Qed.

End FixedOffset.

(** [setMonth(getMonth() + 1)] keeps the day of the month and lets it run
    over the end of a shorter month: 31 January 2024 goes to 2 March 2024,
    31 January 2023 to 3 March 2023, 15 January to 15 February, and 31
    December to 31 January of the next year. *)
Example nextDue_monthly_examples :
  toISOString (nextDue utc (Some "monthly") (Some 1706695200000))
    = Some "2024-03-02T10:00:00.000Z"
  /\ toISOString (nextDue utc (Some "monthly") (Some 1675159200000))
    = Some "2023-03-03T10:00:00.000Z"
  /\ toISOString (nextDue utc (Some "monthly") (Some 1705312800000))
    = Some "2024-02-15T10:00:00.000Z"
  /\ toISOString (nextDue utc (Some "monthly") (Some 1703980800000))
    = Some "2024-01-31T00:00:00.000Z".
Proof. vm_compute. repeat split. Qed.

End JsDateFacts.

(** ** The dependency query *)

Lemma dependencies_not_in_schema : bool_decide ("dependencies" ∈ schema) = false.
Proof. vm_compute. reflexivity. Qed.

Lemma task_dependencies_in_schema : bool_decide ("task_dependencies" ∈ schema) = true.
Proof. vm_compute. reflexivity. Qed.

(** The join returns exactly the prerequisites of [id] that name an
    incomplete task. *)
Lemma blocking_rows_spec id s p :
  p ∈ blocking_rows id s <->
  (id, p) ∈ task_dependencies s /\
  exists row, tasks s !! p = Some row /\ completed row = 0.
Proof.
  unfold blocking_rows. rewrite list_elem_of_In, in_map_iff. split.
  - intros [[t q] [Hq Hin]]. simpl in Hq; subst q.
    apply filter_In in Hin as [Hin Hb]. simpl in Hb.
    apply andb_prop in Hb as [Ht Hinc].
    apply String.eqb_eq in Ht; subst t.
    apply list_elem_of_In, elem_of_elements in Hin. split; [exact Hin|].
    unfold is_incomplete in Hinc. destruct (tasks s !! p) as [row|]; [|discriminate].
    exists row. split; [reflexivity|]. apply Z.eqb_eq, Hinc.
  - intros [Hin [row [Hrow Hc]]]. exists (id, p). split; [reflexivity|].
    apply filter_In. split.
    + apply list_elem_of_In, elem_of_elements, Hin.
    + simpl. rewrite String.eqb_refl. unfold is_incomplete. rewrite Hrow.
      apply Z.eqb_eq, Hc.
Qed.

Lemma select_blocking_dependencies id s :
  select_blocking "dependencies" id s = SqlErr (no_such_table "dependencies").
Proof. unfold select_blocking. rewrite dependencies_not_in_schema. reflexivity. Qed.

Lemma select_blocking_task_dependencies id s :
  select_blocking "task_dependencies" id s = SqlOk (blocking_rows id s).
Proof. unfold select_blocking. rewrite task_dependencies_in_schema. reflexivity. Qed.

Section PutTask.
Variable LocalTZA : Z -> bool -> Z.
Variable Date_parse : string -> option Z.

Local Abbreviation doUpdate := (doTaskUpdate LocalTZA Date_parse).
Local Abbreviation createNext := (create_next LocalTZA Date_parse).
Local Abbreviation putOn := (put_task_on LocalTZA Date_parse).
Local Abbreviation put := (put_task LocalTZA Date_parse).

(** Whatever the request, a [PUT] that sets [completed] stops at the
    dependency query: the table it reads from is not in the schema. *)
Lemma put_task_completing e id body s :
  truthy (b_completed body) = true ->
  put e id body s = (s, Put500 (no_such_table "dependencies")).
Proof.
  intros Hc. unfold put_task, put_task_on.
  rewrite Hc, select_blocking_dependencies. reflexivity.
Qed.

Lemma put_task_not_completing e id body s :
  truthy (b_completed body) = false ->
  put e id body s = doUpdate e id body s.
Proof.
  intros Hc. unfold put_task, put_task_on.
  rewrite Hc. reflexivity.
Qed.

(** Had the query named the table of the schema, a completing [PUT] would
    be refused exactly when some prerequisite is incomplete, with the rows
    of the join as [missing] and the store as it was, and would go on to
    [doTaskUpdate] otherwise. *)
Lemma put_task_on_task_dependencies e id body s :
  truthy (b_completed body) = true ->
  putOn "task_dependencies" e id body s =
  match blocking_rows id s with
  | [] => doUpdate e id body s
  | rows =>
      (s, Put400 "Cannot complete task while dependencies are incomplete" rows)
  end.
Proof.
  intros Hc. unfold put_task_on.
  rewrite Hc, select_blocking_task_dependencies.
  destruct (blocking_rows id s); reflexivity.
Qed.

(** *** What [doTaskUpdate] leaves in the tables *)

Lemma create_next_frame e id body s :
  users (createNext e id body s) = users s
  /\ task_dependencies (createNext e id body s) = task_dependencies s
  /\ time_entries (createNext e id body s) = time_entries s
  /\ reminders (createNext e id body s) = reminders s.
Proof.
  unfold create_next, insert_task.
  destruct (tasks s !! id); [|auto].
  destruct (JsDate.toISOString _); [|auto].
  destruct (tasks s !! pe_uuid e); auto.
Qed.

Lemma create_next_lookup e id body s j :
  is_Some (tasks s !! j) ->
  tasks (createNext e id body s) !! j = tasks s !! j.
Proof.
  intros Hj. unfold create_next, insert_task.
  destruct (tasks s !! id); [|reflexivity].
  destruct (JsDate.toISOString _); [|reflexivity].
  destruct (tasks s !! pe_uuid e) eqn:Hu; [reflexivity|].
  simpl. apply lookup_insert_ne. intros Heq. rewrite Heq in Hu.
  rewrite Hu in Hj. destruct Hj; discriminate.
Qed.

Lemma doTaskUpdate_frame e id body s :
  users (fst (doUpdate e id body s)) = users s
  /\ task_dependencies (fst (doUpdate e id body s)) = task_dependencies s
  /\ time_entries (fst (doUpdate e id body s)) = time_entries s
  /\ reminders (fst (doUpdate e id body s)) = reminders s.
Proof.
  unfold doTaskUpdate. simpl.
  destruct (truthy (b_completed body) && truthy_str (b_recurring_rule body)).
  - apply (create_next_frame e id body (with_tasks (alter (update_row body) id) s)).
  - auto.
Qed.

Lemma put_task_frame e id body s :
  users (fst (put e id body s)) = users s
  /\ task_dependencies (fst (put e id body s)) = task_dependencies s
  /\ time_entries (fst (put e id body s)) = time_entries s
  /\ reminders (fst (put e id body s)) = reminders s.
Proof.
  destruct (truthy (b_completed body)) eqn:Hc.
  - rewrite put_task_completing by exact Hc. auto.
  - rewrite put_task_not_completing by exact Hc. apply doTaskUpdate_frame.
Qed.

Lemma doTaskUpdate_lookup e id body s row :
  tasks s !! id = Some row ->
  tasks (fst (doUpdate e id body s)) !! id = Some (update_row body row).
Proof.
  intros Hrow. unfold doTaskUpdate. simpl.
  assert (Hs1 : tasks (with_tasks (alter (update_row body) id) s) !! id
                = Some (update_row body row)).
  { simpl. rewrite lookup_alter_eq, Hrow. reflexivity. }
  destruct (truthy (b_completed body) && truthy_str (b_recurring_rule body)).
  - rewrite create_next_lookup; [exact Hs1|]. rewrite Hs1. eauto.
  - exact Hs1.
Qed.

Lemma doTaskUpdate_missing e id body s :
  tasks s !! id = None ->
  doUpdate e id body s = (s, Put200 id body).
Proof.
  intros Hnone. unfold doTaskUpdate.
  assert (Hs1 : with_tasks (alter (update_row body) id) s = s).
  { apply with_tasks_same, alter_id', Hnone. }
  rewrite Hs1.
  destruct (truthy (b_completed body) && truthy_str (b_recurring_rule body));
    [|reflexivity].
  unfold create_next. rewrite Hnone. reflexivity.
Qed.

(** *** The successor [doTaskUpdate] inserts *)

(** When [doTaskUpdate] runs for an existing task with truthy [completed]
    and [recurring_rule], the next due date is valid and the generated
    identifier is unused, the store gains exactly the successor row under
    that identifier: the updated row's title, description, priority, creator,
    assignee and rule, [completed = 0], and the advanced due date as ISO
    text. *)
Lemma doTaskUpdate_successor e id body s row iso :
  tasks s !! id = Some row ->
  truthy (b_completed body) = true ->
  truthy_str (b_recurring_rule body) = true ->
  tasks s !! pe_uuid e = None ->
  JsDate.toISOString
    (nextDue LocalTZA (b_recurring_rule body)
       (currentDue Date_parse (update_row body row) (pe_date e))) = Some iso ->
  tasks (fst (doUpdate e id body s))
  = <[pe_uuid e :=
        mkTask (b_title body) (b_description body) (b_priority body) 0
               (Some (DueText iso)) (created_by row) (b_assignee body)
               (b_recurring_rule body) (Some (pe_now e))]>
      (<[id := update_row body row]> (tasks s)).
Proof.
  intros Hrow Hc Hr Hfresh Hiso.
  unfold doTaskUpdate. simpl. rewrite Hc, Hr. simpl.
  unfold create_next. simpl.
  rewrite lookup_alter_eq, Hrow. simpl. rewrite Hiso.
  unfold insert_task. simpl.
  assert (Hne : id <> pe_uuid e) by (intros Heq; rewrite Heq in Hrow; congruence).
  rewrite lookup_alter_ne, Hfresh by exact Hne. simpl.
  f_equal. apply map_eq. intros j.
  destruct (decide (j = id)) as [->|Hj].
  - rewrite lookup_insert_eq, lookup_alter_eq, Hrow. reflexivity.
  - rewrite lookup_insert_ne, lookup_alter_ne by congruence. reflexivity.
Qed.

End PutTask.

(** ** Claims about [PUT] and [DELETE] *)

(** C1 (the code departs from it).  Task A depends on B only.  With B
    complete the set of incomplete prerequisites is empty and completing A
    should be allowed; with B incomplete the request should be refused
    naming B.  The handler answers both requests with status 500 and the
    message of the failed query: its statement reads from a table
    [dependencies], while the schema creates [task_dependencies].  The
    store is left as it was in both cases. *)
Theorem put_task_dependency_query_fails :
  blocking_rows "A" (store_dep 1) = []
  /\ put_task utc parse_none env0 "A" (body_done None None) (store_dep 1)
     = (store_dep 1, Put500 "SQLITE_ERROR: no such table: dependencies")
  /\ blocking_rows "A" (store_dep 0) = ["B"]
  /\ put_task utc parse_none env0 "A" (body_done None None) (store_dep 0)
     = (store_dep 0, Put500 "SQLITE_ERROR: no such table: dependencies")
  /\ put_task_on utc parse_none "task_dependencies" env0 "A" (body_done None None)
       (store_dep 0)
     = (store_dep 0,
        Put400 "Cannot complete task while dependencies are incomplete" ["B"]).
Proof.
  assert (H1 : blocking_rows "A" (store_dep 1) = []) by (vm_compute; reflexivity).
  assert (H0 : blocking_rows "A" (store_dep 0) = ["B"]) by (vm_compute; reflexivity).
  split; [exact H1|]. split; [apply put_task_completing; reflexivity|].
  split; [exact H0|]. split; [apply put_task_completing; reflexivity|].
  rewrite put_task_on_task_dependencies by reflexivity. rewrite H0. reflexivity.
Qed.

(** The completing [PUT] of the daily task R, due 2024-01-31T10:00:00Z and
    without prerequisites: the handler answers 500 from the dependency
    query and leaves the store with R alone, still incomplete, so R makes
    no transition.  [doTaskUpdate], which the handler does not reach,
    would have inserted a successor due 2024-02-01T10:00:00Z under the
    generated identifier. *)
Theorem put_task_recurring_creates_nothing :
  put_task utc parse_none env0 "R"
    (body_done (Some "daily") (Some (DueNum due_jan31))) store_rec
  = (store_rec, Put500 "SQLITE_ERROR: no such table: dependencies")
  /\ tasks store_rec = {[ "R" := recurring_task ]}
  /\ tasks (fst (doTaskUpdate utc parse_none env0 "R"
                   (body_done (Some "daily") (Some (DueNum due_jan31))) store_rec))
     = <[ "uuid-1" :=
            mkTask (Some "t") (Some "") (Some "medium") 0
                   (Some (DueText "2024-02-01T10:00:00.000Z")) (Some "u1") None
                   (Some "daily") (Some 1700000000000) ]>
         (<[ "R" :=
               mkTask (Some "t") (Some "") (Some "medium") 1
                      (Some (DueNum due_jan31)) (Some "u1") None (Some "daily")
                      (Some 1) ]> (tasks store_rec)).
Proof.
  split; [apply put_task_completing; reflexivity|].
  split; [reflexivity|].
  rewrite (doTaskUpdate_successor utc parse_none env0 "R"
             (body_done (Some "daily") (Some (DueNum due_jan31))) store_rec
             recurring_task "2024-02-01T10:00:00.000Z")
    by (vm_compute; reflexivity).
  reflexivity.
Qed.

(** C8, as the handlers have it.  For an identifier that names no task, an
    update that does not set [completed] answers 200 with the identifier
    and the request echoed, a delete answers 200 with [ok: true], and both
    leave the store as it was: neither handler has a not-found answer. *)
Theorem update_delete_of_missing_task_succeed
  (LocalTZA : Z -> bool -> Z) (Date_parse : string -> option Z)
  (e : put_env) (id : string) (body : task_body) (s : store) :
  tasks s !! id = None ->
  truthy (b_completed body) = false ->
  put_task LocalTZA Date_parse e id body s = (s, Put200 id body)
  /\ delete_task id s = (s, Delete200).
Proof.
  intros Hnone Hc. split.
  - rewrite put_task_not_completing by exact Hc.
    apply doTaskUpdate_missing, Hnone.
  - unfold delete_task. f_equal. apply with_tasks_same, delete_id, Hnone.
Qed.

Lemma update_delete_of_missing_task_witness :
  put_task utc parse_none env0 "ghost" body_title_only (store_dep 0)
    = (store_dep 0, Put200 "ghost" body_title_only)
  /\ delete_task "ghost" (store_dep 0) = (store_dep 0, Delete200).
Proof.
  apply (update_delete_of_missing_task_succeed utc parse_none env0 "ghost"
           body_title_only (store_dep 0)).
  - vm_compute. reflexivity.
  - reflexivity.
Defined.

(** C8 as stated fails: on a store without any task, updating and deleting
    the identifier "ghost" are both answered with success. *)
Lemma missing_task_reported_as_success :
  snd (put_task utc parse_none env0 "ghost" body_title_only empty_store)
    = Put200 "ghost" body_title_only
  /\ snd (delete_task "ghost" empty_store) = Delete200
  /\ tasks empty_store !! "ghost" = None.
Proof. repeat split. Qed.

(** C10.  [doTaskUpdate] on an existing task stores the request's seven
    members as they are: title, description, priority, due date, assignee
    and recurrence rule become the request's value, [NULL] for a member the
    request leaves out, and [completed] becomes 1 or 0 by the truthiness of
    the request's member; only [created_by] and [created_at] keep their
    stored value.  So a request without a recurrence rule or a due date
    clears them.  A [PUT] that does not set [completed] is exactly
    [doTaskUpdate]. *)
Theorem doTaskUpdate_overwrites_all_fields
  (LocalTZA : Z -> bool -> Z) (Date_parse : string -> option Z)
  (e : put_env) (id : string) (body : task_body) (s : store) (row : task) :
  tasks s !! id = Some row ->
  tasks (fst (doTaskUpdate LocalTZA Date_parse e id body s)) !! id
  = Some (mkTask (b_title body) (b_description body) (b_priority body)
                 (if truthy (b_completed body) then 1 else 0)
                 (b_due_at body) (created_by row) (b_assignee body)
                 (b_recurring_rule body) (created_at row))
  /\ (b_recurring_rule body = None -> b_due_at body = None ->
      exists row',
        tasks (fst (doTaskUpdate LocalTZA Date_parse e id body s)) !! id = Some row'
        /\ recurring_rule row' = None /\ due_at row' = None)
  /\ (truthy (b_completed body) = false ->
      put_task LocalTZA Date_parse e id body s
      = doTaskUpdate LocalTZA Date_parse e id body s).
Proof.
  intros Hrow.
  pose proof (doTaskUpdate_lookup LocalTZA Date_parse e id body s row Hrow) as Hl.
  split; [exact Hl|]. split.
  - intros Hr Hd. eexists. split; [exact Hl|]. simpl. auto.
  - apply put_task_not_completing.
Qed.

(** A request that carries only a title, sent for the recurring task R:
    the stored description, priority, due date and rule are cleared. *)
Lemma doTaskUpdate_overwrites_witness :
  tasks (fst (doTaskUpdate utc parse_none env0 "R" body_title_only store_rec)) !! "R"
  = Some (mkTask (Some "renamed") None None 0 None (Some "u1") None None (Some 1)).
Proof.
  apply (doTaskUpdate_overwrites_all_fields utc parse_none env0 "R"
           body_title_only store_rec recurring_task).
  vm_compute. reflexivity.
Defined.

(** ** Time entries *)

(** C9.  Stopping an existing entry at time [now] answers and records
    [stopped_at = now] and a duration [d] that is the number of whole
    seconds in [now - started_at] when that is not negative, and 0 when the
    stop time is not after the start; [d] is never negative, and 125 seconds
    after the start it is 125. *)
Theorem time_stop_duration
  (now : Z) (entryId : string) (s : store) (row : time_entry) :
  time_entries s !! entryId = Some row ->
  let d := Z.max 0 ((now - started_at row) / 1000) in
  snd (time_stop now entryId s) = Stop200 entryId now d
  /\ time_entries (fst (time_stop now entryId s)) !! entryId
     = Some (mkTimeEntry (te_task_id row) (te_user_id row) (started_at row)
                         (Some now) (Some d))
  /\ 0 <= d
  /\ (started_at row <= now ->
      1000 * d <= now - started_at row < 1000 * d + 1000)
  /\ (now <= started_at row -> d = 0)
  /\ (now = started_at row + 125 * 1000 -> d = 125).
Proof.
  intros Hrow d. unfold time_stop. rewrite Hrow. simpl.
  rewrite lookup_alter_eq, Hrow. simpl. unfold elapsed_seconds. fold d.
  split; [reflexivity|]. split; [reflexivity|]. subst d.
  split; [lia|]. split; [|split].
  - intros H. Z.to_euclidean_division_equations; lia.
  - intros H. Z.to_euclidean_division_equations; lia.
  - intros H. Z.to_euclidean_division_equations; lia.
Qed.

(** An entry started at [t0]: stopped 125 s later it records 125, stopped
    5 s before [t0] it records 0. *)
Lemma time_stop_duration_witness :
  snd (time_stop (t0 + 125000) "e1" store_timing) = Stop200 "e1" (t0 + 125000) 125
  /\ snd (time_stop (t0 - 5000) "e1" store_timing) = Stop200 "e1" (t0 - 5000) 0.
Proof.
  split.
  - apply (time_stop_duration (t0 + 125000) "e1" store_timing
             (mkTimeEntry (Some "A") (Some "u1") t0 None None)).
    vm_compute. reflexivity.
  - apply (time_stop_duration (t0 - 5000) "e1" store_timing
             (mkTimeEntry (Some "A") (Some "u1") t0 None None)).
    vm_compute. reflexivity.
Defined.

(** ** The reminder scheduler *)

Lemma in_due_rows now s id r :
  In (id, r) (due_rows now s) <-> reminders s !! id = Some r /\ is_due now r = true.
Proof.
  unfold due_rows. rewrite filter_In. simpl.
  rewrite <- list_elem_of_In, elem_of_map_to_list. reflexivity.
Qed.

Lemma scan_row_cases now send s0 acc kr :
  scan_row now send s0 acc kr =
  if reaches_send now s0 (snd kr) then
    if send (fst kr) then
      (with_reminders (alter mark_sent (fst kr)) (fst acc),
       snd acc ++ [attempt_for send s0 kr])
    else (fst acc, snd acc ++ [attempt_for send s0 kr])
  else acc.
Proof.
  destruct kr as [id rem]. unfold scan_row, reaches_send, attempt_for. simpl.
  destruct (is_snoozed now rem); [reflexivity|]. simpl.
  destruct (user_email s0 rem) as [to|]; [|reflexivity]. simpl.
  destruct (String.eqb to "") eqn:Hto; [reflexivity|]. simpl.
  destruct (send id); destruct acc; reflexivity.
Qed.

Lemma mark_sent_twice (o : option reminder) :
  mark_sent <$> (mark_sent <$> o) = mark_sent <$> o.
Proof. destruct o; reflexivity. Qed.

(** The calls of [sendMail] of a run, in the order of the rows. *)
Lemma scan_fold_attempts now send s0 rows acc :
  snd (fold_left (scan_row now send s0) rows acc)
  = snd acc ++ map (attempt_for send s0)
                   (List.filter (fun kr => reaches_send now s0 (snd kr)) rows).
Proof.
  revert acc. induction rows as [|kr rows IH]; intros acc; simpl.
  - rewrite app_nil_r. reflexivity.
  - rewrite IH, scan_row_cases.
    destruct (reaches_send now s0 (snd kr)); [|reflexivity].
    destruct (send (fst kr)); simpl; rewrite <- app_assoc; reflexivity.
Qed.

(** The reminders table after a run: the rows that reached [sendMail] and
    got through have [sent = 1], every other row is as it was. *)
Lemma scan_fold_reminders now send s0 rows acc j :
  reminders (fst (fold_left (scan_row now send s0) rows acc)) !! j
  = if marked now send s0 rows j
    then mark_sent <$> (reminders (fst acc) !! j)
    else reminders (fst acc) !! j.
Proof.
  revert acc. induction rows as [|kr rows IH]; intros acc; simpl; [reflexivity|].
  rewrite IH, scan_row_cases.
  destruct (reaches_send now s0 (snd kr)); simpl.
  - destruct (send (fst kr)); simpl.
    + destruct (String.eqb_spec (fst kr) j) as [->|Hne]; simpl.
      * rewrite lookup_alter_eq, mark_sent_twice.
        destruct (marked now send s0 rows j); reflexivity.
      * rewrite lookup_alter_ne by exact Hne. reflexivity.
    + rewrite andb_false_r. reflexivity.
  - rewrite andb_false_r. reflexivity.
Qed.

Lemma scan_fold_frame now send s0 rows acc :
  users (fst (fold_left (scan_row now send s0) rows acc)) = users (fst acc)
  /\ tasks (fst (fold_left (scan_row now send s0) rows acc)) = tasks (fst acc)
  /\ task_dependencies (fst (fold_left (scan_row now send s0) rows acc))
     = task_dependencies (fst acc)
  /\ time_entries (fst (fold_left (scan_row now send s0) rows acc))
     = time_entries (fst acc).
Proof.
  revert acc. induction rows as [|kr rows IH]; intros acc; simpl; [auto|].
  destruct (IH (scan_row now send s0 acc kr)) as (-> & -> & -> & ->).
  rewrite scan_row_cases.
  destruct (reaches_send now s0 (snd kr)); [|auto].
  destruct (send (fst kr)); auto.
Qed.

Lemma scan_attempts now send s :
  snd (scan now send s)
  = map (attempt_for send s)
        (List.filter (fun kr => reaches_send now s (snd kr)) (due_rows now s)).
Proof. unfold scan. rewrite scan_fold_attempts. reflexivity. Qed.

Lemma scan_reminders now send s j :
  reminders (fst (scan now send s)) !! j
  = if marked now send s (due_rows now s) j
    then mark_sent <$> (reminders s !! j)
    else reminders s !! j.
Proof. unfold scan. rewrite scan_fold_reminders. reflexivity. Qed.

Lemma scan_users now send s : users (fst (scan now send s)) = users s.
Proof. unfold scan. apply scan_fold_frame. Qed.

(** A call of [sendMail] for [id] is made exactly when the row of [id] is
    due and reaches it; its outcome is the transport's. *)
Lemma in_scan_attempts now send s a :
  In a (snd (scan now send s)) <->
  exists r, reminders s !! att_id a = Some r
            /\ is_due now r = true /\ reaches_send now s r = true
            /\ a = attempt_for send s (att_id a, r).
Proof.
  rewrite scan_attempts, in_map_iff. split.
  - intros [[id r] [<- Hin]]. apply filter_In in Hin as [Hin Hr].
    apply in_due_rows in Hin as [Hl Hd]. simpl in *. eauto.
  - intros (r & Hl & Hd & Hr & Ha). exists (att_id a, r).
    split; [symmetry; exact Ha|]. apply filter_In. split; [|exact Hr].
    apply in_due_rows. auto.
Qed.

Lemma marked_true now send s j :
  marked now send s (due_rows now s) j = true <->
  exists r, reminders s !! j = Some r /\ is_due now r = true
            /\ reaches_send now s r = true /\ send j = true.
Proof.
  unfold marked. rewrite existsb_exists. split.
  - intros [[id r] [Hin Hb]]. simpl in Hb.
    apply andb_prop in Hb as [Hb Hs]. apply andb_prop in Hb as [He Hr].
    apply String.eqb_eq in He; subst id.
    apply in_due_rows in Hin as [Hl Hd]. eauto.
  - intros (r & Hl & Hd & Hr & Hs). exists (j, r). split.
    + apply in_due_rows. auto.
    + simpl. rewrite String.eqb_refl, Hr, Hs. reflexivity.
Qed.

Lemma is_due_later now now' r : now <= now' -> is_due now r = true -> is_due now' r = true.
Proof.
  unfold is_due. intros Hle H. apply andb_prop in H as [Hs Ht].
  rewrite Hs. simpl. destruct (remind_at r); [|discriminate].
  apply Z.leb_le in Ht. apply Z.leb_le. lia.
Qed.

Lemma is_snoozed_later now now' r :
  now <= now' -> is_snoozed now r = false -> is_snoozed now' r = false.
Proof.
  unfold is_snoozed. intros Hle H. destruct (snoozed_until r) as [u|]; [|reflexivity].
  destruct (u =? 0); [reflexivity|]. simpl in *.
  apply Z.ltb_ge in H. apply Z.ltb_ge. lia.
Qed.

Lemma sent_of_due now r : is_due now r = true -> sent r = 0.
Proof. unfold is_due. intros H. apply andb_prop in H as [Hs _]. apply Z.eqb_eq, Hs. Qed.

(** *** The sync loop and the other handlers leave the reminders alone *)

Lemma sync_turn_reminders e u i op s :
  reminders (fst (sync_turn e u i op s)) = reminders s.
Proof.
  unfold sync_turn.
  destruct (String.eqb (op_type op) "task"); [|reflexivity].
  destruct (String.eqb (op_action op) "create").
  - destruct (op_payload op); [|reflexivity]. destruct (se_fail e i); reflexivity.
  - destruct (String.eqb (op_action op) "update"); [|reflexivity].
    destruct (op_payload op); [|reflexivity]. destruct (se_fail e i); reflexivity.
Qed.

Lemma sync_loop_reminders e u ops : forall i s acc,
  reminders (fst (sync_loop e u i ops s acc)) = reminders s.
Proof.
  induction ops as [|op ops IH]; intros i s acc; simpl; [reflexivity|].
  pose proof (sync_turn_reminders e u i op s) as Ht.
  destruct (sync_turn e u i op s) as [s' [r| |msg]]; simpl in *.
  - rewrite IH. exact Ht.
  - rewrite IH. exact Ht.
  - exact Ht.
Qed.

Section SentOnce.
Variable LocalTZA : Z -> bool -> Z.
Variable Date_parse : string -> option Z.

(** No action resets a sent flag, and no action mails a reminder whose flag
    is set. *)
Lemma run_keeps_sent a s id r :
  reminders s !! id = Some r -> sent r = 1 ->
  (exists r', reminders (fst (run LocalTZA Date_parse a s)) !! id = Some r'
              /\ sent r' = 1)
  /\ forall x, In x (snd (run LocalTZA Date_parse a s)) -> att_id x <> id.
Proof.
  intros Hl Hs.
  destruct a as [e tid body|tid|uuid now uid tid|now eid|uuid uid tid at_
                 |rid until|e uid ops|now send]; simpl.
  - split; [|tauto].
    destruct (put_task_frame LocalTZA Date_parse e tid body s) as (_ & _ & _ & ->).
    eauto.
  - split; [eauto|tauto].
  - split; [|tauto]. unfold time_start.
    destruct (time_entries s !! uuid); simpl; eauto.
  - split; [|tauto]. unfold time_stop.
    destruct (time_entries s !! eid); simpl; eauto.
  - split; [|tauto]. unfold reminder_create.
    destruct (reminders s !! uuid) eqn:Hu; simpl; [eauto|].
    exists r. split; [|exact Hs]. rewrite lookup_insert_ne; [exact Hl|].
    intros Heq. rewrite Heq in Hu. congruence.
  - split; [|tauto]. destruct (decide (rid = id)) as [->|Hne].
    + exists (set_snoozed until r). rewrite lookup_alter_eq, Hl. auto.
    + exists r. rewrite lookup_alter_ne by exact Hne. auto.
  - split; [|tauto]. unfold sync. rewrite sync_loop_reminders. eauto.
  - split.
    + rewrite scan_reminders, Hl.
      destruct (marked now send s (due_rows now s) id); simpl; eauto.
    + intros x Hx Heq. apply in_scan_attempts in Hx as (r0 & Hl0 & Hd & _).
      rewrite Heq, Hl in Hl0. injection Hl0 as <-.
      apply sent_of_due in Hd. lia.
Qed.

Lemma run_all_keeps_sent acts : forall s id r,
  reminders s !! id = Some r -> sent r = 1 ->
  (exists r', reminders (fst (run_all LocalTZA Date_parse acts s)) !! id = Some r'
              /\ sent r' = 1)
  /\ forall x, In x (snd (run_all LocalTZA Date_parse acts s)) -> att_id x <> id.
Proof.
  induction acts as [|a acts IH]; intros s id r Hl Hs; simpl.
  - split; [eauto|tauto].
  - destruct (run_keeps_sent a s id r Hl Hs) as [(r1 & Hl1 & Hs1) Hno1].
    destruct (run LocalTZA Date_parse a s) as [s1 sent1]. simpl in *.
    destruct (IH s1 id r1 Hl1 Hs1) as [Hkeep Hno2].
    destruct (run_all LocalTZA Date_parse acts s1) as [s2 sent2]. simpl in *.
    split; [exact Hkeep|].
    intros x Hx. apply in_app_or in Hx as [Hx|Hx]; auto.
Qed.

(** C3.  For a reminder [r] stored under [id]:
    - a run of the scheduler turns its [sent] flag from 0 to 1 only if the
      run called [sendMail] for it and the transport reported success;
    - if the transport reported failure for it, the row is left exactly as
      it was, unsent, and the next run, at any time not before this one,
      calls [sendMail] for it again;
    - once its flag is 1, whatever requests and scheduler runs follow, the
      flag stays 1 and no run calls [sendMail] for it. *)
Theorem scheduler_sent_flag
  (now : Z) (send : string -> bool) (s : store) (id : string) (r : reminder) :
  reminders s !! id = Some r ->
  (sent r = 0 ->
   forall r', reminders (fst (scan now send s)) !! id = Some r' -> sent r' = 1 ->
   exists m, In (mkAttempt id m true) (snd (scan now send s)))
  /\ (forall m, In (mkAttempt id m false) (snd (scan now send s)) ->
      reminders (fst (scan now send s)) !! id = Some r
      /\ sent r = 0
      /\ forall now' send', now <= now' ->
         exists m', In (mkAttempt id m' (send' id))
                       (snd (scan now' send' (fst (scan now send s)))))
  /\ (sent r = 1 ->
      forall acts,
        (exists r', reminders (fst (run_all LocalTZA Date_parse acts s)) !! id = Some r'
                    /\ sent r' = 1)
        /\ forall x, In x (snd (run_all LocalTZA Date_parse acts s)) -> att_id x <> id).
Proof.
  intros Hl. split; [|split].
  - intros Hs r' Hl' Hs'. rewrite scan_reminders, Hl in Hl'.
    destruct (marked now send s (due_rows now s) id) eqn:Hm.
    + apply marked_true in Hm as (r0 & Hl0 & Hd & Hr & Hok).
      rewrite Hl in Hl0. injection Hl0 as <-.
      eexists. apply in_scan_attempts. exists r. simpl.
      repeat split; try assumption.
      unfold attempt_for. simpl. rewrite Hok. reflexivity.
    + injection Hl' as <-. lia.
  - intros m Hin. apply in_scan_attempts in Hin as (r0 & Hl0 & Hd & Hr & Ha).
    simpl in Hl0. rewrite Hl in Hl0. injection Hl0 as <-.
    unfold attempt_for in Ha. simpl in Ha. injection Ha as _ Hok.
    assert (Hkeep : reminders (fst (scan now send s)) !! id = Some r).
    { rewrite scan_reminders, Hl.
      destruct (marked now send s (due_rows now s) id) eqn:Hm; [|reflexivity].
      apply marked_true in Hm as (_ & _ & _ & _ & Hs). congruence. }
    split; [exact Hkeep|]. split; [apply (sent_of_due now), Hd|].
    intros now' send' Hle. eexists. apply in_scan_attempts. exists r. simpl.
    split; [exact Hkeep|]. split; [apply (is_due_later now); assumption|].
    split; [|reflexivity].
    unfold reaches_send in *. unfold user_email in *. rewrite scan_users.
    apply andb_prop in Hr as [Hsn Hem]. rewrite Hem, andb_true_r.
    apply negb_true_iff in Hsn. apply negb_true_iff.
    apply (is_snoozed_later now); assumption.
  - intros Hs acts. apply (run_all_keeps_sent acts s id r Hl Hs).
Qed.

End SentOnce.

(** Reminder r1, due at [t0]: a run one minute later whose transport fails
    leaves the row unsent. *)
Lemma scheduler_sent_flag_witness :
  reminders (fst (scan (t0 + 60000) send_fails (store_reminder None 0))) !! "r1"
  = Some (mkReminder (Some "A") (Some "u1") (Some t0) None 0).
Proof.
  apply (proj1 (proj2 (scheduler_sent_flag utc parse_none (t0 + 60000) send_fails
                         (store_reminder None 0) "r1"
                         (mkReminder (Some "A") (Some "u1") (Some t0) None 0)
                         eq_refl))
               (mkMail "u1@example.com" "Reminder: t")).
  vm_compute. left. reflexivity.
Defined.

(** The same reminder over two runs with a working transport: the first run
    mails it and sets the flag, the second mails nothing. *)
Example scan_twice_mails_once :
  snd (run_all utc parse_none
         [Scan (t0 + 60000) send_ok; Scan (t0 + 120000) send_ok]
         (store_reminder None 0))
  = [mkAttempt "r1" (mkMail "u1@example.com" "Reminder: t") true]
  /\ sent <$> (reminders (fst (run_all utc parse_none
                                 [Scan (t0 + 60000) send_ok; Scan (t0 + 120000) send_ok]
                                 (store_reminder None 0))) !! "r1")
     = Some 1.
Proof. vm_compute. split; reflexivity. Qed.

(** C4.  Let reminder [r], stored under [id], carry a snooze time [u] that
    is after the time [now] of a run of the scheduler (a clock reading, so
    not negative).  Whether or not [remind_at] has passed, that run makes no
    call of [sendMail] for [id] and leaves the row as it was.  In a run at
    any time [now'] with [u <= now'], the row, if still unsent with
    [remind_at] not after [now'] and an owner with an address, is mailed. *)
Theorem snoozed_reminder_waits
  (now : Z) (send : string -> bool) (s : store) (id : string) (r : reminder)
  (u : Z) :
  reminders s !! id = Some r ->
  snoozed_until r = Some u ->
  now < u ->
  0 <= now ->
  (forall x, In x (snd (scan now send s)) -> att_id x <> id)
  /\ reminders (fst (scan now send s)) !! id = Some r
  /\ (forall now' send' s' t to,
        u <= now' ->
        reminders s' !! id = Some r ->
        sent r = 0 -> remind_at r = Some t -> t <= now' ->
        user_email s' r = Some to -> to <> "" ->
        exists m, In (mkAttempt id m (send' id)) (snd (scan now' send' s'))).
Proof.
  intros Hl Hu Hlt Hnow.
  assert (Hsn : is_snoozed now r = true).
  { unfold is_snoozed. rewrite Hu.
    apply andb_true_intro. split.
    - apply negb_true_iff, Z.eqb_neq. lia.
    - apply Z.ltb_lt, Hlt. }
  assert (Hnr : forall s0, reaches_send now s0 r = false).
  { intros s0. unfold reaches_send. rewrite Hsn. reflexivity. }
  split; [|split].
  - intros x Hx Heq. apply in_scan_attempts in Hx as (r0 & Hl0 & _ & Hr & _).
    rewrite Heq, Hl in Hl0. injection Hl0 as <-. rewrite Hnr in Hr. discriminate.
  - rewrite scan_reminders, Hl.
    destruct (marked now send s (due_rows now s) id) eqn:Hm; [|reflexivity].
    apply marked_true in Hm as (r0 & Hl0 & _ & Hr & _).
    rewrite Hl in Hl0. injection Hl0 as <-. rewrite Hnr in Hr. discriminate.
  - intros now' send' s' t to Hle Hl' Hs Ht Htle Hem Hto.
    eexists. apply in_scan_attempts. exists r. simpl.
    split; [exact Hl'|]. split; [|split; [|reflexivity]].
    + unfold is_due. rewrite Hs, Ht. simpl. apply Z.leb_le, Htle.
    + unfold reaches_send, is_snoozed. rewrite Hu, Hem. simpl.
      apply andb_true_intro. split.
      * apply negb_true_iff, andb_false_intro2, Z.ltb_ge, Hle.
      * apply negb_true_iff, String.eqb_neq, Hto.
Qed.

(** Reminder r1 was due at [t0] and is snoozed for an hour: the run one
    minute after [t0] leaves it alone, although the transport works. *)
Lemma snoozed_reminder_waits_witness :
  (forall x, In x (snd (scan (t0 + 60000) send_ok
                          (store_reminder (Some (t0 + 3600000)) 0))) ->
             att_id x <> "r1")
  /\ reminders (fst (scan (t0 + 60000) send_ok
                       (store_reminder (Some (t0 + 3600000)) 0))) !! "r1"
     = Some (mkReminder (Some "A") (Some "u1") (Some t0) (Some (t0 + 3600000)) 0).
Proof.
  pose proof (snoozed_reminder_waits (t0 + 60000) send_ok
                (store_reminder (Some (t0 + 3600000)) 0) "r1"
                (mkReminder (Some "A") (Some "u1") (Some t0) (Some (t0 + 3600000)) 0)
                (t0 + 3600000) eq_refl eq_refl ltac:(unfold t0; lia)
                ltac:(unfold t0; lia)) as H.
  split; [exact (proj1 H)|exact (proj1 (proj2 H))].
Defined.

(** The same reminder at the end of the snooze: the run at that very time
    mails it. *)
Example snoozed_reminder_fires_at_snooze_time :
  snd (scan (t0 + 3600000) send_ok (store_reminder (Some (t0 + 3600000)) 0))
  = [mkAttempt "r1" (mkMail "u1@example.com" "Reminder: t") true]
  /\ snd (scan (t0 + 3599999) send_ok (store_reminder (Some (t0 + 3600000)) 0))
     = [].
Proof. vm_compute. split; reflexivity. Qed.

(** ** The sync loop *)

Lemma sync_loop_app e u l1 : forall l2 i s acc,
  sync_loop e u i (l1 ++ l2) s acc =
  match sync_loop e u i l1 s acc with
  | (s', Some acc') => sync_loop e u (i + length l1)%nat l2 s' acc'
  | (s', None) => (s', None)
  end.
Proof.
  induction l1 as [|op l1 IH]; intros l2 i s acc; simpl.
  - rewrite Nat.add_0_r. reflexivity.
  - destruct (sync_turn e u i op s) as [s' [r| |msg]].
    + rewrite IH. replace (S i + length l1)%nat with (i + S (length l1))%nat by lia.
      reflexivity.
    + rewrite IH. replace (S i + length l1)%nat with (i + S (length l1))%nat by lia.
      reflexivity.
    + reflexivity.
Qed.

(** The batch with one more operation at its end. *)
Lemma sync_snoc e u ops op s :
  sync e u (ops ++ [op]) s =
  match sync e u ops s with
  | (s', Some acc) =>
      match sync_turn e u (length ops) op s' with
      | (s'', Pushed r) => (s'', Some (acc ++ [r]))
      | (s'', Skipped) => (s'', Some acc)
      | (s'', Thrown _) => (s'', None)
      end
  | (s', None) => (s', None)
  end.
Proof.
  unfold sync. rewrite sync_loop_app. simpl.
  destruct (sync_loop e u 0 ops s []) as [s' [acc|]]; [|reflexivity].
  simpl. destruct (sync_turn e u (length ops) op s') as [s'' [r| |msg]]; reflexivity.
Qed.

(** A sync operation always pushes a result. *)
Lemma sync_turn_pushes e u i op s :
  is_sync_operation op = true ->
  exists r, snd (sync_turn e u i op s) = Pushed r.
Proof.
  unfold is_sync_operation, sync_turn. intros H.
  apply andb_prop in H as [H Hp]. apply andb_prop in H as [Ht Ha].
  rewrite Ht. destruct (op_payload op) as [t|]; [|discriminate].
  destruct (String.eqb (op_action op) "create").
  - destruct (se_fail e i); eauto.
  - simpl in Ha. rewrite Ha. destruct (se_fail e i); eauto.
Qed.

(** A sync operation whose [db.run] fails pushes the failure and writes
    nothing. *)
Lemma sync_turn_fails e u i op s msg :
  is_sync_operation op = true ->
  se_fail e i = Some msg ->
  sync_turn e u i op s = (s, Pushed (SyncFail msg)).
Proof.
  unfold is_sync_operation, sync_turn. intros H Hf.
  apply andb_prop in H as [H Hp]. apply andb_prop in H as [Ht Ha].
  rewrite Ht, Hf. destruct (op_payload op) as [t|]; [|discriminate].
  destruct (String.eqb (op_action op) "create"); [reflexivity|].
  simpl in Ha. rewrite Ha. reflexivity.
Qed.

Lemma store_after_all e u ops s :
  store_after e u ops s (length ops) = fst (sync e u ops s).
Proof. unfold store_after. rewrite take_ge by lia. reflexivity. Qed.

Lemma store_after_snoc_le e u ops op s k :
  (k <= length ops)%nat ->
  store_after e u (ops ++ [op]) s k = store_after e u ops s k.
Proof. intros Hk. unfold store_after. rewrite take_app_le by exact Hk. reflexivity. Qed.

Lemma sync_batch_results e u s ops :
  Forall (fun op => is_sync_operation op = true) ops ->
  exists results,
    snd (sync e u ops s) = Some results
    /\ length results = length ops
    /\ forall k op, ops !! k = Some op ->
         exists r,
           sync_turn e u k op (store_after e u ops s k)
           = (store_after e u ops s (S k), Pushed r)
           /\ results !! k = Some r.
Proof.
  induction ops as [|op ops IH] using rev_ind; intros Hwf.
  - exists []. repeat split. intros k op Hk. discriminate.
  - apply Forall_app in Hwf as [Hwf Hop].
    apply Forall_cons in Hop as [Hop _].
    destruct (IH Hwf) as (results & Hres & Hlen & Hslots).
    pose proof (sync_snoc e u ops op s) as Hsn.
    destruct (sync e u ops s) as [s' acc] eqn:Hsync. simpl in Hres. subst acc.
    destruct (sync_turn_pushes e u (length ops) op s' Hop) as [r Hr].
    destruct (sync_turn e u (length ops) op s') as [s'' t] eqn:Hturn.
    simpl in Hr. subst t.
    exists (results ++ [r]). split; [rewrite Hsn; reflexivity|].
    split; [rewrite !length_app, Hlen; reflexivity|].
    intros k op' Hk.
    destruct (decide (k < length ops)%nat) as [Hlt|Hge].
    + rewrite lookup_app_l in Hk by exact Hlt.
      destruct (Hslots k op' Hk) as (r' & Ht' & Hr').
      exists r'. rewrite !store_after_snoc_le by lia.
      split; [exact Ht'|]. apply lookup_app_l_Some, Hr'.
    + assert (k = length ops) as ->.
      { apply lookup_lt_Some in Hk. rewrite length_app in Hk. simpl in Hk. lia. }
      rewrite list_lookup_middle in Hk by reflexivity. injection Hk as <-.
      exists r. rewrite store_after_snoc_le by lia.
      rewrite store_after_all, Hsync. simpl.
      replace (S (length ops)) with (length (ops ++ [op]))
        by (rewrite length_app; simpl; lia).
      rewrite store_after_all, Hsn. simpl.
      split; [exact Hturn|].
      rewrite <- Hlen. apply list_lookup_middle. reflexivity.
Qed.

(** Batches in which every operation is a task create or update with a
    payload.  The handler answers, and its [results] has one entry
    per operation, in the order of the batch: entry [k] is what the turn of
    operation [k] pushes when run on the store the first [k] operations
    left, and that turn leaves the store the next operation starts from.
    When [db.run] fails at operation [k], entry [k] is that failure, the
    store is as operation [k] found it, and the remaining operations run
    from there: the store at the end is the store after all operations. *)
Theorem sync_one_result_per_operation
  (e : sync_env) (u : string) (ops : list sync_op) (s : store) :
  Forall (fun op => is_sync_operation op = true) ops ->
  exists results,
    snd (sync e u ops s) = Some results
    /\ length results = length ops
    /\ (forall k op, ops !! k = Some op ->
          exists r,
            sync_turn e u k op (store_after e u ops s k)
            = (store_after e u ops s (S k), Pushed r)
            /\ results !! k = Some r)
    /\ (forall k msg, (k < length ops)%nat -> se_fail e k = Some msg ->
          results !! k = Some (SyncFail msg)
          /\ store_after e u ops s (S k) = store_after e u ops s k)
    /\ store_after e u ops s (length ops) = fst (sync e u ops s).
Proof.
  intros Hwf.
  destruct (sync_batch_results e u s ops Hwf) as (results & Hres & Hlen & Hslots).
  exists results. split; [exact Hres|]. split; [exact Hlen|].
  split; [exact Hslots|]. split; [|apply store_after_all].
  intros k msg Hk Hf.
  destruct (lookup_lt_is_Some_2 ops k Hk) as [op Hop].
  destruct (Hslots k op Hop) as (r & Ht & Hr).
  rewrite (sync_turn_fails e u k op _ msg) in Ht;
    [|exact (proj1 (Forall_lookup _ _) Hwf k op Hop)|exact Hf].
  injection Ht as Hs <-. split; [exact Hr|symmetry; exact Hs].
Qed.

(** Three operations of which the second fails at the database: three
    results, the failure in the second place. *)
Lemma sync_one_result_witness :
  exists results,
    snd (sync sync_env_failing_second "u1" batch3 empty_store) = Some results
    /\ length results = 3%nat.
Proof.
  destruct (sync_one_result_per_operation sync_env_failing_second "u1" batch3
              empty_store) as (results & H1 & H2 & _).
  - repeat constructor.
  - exists results. split; [exact H1|exact H2].
Defined.

Example sync_batch3_results :
  snd (sync sync_env_failing_second "u1" batch3 empty_store)
  = Some [SyncOk (Some "A"); SyncFail "SQLITE_BUSY: database is locked";
          SyncOk (Some "B")]
  /\ title <$> (tasks (fst (sync sync_env_failing_second "u1" batch3 empty_store)) !! "A")
     = Some (Some "first")
  /\ title <$> (tasks (fst (sync sync_env_failing_second "u1" batch3 empty_store)) !! "B")
     = Some (Some "second").
Proof. vm_compute. repeat split. Qed.

(** Outside the data model: an operation of another type or action pushes
    nothing, so the results are fewer than the operations; a create without
    a payload throws outside the [try], and the handler never answers; an
    update without a payload throws inside it and is recorded. *)
Example sync_other_operations :
  snd (sync (sync_env_at 1000) "u1"
         [mkOp "task" "delete" (Some (payload "A" "x")); op_create (payload "A" "y")]
         empty_store)
  = Some [SyncOk (Some "A")]
  /\ snd (sync (sync_env_at 1000) "u1"
            [mkOp "task" "create" None; op_create (payload "A" "y")] empty_store)
     = None
  /\ snd (sync (sync_env_at 1000) "u1"
            [mkOp "task" "update" None; op_create (payload "A" "y")] empty_store)
     = Some [SyncFail "Cannot read properties of undefined (reading 'title')";
             SyncOk (Some "A")].
Proof. vm_compute. repeat split. Qed.

(** C6, as the loop has it.  An update whose identifier names no task
    writes nothing and, unless [db.run] itself fails, pushes
    [{ ok: true, id }]: the statement matches no row and SQLite reports no
    error for that. *)
Theorem sync_update_of_missing_task
  (e : sync_env) (u : string) (i : nat) (t : task_body) (s : store) (id : string) :
  b_id t = Some id ->
  tasks s !! id = None ->
  se_fail e i = None ->
  sync_turn e u i (mkOp "task" "update" (Some t)) s = (s, Pushed (SyncOk (Some id)))
  /\ (i = 0%nat -> sync e u [mkOp "task" "update" (Some t)] s
                   = (s, Some [SyncOk (Some id)])).
Proof.
  intros Hid Hnone Hf.
  assert (Hturn : sync_turn e u i (mkOp "task" "update" (Some t)) s
                  = (s, Pushed (SyncOk (Some id)))).
  { unfold sync_turn. simpl. rewrite Hf, Hid. f_equal.
    apply with_tasks_same. unfold update_where. rewrite Hid.
    apply alter_id', Hnone. }
  split; [exact Hturn|].
  intros ->. unfold sync. simpl. rewrite Hturn. reflexivity.
Qed.

Lemma sync_update_of_missing_task_witness :
  sync_turn (sync_env_at 1000) "u1" 0 (op_update (payload "ghost" "x")) (store_dep 0)
  = (store_dep 0, Pushed (SyncOk (Some "ghost"))).
Proof.
  apply (sync_update_of_missing_task (sync_env_at 1000) "u1" 0
           (payload "ghost" "x") (store_dep 0) "ghost").
  - reflexivity.
  - vm_compute. reflexivity.
  - reflexivity.
Defined.

(** C6 as stated fails: on a store without tasks, the batch of one update of
    "ghost" is answered [[{ ok: true, id: "ghost" }]] and the store is
    still without tasks. *)
Lemma sync_update_of_missing_task_reported_ok :
  sync (sync_env_at 1000) "u1" [op_update (payload "ghost" "x")] empty_store
  = (empty_store, Some [SyncOk (Some "ghost")]).
Proof. vm_compute. reflexivity. Qed.

(** *** Create and update of one identifier in a batch *)

Lemma create_id_supplied t uuid id :
  b_id t = Some id -> id <> "" -> create_id t uuid = id.
Proof.
  intros Hid Hne. unfold create_id, truthy_str, str_or. rewrite Hid.
  apply String.eqb_neq in Hne. rewrite Hne. reflexivity.
Qed.

(** A create under a supplied identifier writes the whole row, whatever was
    stored under the identifier. *)
Lemma sync_turn_create e u i c s id :
  b_id c = Some id -> id <> "" -> se_fail e i = None ->
  sync_turn e u i (mkOp "task" "create" (Some c)) s
  = (with_tasks (insert id (created_row u (se_now e i) c)) s,
     Pushed (SyncOk (Some id))).
Proof.
  intros Hid Hne Hf. unfold sync_turn. simpl.
  rewrite Hf, (create_id_supplied c _ id Hid Hne). reflexivity.
Qed.

Lemma sync_create_update e u c upd s id :
  b_id c = Some id -> id <> "" -> b_id upd = Some id ->
  se_fail e 0%nat = None -> se_fail e 1%nat = None ->
  sync e u [mkOp "task" "create" (Some c); mkOp "task" "update" (Some upd)] s
  = (with_tasks (insert id (update_row upd (created_row u (se_now e 0%nat) c))) s,
     Some [SyncOk (Some id); SyncOk (Some id)]).
Proof.
  intros Hc Hne Hu Hf0 Hf1. unfold sync. simpl sync_loop.
  rewrite (sync_turn_create e u 0 c s id Hc Hne Hf0).
  unfold sync_turn. simpl. rewrite Hf1, Hu. f_equal.
  rewrite with_tasks_compose. apply with_tasks_ext.
  unfold update_where. rewrite Hu. apply alter_insert_eq.
Qed.

(** C7, as the loop has it.  Under a supplied, non-empty identifier [id]
    and when no [db.run] of the batch fails:
    - a create stores a whole new row under [id], whatever was stored there
      (every column is written from the payload, [created_by] is the
      submitting user and [created_at] the clock reading of that create),
      touches nothing else and is answered [{ ok: true, id }]; when [id]
      was taken, the stored identifiers are the same as before;
    - the batch of a create and an update of [id] leaves under [id] the
      update's seven members with the create's [created_by] and
      [created_at], and is answered with two successes;
    - running the batch a second time leaves the store that running it
      once with the second run's clock and user leaves; that is the store
      of the first run when both runs read the same clock and are made by
      the same user;
    - otherwise the two end states differ in the [created_by] and
      [created_at] of [id] only: the other tables, the other task rows and
      the other seven columns of [id] are the same. *)
Theorem sync_create_update_replay
  (e1 e2 : sync_env) (u1 u2 : string) (c upd : task_body) (s : store)
  (id : string) :
  b_id c = Some id -> id <> "" -> b_id upd = Some id ->
  se_fail e1 0%nat = None -> se_fail e1 1%nat = None ->
  se_fail e2 0%nat = None -> se_fail e2 1%nat = None ->
  let batch := [mkOp "task" "create" (Some c); mkOp "task" "update" (Some upd)] in
  let once1 := fst (sync e1 u1 batch s) in
  let twice := fst (sync e2 u2 batch once1) in
  let updated (u : string) (now : Z) :=
    mkTask (b_title upd) (b_description upd) (b_priority upd)
           (if truthy (b_completed upd) then 1 else 0) (b_due_at upd)
           (Some u) (b_assignee upd) (b_recurring_rule upd) (Some now) in
  (forall s0,
     sync e2 u2 [mkOp "task" "create" (Some c)] s0
     = (with_tasks
          (insert id
             (mkTask (Some (str_or (b_title c) ""))
                     (Some (str_or (b_description c) ""))
                     (Some (str_or (b_priority c) "medium"))
                     (if truthy (b_completed c) then 1 else 0)
                     (due_or_null (b_due_at c)) (Some u2)
                     (str_or_null (b_assignee c))
                     (str_or_null (b_recurring_rule c))
                     (Some (se_now e2 0%nat)))) s0,
        Some [SyncOk (Some id)])
     /\ (is_Some (tasks s0 !! id) ->
         dom (tasks (fst (sync e2 u2 [mkOp "task" "create" (Some c)] s0)))
         = dom (tasks s0)))
  /\ sync e1 u1 batch s
     = (with_tasks (insert id (updated u1 (se_now e1 0%nat))) s,
        Some [SyncOk (Some id); SyncOk (Some id)])
  /\ sync e2 u2 batch once1
     = (with_tasks (insert id (updated u2 (se_now e2 0%nat))) s,
        Some [SyncOk (Some id); SyncOk (Some id)])
  /\ twice = fst (sync e2 u2 batch s)
  /\ (u1 = u2 -> se_now e1 0%nat = se_now e2 0%nat -> twice = once1)
  /\ (users twice = users once1
      /\ task_dependencies twice = task_dependencies once1
      /\ time_entries twice = time_entries once1
      /\ reminders twice = reminders once1
      /\ (forall j, j <> id -> tasks twice !! j = tasks once1 !! j)
      /\ exists r1 r2,
           tasks once1 !! id = Some r1 /\ tasks twice !! id = Some r2
           /\ title r2 = title r1 /\ description r2 = description r1
           /\ priority r2 = priority r1 /\ completed r2 = completed r1
           /\ due_at r2 = due_at r1 /\ assignee r2 = assignee r1
           /\ recurring_rule r2 = recurring_rule r1
           /\ created_by r1 = Some u1 /\ created_at r1 = Some (se_now e1 0%nat)
           /\ created_by r2 = Some u2 /\ created_at r2 = Some (se_now e2 0%nat)).
Proof.
  intros Hc Hne Hu Hf10 Hf11 Hf20 Hf21 batch once1 twice updated.
  assert (Hrow : forall u now,
             update_row upd (created_row u now c) = updated u now) by reflexivity.
  assert (H1 : sync e1 u1 batch s
               = (with_tasks (insert id (updated u1 (se_now e1 0%nat))) s,
                  Some [SyncOk (Some id); SyncOk (Some id)])).
  { unfold batch. rewrite (sync_create_update e1 u1 c upd s id) by assumption.
    rewrite Hrow. reflexivity. }
  assert (H2 : forall s0, sync e2 u2 batch s0
               = (with_tasks (insert id (updated u2 (se_now e2 0%nat))) s0,
                  Some [SyncOk (Some id); SyncOk (Some id)])).
  { intros s0. unfold batch.
    rewrite (sync_create_update e2 u2 c upd s0 id) by assumption.
    rewrite Hrow. reflexivity. }
  assert (Honce : once1 = with_tasks (insert id (updated u1 (se_now e1 0%nat))) s).
  { unfold once1. rewrite H1. reflexivity. }
  assert (Htwice : twice = with_tasks (insert id (updated u2 (se_now e2 0%nat))) s).
  { unfold twice. rewrite H2, Honce. simpl. rewrite with_tasks_compose.
    apply with_tasks_ext. apply insert_insert_eq. }
  split; [|split; [|split; [|split; [|split]]]].
  - intros s0. unfold sync. simpl sync_loop.
    rewrite (sync_turn_create e2 u2 0 c s0 id Hc Hne Hf20). simpl.
    split; [reflexivity|]. intros Hsome.
    rewrite dom_insert_L.
    apply subseteq_union_1_L, singleton_subseteq_l, elem_of_dom, Hsome.
  - exact H1.
  - rewrite H2. f_equal. rewrite Honce, with_tasks_compose.
    apply with_tasks_ext. apply insert_insert_eq.
  - rewrite Htwice, H2. reflexivity.
  - intros -> Hnow. rewrite Htwice, Honce, Hnow. reflexivity.
  - rewrite Htwice, Honce. simpl.
    split; [reflexivity|]. split; [reflexivity|]. split; [reflexivity|].
    split; [reflexivity|]. split.
    + intros j Hj. rewrite !lookup_insert_ne by congruence. reflexivity.
    + exists (updated u1 (se_now e1 0%nat)), (updated u2 (se_now e2 0%nat)).
      rewrite !lookup_insert_eq. repeat split.
Qed.

(** The batch [[create(id=A), update(id=A, title="x")]] run at clock 1000
    and run again at clock 1000 by the same user: the second run changes
    nothing. *)
Lemma sync_create_update_replay_witness :
  fst (sync (sync_env_at 1000) "u1" batch_ax
         (fst (sync (sync_env_at 1000) "u1" batch_ax empty_store)))
  = fst (sync (sync_env_at 1000) "u1" batch_ax empty_store).
Proof.
  pose proof (sync_create_update_replay (sync_env_at 1000) (sync_env_at 1000)
                "u1" "u1" (payload "A" "first") (payload "A" "x") empty_store "A"
                eq_refl ltac:(discriminate) eq_refl eq_refl eq_refl eq_refl eq_refl)
    as (_ & _ & _ & _ & Hsame & _).
  exact (Hsame eq_refl eq_refl).
Defined.

(** C7 as stated fails: the batch run at clock 1000 leaves task A created
    at 1000; run again at clock 2000 it leaves A created at 2000, so the
    store after the second run is not the store after the first. *)
Lemma sync_replay_changes_created_at :
  created_at <$> (tasks (fst (sync (sync_env_at 1000) "u1" batch_ax empty_store)) !! "A")
  = Some (Some 1000)
  /\ created_at <$> (tasks (fst (sync (sync_env_at 2000) "u1" batch_ax
                                   (fst (sync (sync_env_at 1000) "u1" batch_ax
                                           empty_store)))) !! "A")
     = Some (Some 2000)
  /\ fst (sync (sync_env_at 2000) "u1" batch_ax
            (fst (sync (sync_env_at 1000) "u1" batch_ax empty_store)))
     <> fst (sync (sync_env_at 1000) "u1" batch_ax empty_store).
Proof.
  split; [vm_compute; reflexivity|]. split; [vm_compute; reflexivity|].
  intros Heq.
  apply (f_equal (fun st => created_at <$> (tasks st !! "A"))) in Heq.
  vm_compute in Heq. discriminate.
Qed.

(** The sync loop writes [completed] without the dependency query and
    without the recurrence step of the [PUT] handler: an update through it
    completes task A although its prerequisite B is incomplete, and
    completes the daily task R without creating a successor. *)
Example sync_update_completes_unchecked :
  blocking_rows "A" (store_dep 0) = ["B"]
  /\ sync (sync_env_at 1000) "u1" [op_update (payload_done "A" None None)]
          (store_dep 0)
     = (with_tasks (insert "A" (plain_task 1)) (store_dep 0),
        Some [SyncOk (Some "A")])
  /\ tasks (fst (sync (sync_env_at 1000) "u1"
                   [op_update (payload_done "R" (Some "daily")
                                 (Some (DueNum due_jan31)))] store_rec))
     = {[ "R" := mkTask (Some "t") (Some "") (Some "medium") 1
                        (Some (DueNum due_jan31)) (Some "u1") None
                        (Some "daily") (Some 1) ]}.
Proof. vm_compute. repeat split. Qed.

(** ** Further properties of the handlers *)

(** Every [PUT] whose [completed] member is truthy answers 500 with the
    error of the dependency query and writes nothing, whatever the task and
    its prerequisites are. *)
Theorem put_completed_always_fails
  (LocalTZA : Z -> bool -> Z) (Date_parse : string -> option Z)
  (e : put_env) (id : string) (body : task_body) (s : store) :
  truthy (b_completed body) = true ->
  put_task LocalTZA Date_parse e id body s
  = (s, Put500 "SQLITE_ERROR: no such table: dependencies").
Proof. apply put_task_completing. Qed.

Lemma put_completed_always_fails_witness :
  put_task utc parse_none env0 "A"
    (mkBody None (Some "t") None None (JNum 1) None None None) empty_store
  = (empty_store, Put500 "SQLITE_ERROR: no such table: dependencies").
Proof.
  apply (put_completed_always_fails utc parse_none env0 "A"
           (mkBody None (Some "t") None None (JNum 1) None None None) empty_store).
  reflexivity.
Defined.

(** When [doTaskUpdate] runs for an existing task with truthy [completed]
    and [recurring_rule], the next due date is valid and the generated
    identifier is unused, the tasks table afterwards is the table before
    with the task's row overwritten by the request and exactly one more
    row, stored under the generated identifier: the request's title,
    description, priority, assignee and rule, the task's creator,
    [completed = 0], [created_at] the clock reading, and as due date the
    ISO text of the next due date, counted from the request's due date or,
    when the request has none, from the current date. *)
Theorem recurrence_inserts_one_successor
  (LocalTZA : Z -> bool -> Z) (Date_parse : string -> option Z)
  (e : put_env) (id : string) (body : task_body) (s : store) (row : task)
  (iso : string) :
  tasks s !! id = Some row ->
  truthy (b_completed body) = true ->
  truthy_str (b_recurring_rule body) = true ->
  tasks s !! pe_uuid e = None ->
  JsDate.toISOString
    (nextDue LocalTZA (b_recurring_rule body)
       (if truthy_due (b_due_at body)
        then match b_due_at body with
             | Some (DueNum ms) => JsDate.TimeClip ms
             | Some (DueText txt) => Date_parse txt
             | None => None
             end
        else Some (pe_date e))) = Some iso ->
  tasks (fst (doTaskUpdate LocalTZA Date_parse e id body s))
  = <[pe_uuid e :=
        mkTask (b_title body) (b_description body) (b_priority body) 0
               (Some (DueText iso)) (created_by row) (b_assignee body)
               (b_recurring_rule body) (Some (pe_now e))]>
      (<[id :=
           mkTask (b_title body) (b_description body) (b_priority body)
                  (if truthy (b_completed body) then 1 else 0) (b_due_at body)
                  (created_by row) (b_assignee body) (b_recurring_rule body)
                  (created_at row)]> (tasks s)).
Proof.
  intros Hrow Hc Hr Hfresh Hiso.
  apply (doTaskUpdate_successor LocalTZA Date_parse e id body s row iso);
    assumption.
Qed.

(** A weekly task without a due date, completed on 2024-01-31T10:00:00Z:
    the successor is due a week after the completion. *)
Lemma recurrence_inserts_one_successor_witness :
  tasks (fst (doTaskUpdate utc parse_none (mkPutEnv due_jan31 due_jan31 "uuid-1") "A"
                (body_done (Some "weekly") None) (store_dep 1))) !! "uuid-1"
  = Some (mkTask (Some "t") (Some "") (Some "medium") 0
                 (Some (DueText "2024-02-07T10:00:00.000Z")) (Some "u1") None
                 (Some "weekly") (Some due_jan31)).
Proof.
  rewrite (recurrence_inserts_one_successor utc parse_none
             (mkPutEnv due_jan31 due_jan31 "uuid-1") "A"
             (body_done (Some "weekly") None) (store_dep 1) (plain_task 0)
             "2024-02-07T10:00:00.000Z")
    by (vm_compute; reflexivity).
  apply lookup_insert_eq.
Defined.

(** On a host whose time zone has a fixed offset from UTC, the daily rule
    moves a valid due date by exactly 86400000 ms and the weekly rule by
    exactly seven times that. *)
Theorem recurrence_daily_weekly_period
  (LocalTZA : Z -> bool -> Z) (offset : Z) (tv : Z) :
  (forall t b, LocalTZA t b = offset) ->
  nextDue LocalTZA (Some "daily") (Some tv) = JsDate.TimeClip (tv + 86400000)
  /\ nextDue LocalTZA (Some "weekly") (Some tv) = JsDate.TimeClip (tv + 604800000).
Proof.
  intros Hfixed. split.
  - apply (JsDateFacts.nextDue_daily LocalTZA offset Hfixed).
  - apply (JsDateFacts.nextDue_weekly LocalTZA offset Hfixed).
Qed.

Lemma recurrence_daily_weekly_period_witness :
  nextDue utc (Some "daily") (Some due_jan31) = Some (due_jan31 + 86400000).
Proof.
  apply (proj1 (recurrence_daily_weekly_period utc 0 due_jan31
                  (fun _ _ => eq_refl))).
Defined.

(** * Properties of the rest of the server and of the browser code *)

(** ** The monthly rule *)

Module MonthlyFacts.
Import JsDate.

Lemma DaysInYear_leap y :
  DaysInYear y = 365 + (if DaysInYear y =? 366 then 1 else 0).
Proof.
  unfold DaysInYear.
  repeat match goal with |- context [negb ?b] => destruct b; simpl end;
    reflexivity.
Qed.

Lemma monthOfDay_cases d leap :
  let m := monthOfDay d leap in
  m = 0 \/ m = 1 \/ m = 2 \/ m = 3 \/ m = 4 \/ m = 5 \/ m = 6 \/ m = 7
  \/ m = 8 \/ m = 9 \/ m = 10 \/ m = 11.
Proof. pose proof (JsDateFacts.monthOfDay_range d leap). simpl. lia. Qed.

(** Setting the month to the next one moves the day number by the length
    of the current month. *)
Lemma MakeDay_next_month t :
  MakeDay (YearFromTime t) (MonthFromTime t + 1) (DateFromTime t)
  = Day t + DaysInMonth (MonthFromTime t) (InLeapYear t).
Proof.
  unfold DateFromTime, DayWithinYear.
  pose proof (DaysInYear_leap (YearFromTime t)) as Hleap.
  pose proof (JsDateFacts.DayFromYear_succ (YearFromTime t)) as Hsucc.
  unfold MakeDay; cbv zeta. fold (InLeapYear t) in Hleap.
  destruct (monthOfDay_cases (DayWithinYear t) (InLeapYear t))
    as [H|[H|[H|[H|[H|[H|[H|[H|[H|[H|[H|H]]]]]]]]]]];
    fold (MonthFromTime t) in H; rewrite H;
    change (YearFromTime t + (11 + 1) / 12) with (YearFromTime t + 1);
    repeat match goal with
      | |- context [YearFromTime t + ?e / 12] =>
          change (YearFromTime t + e / 12) with (YearFromTime t + 0);
          rewrite Z.add_0_r
      end;
    fold (InLeapYear t); simpl; unfold DayWithinYear; lia.
Qed.

End MonthlyFacts.

(** On a host whose time zone has a fixed offset from UTC, the monthly rule
    ([setMonth(getMonth() + 1)]) moves a valid due date by as many days as
    the month it falls in has, in local time: 31 days from any day of
    January, 28 or 29 from any day of February.  The day of the month is
    kept when the next month has it and runs over into the month after
    next otherwise. *)
Theorem recurrence_monthly_period
  (LocalTZA : Z -> bool -> Z) (offset : Z) (tv : Z) :
  (forall t b, LocalTZA t b = offset) ->
  nextDue LocalTZA (Some "monthly") (Some tv)
  = JsDate.TimeClip
      (tv + DaysInMonth (JsDate.MonthFromTime (tv + offset))
                        (JsDate.InLeapYear (tv + offset)) * 86400000).
Proof.
  intros Hfixed. unfold nextDue.
  change (str_is (Some "monthly") "daily") with false.
  change (str_is (Some "monthly") "weekly") with false.
  change (str_is (Some "monthly") "monthly") with true. cbv iota.
  unfold JsDate.setMonth, JsDate.getMonth, plus1, JsDate.LocalTime, JsDate.UTC.
  rewrite !Hfixed, MonthlyFacts.MakeDay_next_month.
  f_equal. unfold JsDate.MakeDate, JsDate.TimeWithinDay, JsDate.Day, JsDate.msPerDay.
  pose proof (Z.div_mod (tv + offset) 86400000 ltac:(lia)). lia.
Qed.

(** From 2024-01-31T10:00:00Z, in UTC: 31 days later, the second of March. *)
Lemma recurrence_monthly_period_witness :
  nextDue utc (Some "monthly") (Some due_jan31) = Some (due_jan31 + 31 * 86400000).
Proof.
  apply (recurrence_monthly_period utc 0 due_jan31 (fun _ _ => eq_refl)).
Defined.

(** ** Task rows under [PUT], [POST], [GET] and [DELETE] *)

(** A [PUT] that does not set [completed] answers 200 and touches at most
    the row of its identifier: every other task row is as it was, no row
    appears or disappears (whatever recurrence rule the request carries),
    and the other tables are not written. *)
Theorem put_task_changes_one_row
  (LocalTZA : Z -> bool -> Z) (Date_parse : string -> option Z)
  (e : put_env) (id : string) (body : task_body) (s : store) :
  truthy (b_completed body) = false ->
  let s' := fst (put_task LocalTZA Date_parse e id body s) in
  snd (put_task LocalTZA Date_parse e id body s) = Put200 id body
  /\ (forall j, j <> id -> tasks s' !! j = tasks s !! j)
  /\ dom (tasks s') = dom (tasks s)
  /\ users s' = users s
  /\ task_dependencies s' = task_dependencies s
  /\ time_entries s' = time_entries s
  /\ reminders s' = reminders s.
Proof.
  intros Hc s'. subst s'.
  rewrite put_task_not_completing by exact Hc.
  unfold doTaskUpdate. rewrite Hc. simpl.
  split; [reflexivity|]. split; [|split; [|auto]].
  - intros j Hj. apply lookup_alter_ne. congruence.
  - apply dom_alter_L.
Qed.

Lemma put_task_changes_one_row_witness :
  tasks (fst (put_task utc parse_none env0 "A" body_title_only (store_dep 0))) !! "B"
  = Some (plain_task 0).
Proof.
  rewrite (proj1 (proj2 (put_task_changes_one_row utc parse_none env0 "A"
                           body_title_only (store_dep 0) eq_refl)) "B")
    by discriminate.
  vm_compute. reflexivity.
Defined.

Section PostTaskFacts.
Variable sanitize : string -> string.

(** A [POST] with a non-empty title and an unused generated identifier
    stores exactly one new row, under the generated identifier, and leaves
    every other row and table alone.  The row is incomplete, carries the
    sanitized title, the user as creator and the clock reading, and has the
    defaults filled in (priority [medium], [NULL] for a falsy due date,
    assignee or rule); an [id] or [completed] member of the request is
    ignored.  The answer echoes the request's members instead: its priority
    is the request's, not the stored default.  The row is listed by [GET],
    and deleting it gives back the store as it was. *)
Theorem post_task_stores_fresh_row
  (uuid : string) (now : Z) (user_id : string) (body : task_body) (s : store)
  (raw : string) :
  b_title body = Some raw -> raw <> "" ->
  tasks s !! uuid = None ->
  let row :=
    mkTask (Some (sanitize raw)) (Some (str_or (b_description body) ""))
           (Some (str_or (b_priority body) "medium")) 0
           (due_or_null (b_due_at body)) (str_or_null (Some user_id))
           (str_or_null (b_assignee body))
           (str_or_null (b_recurring_rule body)) (Some now) in
  let s' := fst (post_task sanitize uuid now user_id body s) in
  snd (post_task sanitize uuid now user_id body s)
  = Post200 (mkCreated uuid (Some (sanitize raw)) (b_description body)
               (b_priority body) (b_due_at body) (b_assignee body)
               (b_recurring_rule body) now)
  /\ tasks s' = <[uuid := row]> (tasks s)
  /\ In (uuid, row) (get_tasks s')
  /\ users s' = users s
  /\ task_dependencies s' = task_dependencies s
  /\ time_entries s' = time_entries s
  /\ reminders s' = reminders s
  /\ fst (delete_task uuid s') = s.
Proof.
  intros Htitle Hraw Hfresh row s'. subst s'.
  assert (Hne : truthy_str (b_title body) = true).
  { unfold truthy_str. rewrite Htitle. apply negb_true_iff, String.eqb_neq, Hraw. }
  unfold post_task, insert_task. rewrite Hne, Hfresh, Htitle. simpl.
  assert (Hrow : post_row user_id now (Some (sanitize raw)) body = row).
  { unfold post_row, row. f_equal.
    unfold str_or. destruct (String.eqb_spec (sanitize raw) ""); congruence. }
  rewrite Hrow.
  split; [reflexivity|]. split; [reflexivity|]. split.
  - unfold get_tasks. simpl. apply list_elem_of_In, elem_of_map_to_list.
    apply lookup_insert_eq.
  - repeat (split; [reflexivity|]).
    unfold delete_task. simpl. unfold with_tasks. simpl.
    rewrite delete_insert_eq, delete_id by exact Hfresh.
    destruct s; reflexivity.
Qed.

(** A [POST] without a title, or with the empty title, is answered 400; a
    [POST] whose generated identifier is taken is answered 500.  Neither
    writes. *)
Theorem post_task_rejects
  (uuid : string) (now : Z) (user_id : string) (body : task_body) (s : store) :
  (truthy_str (b_title body) = false ->
   post_task sanitize uuid now user_id body s = (s, Post400))
  /\ (truthy_str (b_title body) = true -> is_Some (tasks s !! uuid) ->
      post_task sanitize uuid now user_id body s
      = (s, Post500 "SQLITE_CONSTRAINT: UNIQUE constraint failed: tasks.id")).
Proof.
  unfold post_task, insert_task. split.
  - intros ->. reflexivity.
  - intros -> [row ->]. reflexivity.
Qed.

End PostTaskFacts.

(** A task created with only a title: stored with priority [medium]. *)
Lemma post_task_stores_fresh_row_witness :
  tasks (fst (post_task (fun x => x) "uuid-1" t0 "u1" body_title_only (store_dep 0)))
  = <["uuid-1" := mkTask (Some "renamed") (Some "") (Some "medium") 0 None
                         (Some "u1") None None (Some t0)]>
      (tasks (store_dep 0)).
Proof.
  pose proof (post_task_stores_fresh_row (fun x => x) "uuid-1" t0 "u1"
                body_title_only (store_dep 0) "renamed" eq_refl
                ltac:(discriminate) ltac:(vm_compute; reflexivity)) as H.
  exact (proj1 (proj2 H)).
Defined.

Lemma post_task_rejects_witness :
  post_task (fun x => x) "A" t0 "u1" body_title_only (store_dep 0)
  = (store_dep 0, Post500 "SQLITE_CONSTRAINT: UNIQUE constraint failed: tasks.id").
Proof.
  exact (proj2 (post_task_rejects (fun x => x) "A" t0 "u1" body_title_only
                  (store_dep 0)) eq_refl
            ltac:(vm_compute; eauto)).
Defined.

(** [DELETE] answers 200 for every identifier, leaves no row under it (none
    is listed by [GET] afterwards), keeps every other task row, and is
    idempotent.  It deletes from [tasks] only: dependency edges, reminders
    and time entries that mention the task stay. *)
Theorem delete_task_removes_row_only (id : string) (s : store) :
  let s' := fst (delete_task id s) in
  snd (delete_task id s) = Delete200
  /\ (forall row, ~ In (id, row) (get_tasks s'))
  /\ (forall j, j <> id -> tasks s' !! j = tasks s !! j)
  /\ task_dependencies s' = task_dependencies s
  /\ reminders s' = reminders s
  /\ time_entries s' = time_entries s
  /\ fst (delete_task id s') = s'.
Proof.
  simpl. split; [reflexivity|]. split; [|split; [|split; [|split; [|split]]]];
    try reflexivity.
  - intros row Hin. apply list_elem_of_In, elem_of_map_to_list in Hin.
    simpl in Hin. rewrite lookup_delete_eq in Hin. discriminate.
  - intros j Hj. apply lookup_delete_ne. congruence.
  - unfold with_tasks. simpl. rewrite delete_id by apply lookup_delete_eq.
    reflexivity.
Qed.

(** ** Time entries and the productivity report *)

(** Starting an entry under an unused identifier and stopping it: the start
    stores an open entry (no stop time, no duration) for whatever task
    identifier the request names, and the stop at [b] closes it with the
    whole seconds between the two clock readings, 0 if the clock went
    back. *)
Theorem time_start_then_stop
  (uuid user_id task_id : string) (a b : Z) (s : store) :
  time_entries s !! uuid = None ->
  let s1 := fst (time_start uuid a user_id task_id s) in
  snd (time_start uuid a user_id task_id s) = Start200 uuid task_id user_id a
  /\ time_entries s1 !! uuid
     = Some (mkTimeEntry (Some task_id) (Some user_id) a None None)
  /\ tasks s1 = tasks s
  /\ snd (time_stop b uuid s1) = Stop200 uuid b (Z.max 0 ((b - a) / 1000))
  /\ time_entries (fst (time_stop b uuid s1))
     = <[uuid := mkTimeEntry (Some task_id) (Some user_id) a (Some b)
                   (Some (Z.max 0 ((b - a) / 1000)))]> (time_entries s).
Proof.
  intros Hfresh s1. subst s1. unfold time_start. rewrite Hfresh. simpl.
  split; [reflexivity|]. split; [apply lookup_insert_eq|]. split; [reflexivity|].
  unfold time_stop. simpl. rewrite lookup_insert_eq. simpl.
  split; [reflexivity|]. rewrite alter_insert_eq. reflexivity.
Qed.

Lemma time_start_then_stop_witness :
  snd (time_stop (t0 + 90500) "e1" (fst (time_start "e1" t0 "u1" "A" empty_store)))
  = Stop200 "e1" (t0 + 90500) 90.
Proof.
  exact (proj1 (proj2 (proj2 (proj2
           (time_start_then_stop "e1" "u1" "A" t0 (t0 + 90500) empty_store
              eq_refl))))).
Defined.

(** Stopping is not final: an entry that was stopped at [a] and is stopped
    again at [b] ends as if it had been stopped at [b] only, its duration
    counted from the original start.  A stop of an identifier that names no
    entry is answered 404 and writes nothing; a start whose generated
    identifier is taken is answered 500 and writes nothing. *)
Theorem time_stop_last_wins (a b : Z) (id : string) (s : store) :
  (forall row, time_entries s !! id = Some row ->
     time_stop b id (fst (time_stop a id s))
     = (fst (time_stop b id s),
        Stop200 id b (Z.max 0 ((b - started_at row) / 1000))))
  /\ (time_entries s !! id = None ->
      time_stop a id s = (s, Stop404 "entry not found"))
  /\ (forall user_id task_id, is_Some (time_entries s !! id) ->
      time_start id a user_id task_id s
      = (s, Start500 "SQLITE_CONSTRAINT: UNIQUE constraint failed: time_entries.id")).
Proof.
  split; [|split].
  - intros row Hrow. unfold time_stop. rewrite Hrow. simpl.
    rewrite lookup_alter_eq, Hrow. simpl. f_equal.
    unfold with_time_entries. simpl. f_equal.
    apply map_eq. intros j. destruct (decide (j = id)) as [->|Hj].
    + rewrite !lookup_alter_eq, Hrow. reflexivity.
    + rewrite !lookup_alter_ne by congruence. reflexivity.
  - intros Hnone. unfold time_stop. rewrite Hnone. reflexivity.
  - intros user_id task_id [row Hrow]. unfold time_start. rewrite Hrow. reflexivity.
Qed.

Lemma time_stop_last_wins_witness :
  time_stop (t0 + 7000) "e1" (fst (time_stop (t0 + 3000) "e1" store_timing))
  = (fst (time_stop (t0 + 7000) "e1" store_timing), Stop200 "e1" (t0 + 7000) 7).
Proof.
  exact (proj1 (time_stop_last_wins (t0 + 3000) (t0 + 7000) "e1" store_timing)
           (mkTimeEntry (Some "A") (Some "u1") t0 None None)
           ltac:(vm_compute; reflexivity)).
Defined.

Lemma sum_step_comm d1 d2 acc :
  sum_step d1 (sum_step d2 acc) = sum_step d2 (sum_step d1 acc).
Proof. destruct d1, d2, acc; simpl; f_equal; lia. Qed.

Lemma total_step_comm (u : option string) (e1 e2 : time_entry) (acc : option Z) :
  (if decide (te_user_id e1 = u) then sum_step (duration e1)
     (if decide (te_user_id e2 = u) then sum_step (duration e2) acc else acc)
   else (if decide (te_user_id e2 = u) then sum_step (duration e2) acc else acc))
  = (if decide (te_user_id e2 = u) then sum_step (duration e2)
       (if decide (te_user_id e1 = u) then sum_step (duration e1) acc else acc)
     else (if decide (te_user_id e1 = u) then sum_step (duration e1) acc else acc)).
Proof.
  destruct (decide (te_user_id e1 = u)), (decide (te_user_id e2 = u));
    try reflexivity. apply sum_step_comm.
Qed.

(** The total of a user over a table with one more entry. *)
Lemma total_seconds_insert u s id e :
  time_entries s !! id = None ->
  total_seconds u (with_time_entries (insert id e) s)
  = if decide (te_user_id e = u) then sum_step (duration e) (total_seconds u s)
    else total_seconds u s.
Proof.
  intros Hnone. unfold total_seconds. simpl.
  rewrite map_fold_insert_L; [reflexivity| |exact Hnone].
  intros j1 j2 z1 z2 y _ _ _. apply total_step_comm.
Qed.

Lemma total_seconds_delete u s id e :
  time_entries s !! id = Some e ->
  total_seconds u s
  = if decide (te_user_id e = u)
    then sum_step (duration e) (total_seconds u (with_time_entries (delete id) s))
    else total_seconds u (with_time_entries (delete id) s).
Proof.
  intros Hsome. unfold total_seconds. simpl.
  rewrite (map_fold_delete_L _ _ id e); [reflexivity| |exact Hsome].
  intros j1 j2 z1 z2 y _ _ _. apply total_step_comm.
Qed.

(** The report has one row for each user that has a time entry, and no
    other; the row's total is the sum of the durations of the user's
    stopped entries, [NULL] if none of them was stopped.  Stopping an open
    entry of a user at [now] adds its elapsed seconds to the user's total
    and leaves the totals of the other users as they were. *)
Theorem productivity_report (s : store) :
  (forall u t, In (u, t) (productivity s) <->
     (exists id e, time_entries s !! id = Some e /\ te_user_id e = u)
     /\ t = total_seconds u s)
  /\ NoDup (map fst (productivity s))
  /\ (forall u, (forall id e, time_entries s !! id = Some e ->
                   te_user_id e = u -> duration e = None) ->
        total_seconds u s = None)
  /\ (forall now id row, time_entries s !! id = Some row ->
        duration row = None ->
        total_seconds (te_user_id row) (fst (time_stop now id s))
        = Some (match total_seconds (te_user_id row) s with
                | Some total => total | None => 0 end
                + Z.max 0 ((now - started_at row) / 1000))
        /\ forall v, v <> te_user_id row ->
             total_seconds v (fst (time_stop now id s)) = total_seconds v s).
Proof.
  split; [|split; [|split]].
  - intros u t. unfold productivity. rewrite in_map_iff. split.
    + intros [v [Heq Hin]]. injection Heq as <- <-. split; [|reflexivity].
      apply list_elem_of_In, elem_of_remove_dups, list_elem_of_In, in_map_iff in Hin
        as [[id e] [Hu Hin]].
      apply list_elem_of_In, elem_of_map_to_list in Hin. eauto.
    + intros [(id & e & Hl & Hu) ->]. exists u. split; [reflexivity|].
      apply list_elem_of_In, elem_of_remove_dups, list_elem_of_In, in_map_iff.
      exists (id, e). split; [exact Hu|].
      apply list_elem_of_In, elem_of_map_to_list, Hl.
  - unfold productivity. rewrite map_map. simpl. rewrite map_id.
    apply NoDup_remove_dups.
  - intros u. unfold total_seconds.
    apply (map_fold_weak_ind
             (fun acc m => (forall id e, m !! id = Some e -> te_user_id e = u ->
                                         duration e = None) -> acc = None)).
    + reflexivity.
    + intros i x m r Hnone IH Hall.
      assert (Hr : r = None).
      { apply IH. intros id e Hl. apply (Hall id e).
        rewrite lookup_insert_ne; [exact Hl|]. intros Heq. subst i. congruence. }
      subst r. destruct (decide (te_user_id x = u)) as [Hu|]; [|reflexivity].
      rewrite (Hall i x (lookup_insert_eq _ _ _) Hu). reflexivity.
  - intros now id row Hrow Hopen.
    assert (Hs : fst (time_stop now id s)
                 = with_time_entries
                     (insert id (mkTimeEntry (te_task_id row) (te_user_id row)
                                   (started_at row) (Some now)
                                   (Some (Z.max 0 ((now - started_at row) / 1000)))))
                     (with_time_entries (delete id) s)).
    { unfold time_stop. rewrite Hrow. simpl. unfold with_time_entries. simpl.
      f_equal. rewrite insert_delete_eq, (alter_alt_Some _ _ _ _ Hrow).
      reflexivity. }
    rewrite Hs. split.
    + rewrite total_seconds_insert by apply lookup_delete_eq. simpl.
      rewrite (total_seconds_delete (te_user_id row) s id row Hrow), Hopen.
      rewrite !decide_True by reflexivity. simpl.
      destruct (total_seconds (te_user_id row) (with_time_entries (delete id) s));
        reflexivity.
    + intros v Hv. rewrite total_seconds_insert by apply lookup_delete_eq. simpl.
      rewrite (total_seconds_delete v s id row Hrow).
      rewrite !decide_False by congruence. reflexivity.
Qed.

(** ** Reminders: creation, snooze and the scheduler *)

Lemma with_reminders_same' f s : f (reminders s) = reminders s -> with_reminders f s = s.
Proof. destruct s; unfold with_reminders; simpl; intros ->; reflexivity. Qed.

Lemma reaches_send_users now s s' r :
  users s' = users s -> reaches_send now s' r = reaches_send now s r.
Proof. intros H. unfold reaches_send, user_email. rewrite H. reflexivity. Qed.

Lemma filter_keeps_NoDup_fst {A B} (p : A * B -> bool) (l : list (A * B)) :
  List.NoDup (map fst l) -> List.NoDup (map fst (List.filter p l)).
Proof.
  induction l as [|a l IH]; simpl; intros H; [constructor|].
  inversion H as [|x xs Hnin Hnd]; subst.
  destruct (p a); simpl; [|auto].
  constructor; [|auto].
  intros Hin. apply Hnin. apply in_map_iff in Hin as [b [Hb Hin]].
  apply filter_In in Hin as [Hin _]. apply in_map_iff. eauto.
Qed.

(** What one run of the scheduler does, for any transport.  Every call of
    [sendMail] is for a stored reminder that is unsent, has a [remind_at]
    not after [now], is not snoozed at [now] and whose owner has a
    non-empty address, to which the mail goes; no reminder is mailed twice
    in one run.  The run writes nothing but [sent] flags, which it only
    ever sets to 1: every reminder row keeps its other columns, no row
    appears or disappears, and the other tables are as they were. *)
Theorem scan_mails_due_reminders_once (now : Z) (send : string -> bool) (s : store) :
  (forall a, In a (snd (scan now send s)) ->
     exists r t to,
       reminders s !! att_id a = Some r
       /\ sent r = 0 /\ remind_at r = Some t /\ t <= now
       /\ is_snoozed now r = false
       /\ user_email s r = Some to /\ to <> ""
       /\ mail_to (att_mail a) = to
       /\ att_ok a = send (att_id a))
  /\ List.NoDup (map att_id (snd (scan now send s)))
  /\ (forall id,
        reminders (fst (scan now send s)) !! id = reminders s !! id
        \/ exists r, reminders s !! id = Some r
                     /\ reminders (fst (scan now send s)) !! id
                        = Some (mkReminder (rem_task_id r) (rem_user_id r)
                                  (remind_at r) (snoozed_until r) 1))
  /\ users (fst (scan now send s)) = users s
  /\ tasks (fst (scan now send s)) = tasks s
  /\ task_dependencies (fst (scan now send s)) = task_dependencies s
  /\ time_entries (fst (scan now send s)) = time_entries s.
Proof.
  split; [|split; [|split]].
  - intros a Hin. apply in_scan_attempts in Hin as (r & Hl & Hd & Hr & Ha).
    unfold is_due in Hd. apply andb_prop in Hd as [Hs Ht].
    destruct (remind_at r) as [t|] eqn:Hrem; [|discriminate].
    unfold reaches_send in Hr. apply andb_prop in Hr as [Hsn Hem].
    unfold truthy_str in Hem. destruct (user_email s r) as [to|] eqn:Hto; [|discriminate].
    apply negb_true_iff, String.eqb_neq in Hem.
    exists r, t, to.
    split; [exact Hl|]. split; [apply Z.eqb_eq, Hs|]. split; [exact Hrem|].
    split; [apply Z.leb_le, Ht|]. split; [apply negb_true_iff, Hsn|].
    split; [exact Hto|]. split; [exact Hem|]. split.
    + rewrite Ha. unfold attempt_for. simpl. rewrite Hto. unfold str_or.
      apply String.eqb_neq in Hem. rewrite Hem. reflexivity.
    + rewrite Ha. reflexivity.
  - rewrite scan_attempts, map_map. simpl.
    change (map (fun x : string * reminder => x.1)) with (@map (string * reminder) _ fst).
    apply filter_keeps_NoDup_fst. unfold due_rows.
    apply filter_keeps_NoDup_fst.
    apply NoDup_ListNoDup, NoDup_fst_map_to_list.
  - intros id. rewrite scan_reminders.
    destruct (marked now send s (due_rows now s) id); [|left; reflexivity].
    destruct (reminders s !! id) as [r|]; [|left; reflexivity].
    right. exists r. split; reflexivity.
  - unfold scan. apply scan_fold_frame.
Qed.

(** A second run at the same clock reading mails exactly the reminders
    whose mail failed in the first run, whatever the transport does the
    second time; after a run in which every mail got through, it mails
    nothing. *)
Theorem scan_again_retries_failures
  (now : Z) (send send' : string -> bool) (s : store) (id : string) :
  (exists a, In a (snd (scan now send' (fst (scan now send s)))) /\ att_id a = id)
  <-> (exists a, In a (snd (scan now send s)) /\ att_id a = id /\ att_ok a = false).
Proof.
  split.
  - intros (a & Hin & <-).
    apply in_scan_attempts in Hin as (r' & Hl' & Hd' & Hr' & _).
    rewrite (reaches_send_users now s _ r' (scan_users now send s)) in Hr'.
    rewrite scan_reminders in Hl'.
    destruct (marked now send s (due_rows now s) (att_id a)) eqn:Hm.
    + destruct (reminders s !! att_id a) as [r|]; [|discriminate].
      simpl in Hl'. injection Hl' as <-. apply sent_of_due in Hd'. discriminate.
    + exists (attempt_for send s (att_id a, r')). split; [|split; [reflexivity|]].
      * apply in_scan_attempts. exists r'. simpl. auto.
      * simpl. destruct (send (att_id a)) eqn:Hs; [|reflexivity].
        assert (marked now send s (due_rows now s) (att_id a) = true) as Hm'
          by (apply marked_true; eauto 6).
        congruence.
  - intros (a & Hin & <- & Hfail).
    apply in_scan_attempts in Hin as (r & Hl & Hd & Hr & Ha).
    assert (Hsend : send (att_id a) = false).
    { rewrite Ha in Hfail. exact Hfail. }
    exists (attempt_for send' (fst (scan now send s)) (att_id a, r)).
    split; [|reflexivity].
    apply in_scan_attempts. exists r. simpl.
    split; [|split; [exact Hd|split; [|reflexivity]]].
    + rewrite scan_reminders.
      destruct (marked now send s (due_rows now s) (att_id a)) eqn:Hm; [|exact Hl].
      apply marked_true in Hm as (_ & _ & _ & _ & Hs). congruence.
    + rewrite (reaches_send_users now s _ r (scan_users now send s)). exact Hr.
Qed.

Section ReminderLife.
Variable LocalTZA : Z -> bool -> Z.
Variable Date_parse : string -> option Z.

(** No action gives a reminder a [remind_at] it was created without, and no
    run mails a reminder without one. *)
Lemma run_keeps_untimed a s id r :
  reminders s !! id = Some r -> remind_at r = None ->
  (exists r', reminders (fst (run LocalTZA Date_parse a s)) !! id = Some r'
              /\ remind_at r' = None)
  /\ forall x, In x (snd (run LocalTZA Date_parse a s)) -> att_id x <> id.
Proof.
  intros Hl Hn.
  destruct a as [e tid body|tid|uuid now uid tid|now eid|uuid uid tid at_
                 |rid until|e uid ops|now send]; simpl.
  - split; [|tauto].
    destruct (put_task_frame LocalTZA Date_parse e tid body s) as (_ & _ & _ & ->).
    eauto.
  - split; [eauto|tauto].
  - split; [|tauto]. unfold time_start.
    destruct (time_entries s !! uuid); simpl; eauto.
  - split; [|tauto]. unfold time_stop.
    destruct (time_entries s !! eid); simpl; eauto.
  - split; [|tauto]. unfold reminder_create.
    destruct (reminders s !! uuid) eqn:Hu; simpl; [eauto|].
    exists r. split; [|exact Hn]. rewrite lookup_insert_ne; [exact Hl|].
    intros Heq. rewrite Heq in Hu. congruence.
  - split; [|tauto]. destruct (decide (rid = id)) as [->|Hne].
    + exists (set_snoozed until r). rewrite lookup_alter_eq, Hl. auto.
    + exists r. rewrite lookup_alter_ne by exact Hne. auto.
  - split; [|tauto]. unfold sync. rewrite sync_loop_reminders. eauto.
  - split.
    + rewrite scan_reminders, Hl.
      destruct (marked now send s (due_rows now s) id); simpl; eauto.
    + intros x Hx Heq. apply in_scan_attempts in Hx as (r0 & Hl0 & Hd & _).
      rewrite Heq, Hl in Hl0. injection Hl0 as <-.
      unfold is_due in Hd. rewrite Hn, andb_false_r in Hd. discriminate.
Qed.

Lemma run_all_keeps_untimed acts : forall s id r,
  reminders s !! id = Some r -> remind_at r = None ->
  forall x, In x (snd (run_all LocalTZA Date_parse acts s)) -> att_id x <> id.
Proof.
  induction acts as [|a acts IH]; intros s id r Hl Hn; simpl; [tauto|].
  destruct (run_keeps_untimed a s id r Hl Hn) as [(r1 & Hl1 & Hn1) Hno1].
  destruct (run LocalTZA Date_parse a s) as [s1 sent1]. simpl in *.
  pose proof (IH s1 id r1 Hl1 Hn1) as Hno2.
  destruct (run_all LocalTZA Date_parse acts s1) as [s2 sent2]. simpl in *.
  intros x Hx. apply in_app_or in Hx as [Hx|Hx]; auto.
Qed.

(** A reminder created without [remind_at], or with [remind_at] 0 (which
    [remind_at || null] turns into [NULL]), is stored and answered 200, and
    is never mailed: whatever requests and scheduler runs follow, no run
    calls [sendMail] for it. *)
Theorem reminder_without_time_never_fires
  (uuid user_id : string) (task_id : option string) (at_ : option Z) (s : store) :
  reminders s !! uuid = None ->
  at_ = None \/ at_ = Some 0 ->
  snd (reminder_create uuid user_id task_id at_ s) = Reminder200 uuid
  /\ reminders (fst (reminder_create uuid user_id task_id at_ s)) !! uuid
     = Some (mkReminder task_id (Some user_id) None None 0)
  /\ forall acts x,
       In x (snd (run_all LocalTZA Date_parse acts
                    (fst (reminder_create uuid user_id task_id at_ s)))) ->
       att_id x <> uuid.
Proof.
  intros Hfresh Hat.
  assert (Hnull : num_or_null at_ = None) by (destruct Hat as [->| ->]; reflexivity).
  unfold reminder_create. rewrite Hfresh, Hnull. simpl.
  split; [reflexivity|]. split; [apply lookup_insert_eq|].
  intros acts. eapply run_all_keeps_untimed; [apply lookup_insert_eq|reflexivity].
Qed.

End ReminderLife.

Lemma reminder_without_time_witness :
  snd (reminder_create "r2" "u1" (Some "A") (Some 0) (store_reminder None 1))
  = Reminder200 "r2"
  /\ List.Forall (fun x => att_id x <> "r2")
       (snd (run_all utc parse_none
               [Scan (t0 + 60000) send_ok; ReminderSnooze "r2" None;
                Scan (t0 + 120000) send_ok]
               (fst (reminder_create "r2" "u1" (Some "A") (Some 0)
                       (store_reminder None 1))))).
Proof.
  pose proof (reminder_without_time_never_fires utc parse_none "r2" "u1"
                (Some "A") (Some 0) (store_reminder None 1)
                ltac:(vm_compute; reflexivity) (or_intror eq_refl))
    as (Hanswer & _ & Hnever).
  split; [exact Hanswer|].
  apply List.Forall_forall. apply Hnever.
Defined.

(** A reminder created for time [t] (not 0) under an unused identifier, by
    a user who has a non-empty address: no run before [t] mails it, and
    every run at or after [t], made before anything else touches it, mails
    it to that address, with the transport's outcome.  The subject names
    the task's title, or "Task" when the reminder's task has no row or no
    title. *)
Theorem reminder_fires_when_due
  (uuid user_id : string) (task_id : option string) (t : Z) (s : store)
  (u : user) (to : string) :
  reminders s !! uuid = None ->
  t <> 0 ->
  users s !! user_id = Some u -> email u = Some to -> to <> "" ->
  let s1 := fst (reminder_create uuid user_id task_id (Some t) s) in
  let subject :=
    "Reminder: "
    +:+ str_or (match task_id with
                | Some tid => match tasks s !! tid with
                              | Some row => title row
                              | None => None
                              end
                | None => None
                end) "Task" in
  (forall now send x, now < t -> In x (snd (scan now send s1)) -> att_id x <> uuid)
  /\ (forall now send, t <= now ->
        In (mkAttempt uuid (mkMail to subject) (send uuid)) (snd (scan now send s1))).
Proof.
  intros Hfresh Ht Hu Hem Hto s1 subject.
  set (r := mkReminder task_id (Some user_id) (Some t) None 0).
  assert (Hs1 : s1 = with_reminders (insert uuid r) s).
  { unfold s1, reminder_create. rewrite Hfresh. simpl. unfold num_or_null.
    apply Z.eqb_neq in Ht. rewrite Ht. reflexivity. }
  assert (Hl : reminders s1 !! uuid = Some r).
  { rewrite Hs1. apply lookup_insert_eq. }
  split.
  - intros now send x Hlt Hx Heq. apply in_scan_attempts in Hx as (r0 & Hl0 & Hd & _).
    rewrite Heq, Hl in Hl0. injection Hl0 as <-.
    unfold is_due in Hd. simpl in Hd. apply Z.leb_le in Hd. lia.
  - intros now send Hle. apply in_scan_attempts. exists r. simpl.
    split; [exact Hl|]. split; [apply Z.leb_le, Hle|].
    assert (Hemail : user_email s1 r = Some to).
    { rewrite Hs1. unfold user_email. simpl. rewrite Hu. exact Hem. }
    split.
    + unfold reaches_send. rewrite Hemail. simpl.
      apply negb_true_iff, String.eqb_neq, Hto.
    + unfold attempt_for. simpl. rewrite Hemail. f_equal. f_equal.
      * unfold str_or. apply String.eqb_neq in Hto. rewrite Hto. reflexivity.
      * unfold subject, task_title. rewrite Hs1. reflexivity.
Qed.

(** A reminder for a task that has no row, created for [t0]: the run a
    minute later mails it with the subject "Reminder: Task". *)
Lemma reminder_fires_when_due_witness :
  In (mkAttempt "r2" (mkMail "u1@example.com" "Reminder: Task") true)
     (snd (scan (t0 + 60000) send_ok
             (fst (reminder_create "r2" "u1" (Some "gone") (Some t0)
                     (store_reminder None 1))))).
Proof.
  exact (proj2 (reminder_fires_when_due "r2" "u1" (Some "gone") t0
                  (store_reminder None 1)
                  (mkUser (Some "u1@example.com") (Some "U")) "u1@example.com"
                  ltac:(vm_compute; reflexivity) ltac:(discriminate)
                  ltac:(vm_compute; reflexivity) eq_refl ltac:(discriminate))
           (t0 + 60000) send_ok ltac:(unfold t0; lia)).
Defined.

(** Snoozing an existing reminder answers 200 and replaces its snooze time
    only; a later snooze replaces an earlier one.  A snooze request without
    [snoozed_until] clears the snooze: if the reminder is unsent, due at
    [now] and its owner has a non-empty address, the run at [now] mails it
    whatever its snooze time was.  Snoozing an identifier that names no
    reminder answers 200 as well and writes nothing. *)
Theorem reminder_snooze_outcomes
  (id : string) (until until' : option Z) (s : store) :
  (forall r, reminders s !! id = Some r ->
     reminder_snooze id until s
     = (with_reminders
          (insert id (mkReminder (rem_task_id r) (rem_user_id r) (remind_at r)
                        until (sent r))) s,
        Reminder200 id)
     /\ fst (reminder_snooze id until' (fst (reminder_snooze id until s)))
        = fst (reminder_snooze id until' s)
     /\ forall now send t to,
          sent r = 0 -> remind_at r = Some t -> t <= now ->
          user_email s r = Some to -> to <> "" ->
          exists m, In (mkAttempt id m (send id))
                       (snd (scan now send (fst (reminder_snooze id None s)))))
  /\ (reminders s !! id = None ->
      reminder_snooze id until s = (s, Reminder200 id)).
Proof.
  split.
  - intros r Hl. split; [|split].
    + unfold reminder_snooze. f_equal. unfold with_reminders. f_equal.
      rewrite (alter_alt_Some _ _ _ _ Hl). reflexivity.
    + unfold reminder_snooze. simpl. unfold with_reminders. simpl. f_equal.
      apply map_eq. intros j. destruct (decide (j = id)) as [->|Hj].
      * rewrite !lookup_alter_eq. destruct (reminders s !! id); reflexivity.
      * rewrite !lookup_alter_ne by congruence. reflexivity.
    + intros now send t to Hs Ht Hle Hem Hto.
      eexists. apply in_scan_attempts. exists (set_snoozed None r). simpl.
      split; [rewrite lookup_alter_eq, Hl; reflexivity|].
      split; [|split; [|reflexivity]].
      * unfold is_due. simpl. rewrite Hs, Ht. simpl. apply Z.leb_le, Hle.
      * unfold reaches_send, is_snoozed, user_email in *. simpl. rewrite Hem. simpl.
        apply negb_true_iff, String.eqb_neq, Hto.
  - intros Hnone. unfold reminder_snooze. f_equal.
    apply with_reminders_same', alter_id', Hnone.
Qed.

Lemma reminder_snooze_outcomes_witness :
  exists m,
    In (mkAttempt "r1" m true)
       (snd (scan (t0 + 60000) send_ok
               (fst (reminder_snooze "r1" None
                       (store_reminder (Some (t0 + 3600000)) 0))))).
Proof.
  exact (proj2 (proj2 (proj1 (reminder_snooze_outcomes "r1" None None
                                (store_reminder (Some (t0 + 3600000)) 0))
                         (mkReminder (Some "A") (Some "u1") (Some t0)
                            (Some (t0 + 3600000)) 0)
                         ltac:(vm_compute; reflexivity)))
           (t0 + 60000) send_ok t0 "u1@example.com" eq_refl eq_refl
           ltac:(unfold t0; lia) ltac:(vm_compute; reflexivity)
           ltac:(discriminate)).
Defined.

(** ** The sync loop on arbitrary operations *)

Lemma sync_turn_kinds e u i op s :
  (throws op = true /\ exists msg, sync_turn e u i op s = (s, Thrown msg))
  \/ (throws op = false /\ pushes op = true
      /\ exists s' r, sync_turn e u i op s = (s', Pushed r))
  \/ (throws op = false /\ pushes op = false
      /\ sync_turn e u i op s = (s, Skipped)).
Proof.
  unfold throws, pushes, sync_turn.
  destruct (String.eqb (op_type op) "task"); simpl; [|auto].
  destruct (String.eqb (op_action op) "create"); simpl.
  - destruct (op_payload op); simpl.
    + right; left. destruct (se_fail e i); eauto 6.
    + left. eauto.
  - destruct (String.eqb (op_action op) "update"); simpl.
    + right; left. split; [reflexivity|]. split; [reflexivity|].
      destruct (op_payload op); [destruct (se_fail e i)|]; eauto.
    + right; right. auto.
Qed.

Lemma sync_loop_answers e u ops : forall i s acc,
  existsb throws ops = false ->
  exists res,
    snd (sync_loop e u i ops s acc) = Some (acc ++ res)
    /\ length res = length (List.filter pushes ops).
Proof.
  induction ops as [|op ops IH]; intros i s acc Hno; simpl.
  - exists []. rewrite app_nil_r. auto.
  - simpl in Hno. apply orb_false_elim in Hno as [Hop Hrest].
    destruct (sync_turn_kinds e u i op s)
      as [[Ht _]|[(_ & Hp & s' & r & Heq)|(_ & Hp & Heq)]];
      [congruence| |]; rewrite Heq, Hp.
    + destruct (IH (S i) s' (acc ++ [r]) Hrest) as (res & Hres & Hlen).
      exists (r :: res). rewrite Hres, <- app_assoc. simpl. auto.
    + destruct (IH (S i) s acc Hrest) as (res & Hres & Hlen). eauto.
Qed.

Lemma first_thrower ops :
  existsb throws ops = true ->
  exists l1 op l2, ops = l1 ++ op :: l2 /\ existsb throws l1 = false
                   /\ throws op = true.
Proof.
  induction ops as [|op ops IH]; simpl; [discriminate|].
  destruct (throws op) eqn:Hop; simpl.
  - intros _. exists [], op, ops. auto.
  - intros H. destruct (IH H) as (l1 & op' & l2 & -> & Hl1 & Hop').
    exists (op :: l1), op', l2. simpl. rewrite Hop. auto.
Qed.

(** The answer of [POST /api/sync] for any list of operations.  If no
    operation is a task create without a payload, the handler answers with
    one result for each task create and each task update, in order, and
    none for any other operation: the results can be fewer than the
    operations.  Otherwise the first such create throws outside the [try],
    the handler never answers, and the operations before it stay applied:
    nothing is rolled back. *)
Theorem sync_answer_shape
  (e : sync_env) (u : string) (ops : list sync_op) (s : store) :
  (existsb throws ops = false ->
   exists results,
     snd (sync e u ops s) = Some results
     /\ length results = length (List.filter pushes ops)
     /\ (length results <= length ops)%nat)
  /\ (existsb throws ops = true ->
      exists k op,
        ops !! k = Some op /\ throws op = true
        /\ existsb throws (take k ops) = false
        /\ sync e u ops s = (store_after e u ops s k, None)).
Proof.
  split.
  - intros Hno. destruct (sync_loop_answers e u ops 0 s [] Hno) as (res & Hres & Hlen).
    exists res. split; [exact Hres|]. split; [exact Hlen|].
    rewrite Hlen. apply filter_length_le.
  - intros Hyes. destruct (first_thrower ops Hyes) as (l1 & op & l2 & -> & Hl1 & Hop).
    exists (length l1), op.
    split; [apply list_lookup_middle; reflexivity|]. split; [exact Hop|].
    rewrite take_app_length. split; [exact Hl1|].
    unfold store_after. rewrite take_app_length.
    unfold sync. rewrite sync_loop_app.
    destruct (sync_loop_answers e u l1 0 s [] Hl1) as (res & Hres & _).
    destruct (sync_loop e u 0 l1 s []) as [s' o]. simpl in Hres. subst o. simpl.
    destruct (sync_turn_kinds e u (length l1) op s')
      as [[_ [msg Heq]]|[(Ht & _)|(Ht & _)]]; [|congruence|congruence].
    rewrite Heq. reflexivity.
Qed.

(** An update through the sync loop of a task that exists writes the
    payload's seven members over the row, as [doTaskUpdate] does, and
    pushes [{ ok: true, id }].  It reads neither the dependency edges nor
    the recurrence rule: a truthy [completed] is stored as 1 whatever the
    prerequisites are, and no row is added. *)
Theorem sync_update_writes_unchecked
  (e : sync_env) (u : string) (i : nat) (t : task_body) (s : store)
  (id : string) (row : task) :
  b_id t = Some id ->
  tasks s !! id = Some row ->
  se_fail e i = None ->
  let s' := fst (sync_turn e u i (mkOp "task" "update" (Some t)) s) in
  snd (sync_turn e u i (mkOp "task" "update" (Some t)) s) = Pushed (SyncOk (Some id))
  /\ tasks s'
     = <[id := mkTask (b_title t) (b_description t) (b_priority t)
                 (if truthy (b_completed t) then 1 else 0) (b_due_at t)
                 (created_by row) (b_assignee t) (b_recurring_rule t)
                 (created_at row)]> (tasks s)
  /\ dom (tasks s') = dom (tasks s)
  /\ task_dependencies s' = task_dependencies s.
Proof.
  intros Hid Hrow Hf s'. subst s'. unfold sync_turn. simpl. rewrite Hf, Hid. simpl.
  unfold update_where. rewrite Hid.
  split; [reflexivity|]. split; [|split; [apply dom_alter_L|reflexivity]].
  rewrite (alter_alt_Some _ _ _ _ Hrow). reflexivity.
Qed.

(** Task A, whose prerequisite B is incomplete, is completed through the
    sync loop. *)
Lemma sync_update_writes_unchecked_witness :
  completed <$> (tasks (fst (sync_turn (sync_env_at 1000) "u1" 0
                               (op_update (payload_done "A" None None))
                               (store_dep 0))) !! "A")
  = Some 1.
Proof.
  unfold op_update.
  rewrite (proj1 (proj2 (sync_update_writes_unchecked (sync_env_at 1000) "u1" 0
                           (payload_done "A" None None) (store_dep 0) "A"
                           (plain_task 0) eq_refl
                           ltac:(vm_compute; reflexivity) eq_refl))).
  rewrite lookup_insert_eq. reflexivity.
Defined.

(** A create through the sync loop without an identifier (or with the empty
    one) is stored under the generated identifier.  It is not idempotent:
    sent again, it is stored again under the next generated identifier, so
    two unused, distinct generated identifiers leave two rows. *)
Theorem sync_create_without_id_duplicates
  (e1 e2 : sync_env) (u : string) (i j : nat) (c : task_body) (s : store) :
  truthy_str (b_id c) = false ->
  se_fail e1 i = None -> se_fail e2 j = None ->
  tasks s !! se_uuid e1 i = None ->
  tasks s !! se_uuid e2 j = None ->
  se_uuid e1 i <> se_uuid e2 j ->
  let s1 := fst (sync_turn e1 u i (mkOp "task" "create" (Some c)) s) in
  let s2 := fst (sync_turn e2 u j (mkOp "task" "create" (Some c)) s1) in
  snd (sync_turn e1 u i (mkOp "task" "create" (Some c)) s)
  = Pushed (SyncOk (Some (se_uuid e1 i)))
  /\ snd (sync_turn e2 u j (mkOp "task" "create" (Some c)) s1)
     = Pushed (SyncOk (Some (se_uuid e2 j)))
  /\ tasks s2 !! se_uuid e1 i = Some (created_row u (se_now e1 i) c)
  /\ tasks s2 !! se_uuid e2 j = Some (created_row u (se_now e2 j) c)
  /\ size (tasks s2) = S (S (size (tasks s))).
Proof.
  intros Hid Hf1 Hf2 Hn1 Hn2 Hne s1 s2. subst s2 s1.
  unfold sync_turn, create_id. simpl. rewrite Hf1, Hid. simpl. rewrite Hf2. simpl.
  split; [reflexivity|]. split; [reflexivity|]. split; [|split].
  - rewrite lookup_insert_ne by congruence. apply lookup_insert_eq.
  - apply lookup_insert_eq.
  - rewrite !map_size_insert_None; [reflexivity|exact Hn1|].
    rewrite lookup_insert_ne by exact Hne. exact Hn2.
Qed.

Lemma sync_create_without_id_witness :
  size (tasks (fst (sync_turn (mkSyncEnv (fun _ => 2000) (fun _ => "uuid-2") (fun _ => None))
                      "u1" 0 (op_create body_title_only)
                      (fst (sync_turn (sync_env_at 1000) "u1" 0
                              (op_create body_title_only) empty_store)))))
  = 2%nat.
Proof.
  exact (proj2 (proj2 (proj2 (proj2
           (sync_create_without_id_duplicates (sync_env_at 1000)
              (mkSyncEnv (fun _ => 2000) (fun _ => "uuid-2") (fun _ => None))
              "u1" 0 0 body_title_only empty_store eq_refl eq_refl eq_refl
              ltac:(vm_compute; reflexivity) ltac:(vm_compute; reflexivity)
              ltac:(discriminate)))))).
Defined.

(** ** [authMiddleware] *)

Lemma split_on_nonempty sep s : split_on sep s <> [].
Proof.
  destruct s as [|c rest]; simpl; [discriminate|].
  destruct (split_on sep rest); [discriminate|].
  destruct (Ascii.eqb c sep); discriminate.
Qed.

Lemma split_on_free sep s : free_of sep s = true -> split_on sep s = [s].
Proof.
  induction s as [|c rest IH]; simpl; [reflexivity|].
  intros H. apply andb_prop in H as [Hc Hrest].
  rewrite (IH Hrest). apply negb_true_iff in Hc. rewrite Hc. reflexivity.
Qed.

Lemma split_on_first sep a b :
  free_of sep a = true ->
  split_on sep (a +:+ String sep b) = a :: split_on sep b.
Proof.
  induction a as [|c rest IH]; simpl; intros H.
  - pose proof (split_on_nonempty sep b).
    destruct (split_on sep b); [congruence|]. rewrite Ascii.eqb_refl. reflexivity.
  - apply andb_prop in H as [Hc Hrest]. rewrite (IH Hrest).
    apply negb_true_iff in Hc. rewrite Hc. reflexivity.
Qed.

Lemma truthy_str_append a c b : truthy_str (Some (a +:+ String c b)) = true.
Proof. destruct a; reflexivity. Qed.

Lemma str_or_append a c b d : str_or (Some (a +:+ String c b)) d = a +:+ String c b.
Proof. destruct a; reflexivity. Qed.

(** The token [authMiddleware] verifies is what stands between the first
    and the second space of the header.  The word before the first space is
    not looked at, so any scheme is accepted, not only [Bearer]; what
    follows a second space is ignored.  A header without a space is
    refused as an invalid token, and a missing or empty header as a
    missing one. *)
Theorem authMiddleware_token {A : Type}
  (verify : string -> option A) (scheme token rest : string) :
  free_of " " scheme = true -> free_of " " token = true ->
  let outcome := match verify token with
                 | Some decoded => AuthNext decoded
                 | None => Auth401 "Invalid token"
                 end in
  authMiddleware verify (Some (scheme +:+ " " +:+ token)) = outcome
  /\ authMiddleware verify (Some (scheme +:+ " " +:+ token +:+ " " +:+ rest)) = outcome
  /\ (scheme <> "" -> authMiddleware verify (Some scheme) = Auth401 "Invalid token")
  /\ authMiddleware verify None = Auth401 "Missing auth header"
  /\ authMiddleware verify (Some "") = Auth401 "Missing auth header".
Proof.
  intros Hs Ht outcome. unfold authMiddleware.
  split; [|split; [|split; [|split; reflexivity]]].
  - change (scheme +:+ " " +:+ token) with (scheme +:+ String " " token).
    rewrite truthy_str_append, str_or_append.
    rewrite (split_on_first " " scheme token Hs), (split_on_free " " token Ht).
    reflexivity.
  - change (scheme +:+ " " +:+ token +:+ " " +:+ rest)
      with (scheme +:+ String " " (token +:+ String " " rest)).
    rewrite truthy_str_append, str_or_append.
    rewrite (split_on_first " " scheme _ Hs), (split_on_first " " token rest Ht).
    reflexivity.
  - intros Hne. unfold truthy_str, str_or.
    apply String.eqb_neq in Hne. rewrite Hne. simpl.
    rewrite (split_on_free " " scheme Hs). reflexivity.
Qed.

(** A verifier that accepts the one token "good": the header is accepted
    under the scheme [Basic] too. *)
Lemma authMiddleware_token_witness :
  authMiddleware (fun tok => if String.eqb tok "good" then Some "u1" else None)
                 (Some "Basic good extra")
  = AuthNext "u1".
Proof.
  exact (proj1 (proj2 (authMiddleware_token
                         (fun tok => if String.eqb tok "good" then Some "u1" else None)
                         "Basic" "good" "extra" eq_refl eq_refl))).
Defined.

(** ** [POST /api/ai/suggest] *)

Lemma toLowerCase_append a b :
  toLowerCase (a +:+ b) = toLowerCase a +:+ toLowerCase b.
Proof. induction a as [|c a IH]; simpl; [reflexivity|]. rewrite IH. reflexivity. Qed.

Lemma prefix_append w s : String.prefix w (w +:+ s) = true.
Proof.
  induction w as [|c w IH]; simpl; [destruct s; reflexivity|].
  destruct (ascii_dec c c); [exact IH|congruence].
Qed.

Lemma includes_of_prefix s w : String.prefix w s = true -> includes s w = true.
Proof. destruct s; simpl; intros ->; reflexivity. Qed.

Lemma includes_own_prefix w s : includes (w +:+ s) w = true.
Proof. apply includes_of_prefix, prefix_append. Qed.

Lemma includes_after a s w : includes s w = true -> includes (a +:+ s) w = true.
Proof.
  induction a as [|c a IH]; simpl; intros H; [exact H|].
  rewrite (IH H). apply orb_true_r.
Qed.

(** The suggestions of the handler.  When every task carries a text, there
    is one suggestion per task, in order and with the task's [id]; each is
    either "Do this now" with boost 1 or "Schedule this" with boost 0, and
    it is the former whenever the text contains the word urgent in any
    mix of upper and lower case.  When some task carries no text the map
    throws and no suggestion at all is answered. *)
Theorem ai_suggest_outcomes (tasks_ : list ai_task) :
  (Forall (fun t => ai_text t <> None) tasks_ ->
   exists sgs,
     ai_suggest tasks_ = Some sgs
     /\ map sg_id sgs = map ai_id tasks_
     /\ Forall (fun sg =>
                  (sg_suggestion sg = "Do this now" /\ sg_priorityBoost sg = 1)
                  \/ (sg_suggestion sg = "Schedule this" /\ sg_priorityBoost sg = 0))
               sgs
     /\ forall k id before word after,
          tasks_ !! k = Some (mkAiTask id (Some (before +:+ word +:+ after))) ->
          toLowerCase word = "urgent" ->
          sgs !! k = Some (mkSuggestion id "Do this now" 1))
  /\ (Exists (fun t => ai_text t = None) tasks_ -> ai_suggest tasks_ = None).
Proof.
  split.
  - induction tasks_ as [|t rest IH]; intros Hall.
    + exists []. repeat split; try constructor. intros k ? ? ? ? Hk. discriminate.
    + apply Forall_cons in Hall as [Ht Hrest].
      destruct (IH Hrest) as (sgs & Hs & Hids & Hkinds & Hurgent).
      simpl. unfold suggest_one. destruct (ai_text t) as [text|] eqn:Htext; [|congruence].
      rewrite Hs. eexists. split; [reflexivity|].
      split; [simpl; rewrite Hids; reflexivity|]. split.
      * constructor; [|exact Hkinds]. simpl.
        destruct (includes (toLowerCase text) "urgent"); auto.
      * intros [|k] id before word after Hk Hw; simpl in *.
        -- injection Hk as ->. simpl in Htext. injection Htext as <-.
           rewrite !toLowerCase_append, Hw.
           rewrite (includes_after _ _ _ (includes_own_prefix "urgent" _)).
           reflexivity.
        -- eapply Hurgent; eassumption.
  - induction 1 as [t rest Ht|t rest _ IH]; simpl.
    + unfold suggest_one. rewrite Ht. reflexivity.
    + rewrite IH. destruct (suggest_one t); reflexivity.
Qed.

Lemma ai_suggest_outcomes_witness :
  ai_suggest [mkAiTask (JNum 1) (Some "call mum"); mkAiTask (JNum 2) None] = None.
Proof.
  apply (proj2 (ai_suggest_outcomes
                  [mkAiTask (JNum 1) (Some "call mum"); mkAiTask (JNum 2) None])).
  apply Exists_cons_tl, Exists_cons_hd. reflexivity.
Defined.

(** ** The browser code: [escapeHtml] and [formatTime] *)

Lemma escape_char_cases c :
  (c = "&"%char /\ escape_char c = "&amp;")
  \/ (c = "<"%char /\ escape_char c = "&lt;")
  \/ (c = ">"%char /\ escape_char c = "&gt;")
  \/ (c = "034"%char /\ escape_char c = "&quot;")
  \/ (c <> "&"%char /\ c <> "<"%char /\ c <> ">"%char /\ c <> "034"%char
      /\ escape_char c = String c "").
Proof.
  unfold escape_char.
  destruct (Ascii.eqb_spec c "&"); [auto|].
  destruct (Ascii.eqb_spec c "<"); [auto|].
  destruct (Ascii.eqb_spec c ">"); [auto 6|].
  destruct (Ascii.eqb_spec c "034"); [auto 6|].
  auto 10.
Qed.

Lemma free_of_append c a b : free_of c (a +:+ b) = free_of c a && free_of c b.
Proof.
  induction a as [|d a IH]; simpl; [reflexivity|].
  rewrite IH. apply andb_assoc.
Qed.

Lemma length_append a b :
  String.length (a +:+ b) = (String.length a + String.length b)%nat.
Proof. induction a as [|c a IH]; simpl; [reflexivity|]. rewrite IH. reflexivity. Qed.

Lemma append_cons (c : ascii) (a b : string) : String c a +:+ b = String c (a +:+ b).
Proof. reflexivity. Qed.

Lemma append_assoc' (a b c : string) : (a +:+ b) +:+ c = a +:+ (b +:+ c).
Proof.
  induction a as [|d a IH]; [reflexivity|].
  rewrite !append_cons, IH. reflexivity.
Qed.

Lemma escapeHtml_free s :
  free_of "<" (escapeHtml s) = true
  /\ free_of ">" (escapeHtml s) = true
  /\ free_of "034" (escapeHtml s) = true.
Proof.
  induction s as [|c s (IH1 & IH2 & IH3)]; simpl; [auto|].
  rewrite !free_of_append, IH1, IH2, IH3, !andb_true_r.
  destruct (escape_char_cases c)
    as [[-> ->]|[[-> ->]|[[-> ->]|[[-> ->]|(_ & H1 & H2 & H3 & ->)]]]];
    try (repeat split; reflexivity).
  simpl. rewrite !andb_true_r.
  repeat split; apply negb_true_iff, Ascii.eqb_neq; assumption.
Qed.

Lemma escapeHtml_injective s : forall t, escapeHtml s = escapeHtml t -> s = t.
Proof.
  induction s as [|c s IH]; intros [|d t]; simpl; intros H.
  - reflexivity.
  - destruct (escape_char_cases d)
      as [[_ Hd]|[[_ Hd]|[[_ Hd]|[[_ Hd]|(_ & _ & _ & _ & Hd)]]]];
      rewrite Hd in H; discriminate.
  - destruct (escape_char_cases c)
      as [[_ Hc]|[[_ Hc]|[[_ Hc]|[[_ Hc]|(_ & _ & _ & _ & Hc)]]]];
      rewrite Hc in H; discriminate.
  - destruct (escape_char_cases c)
      as [[-> Hc]|[[-> Hc]|[[-> Hc]|[[-> Hc]|(C1 & C2 & C3 & C4 & Hc)]]]];
    destruct (escape_char_cases d)
      as [[-> Hd]|[[-> Hd]|[[-> Hd]|[[-> Hd]|(D1 & D2 & D3 & D4 & Hd)]]]];
    rewrite Hc in H; try rewrite Hd in H; simpl in H;
    try discriminate;
    try (injection H as H; f_equal; apply IH; exact H);
    try (injection H as Hcd H; congruence).
    injection H as -> H. f_equal. apply IH, H.
Qed.

(** [escapeHtml]: the result holds no angle bracket and no double quote;
    escaping distributes over concatenation; two different texts are never
    escaped to the same text; a text without ampersand, angle bracket and
    double quote is returned as it is, so an apostrophe stays an
    apostrophe; and the result is never shorter than the text. *)
Theorem escapeHtml_properties (s : string) :
  free_of "<" (escapeHtml s) = true
  /\ free_of ">" (escapeHtml s) = true
  /\ free_of "034" (escapeHtml s) = true
  /\ (forall t, escapeHtml (s +:+ t) = escapeHtml s +:+ escapeHtml t)
  /\ (forall t, escapeHtml s = escapeHtml t -> s = t)
  /\ (free_of "&" s = true -> free_of "<" s = true -> free_of ">" s = true ->
      free_of "034" s = true -> escapeHtml s = s)
  /\ (String.length s <= String.length (escapeHtml s))%nat.
Proof.
  destruct (escapeHtml_free s) as (F1 & F2 & F3).
  split; [exact F1|]. split; [exact F2|]. split; [exact F3|]. clear F1 F2 F3.
  split; [|split; [apply escapeHtml_injective|split]].
  - intros t. induction s as [|c s IH]; simpl; [reflexivity|].
    rewrite IH, append_assoc'. reflexivity.
  - induction s as [|c s IH]; simpl; [reflexivity|].
    intros H1 H2 H3 H4.
    apply andb_prop in H1 as [A1 B1]. apply andb_prop in H2 as [A2 B2].
    apply andb_prop in H3 as [A3 B3]. apply andb_prop in H4 as [A4 B4].
    rewrite (IH B1 B2 B3 B4). unfold escape_char.
    apply negb_true_iff in A1, A2, A3, A4. rewrite A1, A2, A3, A4. reflexivity.
  - induction s as [|c s IH]; simpl; [lia|].
    rewrite length_append.
    destruct (escape_char_cases c)
      as [[_ ->]|[[_ ->]|[[_ ->]|[[_ ->]|(_ & _ & _ & _ & ->)]]]]; simpl; lia.
Qed.

Lemma digit_char_injective a b :
  0 <= a <= 9 -> 0 <= b <= 9 -> digit_char a = digit_char b -> a = b.
Proof.
  intros Ha Hb H. apply (f_equal nat_of_ascii) in H. unfold digit_char in H.
  rewrite !nat_ascii_embedding in H by lia. lia.
Qed.

Lemma decimal_one_digit fuel n :
  0 <= n < 10 -> decimal (S fuel) n "" = String (digit_char n) "".
Proof.
  intros H. simpl. destruct (Z.ltb_spec n 10); [|lia].
  rewrite Z.mod_small by lia. reflexivity.
Qed.

Lemma String_of_int_two_digits n :
  0 <= n < 100 ->
  padStart 2 "0" (String_of_int n)
  = String (digit_char (n / 10)) (String (digit_char (n mod 10)) "").
Proof.
  intros H. unfold String_of_int. destruct (Z.ltb_spec n 0); [lia|].
  destruct (Z.ltb_spec n 10) as [Hlt|Hge].
  - rewrite decimal_one_digit by lia.
    rewrite Z.div_small, Z.mod_small by lia. reflexivity.
  - destruct (Z.to_nat n) as [|fuel] eqn:Hn; [lia|].
    simpl. destruct (Z.ltb_spec n 10); [lia|].
    destruct (Z.ltb_spec (n / 10) 10) as [_|Hbig].
    + rewrite (Z.mod_small (n / 10)) by (Z.to_euclidean_division_equations; lia).
      reflexivity.
    + Z.to_euclidean_division_equations; lia.
Qed.

(** For every number of seconds a timer shows (and up to 99:59),
    [formatTime] gives five characters, two digits of minutes, a colon and
    two digits of seconds, and different numbers of seconds are shown
    differently. *)
Theorem formatTime_clock (seconds : Z) :
  0 <= seconds < 6000 ->
  formatTime seconds
  = String (digit_char (seconds / 600))
      (String (digit_char (seconds / 60 mod 10))
         (String ":"
            (String (digit_char (seconds mod 60 / 10))
               (String (digit_char (seconds mod 10)) ""))))
  /\ forall other, 0 <= other < 6000 ->
       formatTime other = formatTime seconds -> other = seconds.
Proof.
  assert (Hform : forall s, 0 <= s < 6000 ->
            formatTime s
            = String (digit_char (s / 600))
                (String (digit_char (s / 60 mod 10))
                   (String ":"
                      (String (digit_char (s mod 60 / 10))
                         (String (digit_char (s mod 10)) ""))))).
  { intros s Hs. unfold formatTime. cbv zeta.
    rewrite Z.rem_mod_nonneg by lia.
    rewrite !String_of_int_two_digits
      by (Z.to_euclidean_division_equations; lia).
    replace (s / 60 / 10) with (s / 600)
      by (Z.to_euclidean_division_equations; lia).
    replace (s mod 60 mod 10) with (s mod 10)
      by (Z.to_euclidean_division_equations; lia).
    reflexivity. }
  intros Hs. split; [apply Hform, Hs|].
  intros other Ho Heq. rewrite (Hform other Ho), (Hform seconds Hs) in Heq.
  injection Heq as H1 H2 H3 H4.
  apply digit_char_injective in H1, H2, H3, H4;
    Z.to_euclidean_division_equations; lia.
Qed.

Lemma formatTime_clock_witness : formatTime (25 * 60) = "25:00".
Proof.
  exact (proj1 (formatTime_clock (25 * 60) ltac:(lia))).
Defined.

(** ** The browser code: the todo list *)

Lemma flip_completed_twice t : flip_completed (flip_completed t) = t.
Proof. destruct t as [i x p c d]. unfold flip_completed. simpl. rewrite negb_involutive. reflexivity. Qed.

(** Toggling: the list keeps its length and the identifiers, texts and
    priorities of its todos; toggling the same identifier twice gives the
    list back; an identifier that no todo has changes nothing; and the
    number of completed todos moves by exactly one when the identifier is
    there. *)
Theorem toggleTodo_properties (id : Z) (todos : list todo) :
  toggleTodo id (toggleTodo id todos) = todos
  /\ map todo_id (toggleTodo id todos) = map todo_id todos
  /\ map todo_text (toggleTodo id todos) = map todo_text todos
  /\ (~ In id (map todo_id todos) -> toggleTodo id todos = todos)
  /\ (In id (map todo_id todos) ->
      let done l := Z.of_nat (length (List.filter todo_completed l)) in
      done (toggleTodo id todos) = done todos + 1
      \/ done (toggleTodo id todos) = done todos - 1).
Proof.
  split; [|split; [|split; [|split]]].
  - induction todos as [|t rest IH]; simpl; [reflexivity|].
    destruct (Z.eqb_spec (todo_id t) id) as [Heq|Hne]; simpl.
    + rewrite Heq, Z.eqb_refl, flip_completed_twice. reflexivity.
    + destruct (Z.eqb_spec (todo_id t) id); [contradiction|]. rewrite IH. reflexivity.
  - induction todos as [|t rest IH]; simpl; [reflexivity|].
    destruct (todo_id t =? id); simpl; [reflexivity|]. rewrite IH. reflexivity.
  - induction todos as [|t rest IH]; simpl; [reflexivity|].
    destruct (todo_id t =? id); simpl; [reflexivity|]. rewrite IH. reflexivity.
  - induction todos as [|t rest IH]; simpl; [reflexivity|]. intros Hnot.
    destruct (Z.eqb_spec (todo_id t) id) as [Heq|Hne]; [tauto|].
    rewrite IH by tauto. reflexivity.
  - induction todos as [|t rest IH]; simpl; [tauto|]. intros Hin.
    destruct (Z.eqb_spec (todo_id t) id) as [Heq|Hne]; simpl.
    + destruct (todo_completed t); simpl; lia.
    + destruct Hin as [Hin|Hin]; [contradiction|].
      specialize (IH Hin). simpl in IH.
      destruct (todo_completed t); simpl; lia.
Qed.

Section AddTodoFacts.
Variable trim : string -> string.

(** Adding: a value that trims to nothing changes nothing; otherwise the
    new todo goes to the end, incomplete, with the clock reading as its
    identifier.  Two todos added within one millisecond share their
    identifier: toggling it then completes the first of them and cannot
    reach the second. *)
Theorem addTodo_properties
  (now created : Z) (value priority_ : string) (todos : list todo) :
  (trim value = "" -> addTodo trim now created value priority_ todos = todos)
  /\ (trim value <> "" ->
      addTodo trim now created value priority_ todos
      = todos ++ [mkTodo now (trim value) priority_ false created]
      /\ forall value' priority' created',
           trim value' <> "" -> ~ In now (map todo_id todos) ->
           let both := addTodo trim now created' value' priority'
                         (addTodo trim now created value priority_ todos) in
           toggleTodo now both
           = todos ++ [mkTodo now (trim value) priority_ true created;
                       mkTodo now (trim value') priority' false created']).
Proof.
  unfold addTodo. split.
  - intros ->. reflexivity.
  - intros Hne. apply String.eqb_neq in Hne. rewrite Hne.
    split; [reflexivity|].
    intros value' priority' created' Hne' Hfresh. apply String.eqb_neq in Hne'.
    rewrite Hne'. simpl.
    rewrite <- app_assoc. simpl.
    induction todos as [|t rest IH]; simpl.
    + rewrite Z.eqb_refl. reflexivity.
    + simpl in Hfresh. destruct (Z.eqb_spec (todo_id t) now); [tauto|].
      rewrite IH by tauto. reflexivity.
Qed.

End AddTodoFacts.

Lemma addTodo_properties_witness :
  addTodo (fun x => x) 1000 1000 "call mum" "high" []
  = [mkTodo 1000 "call mum" "high" false 1000].
Proof.
  exact (proj1 (proj2 (addTodo_properties (fun x => x) 1000 1000 "call mum" "high" [])
                  ltac:(discriminate))).
Defined.

(** The focus task.  [selectFocusTask] finds nothing exactly when every
    todo is completed; what it finds is a pending todo of the list, of
    high priority if any pending todo is.  [setOneThing] finds nothing
    exactly when no pending todo is of high priority, and otherwise finds
    the todo [selectFocusTask] finds. *)
Theorem focus_task_choice (todos : list todo) :
  (selectFocusTask todos = None <->
   forall t, In t todos -> todo_completed t = true)
  /\ (forall t, selectFocusTask todos = Some t ->
        In t todos /\ todo_completed t = false
        /\ (todo_priority t = "high"
            \/ forall t', In t' todos -> todo_completed t' = false ->
                          todo_priority t' <> "high"))
  /\ (setOneThing todos = None <->
      forall t, In t todos -> todo_completed t = false ->
                todo_priority t <> "high")
  /\ (forall t, setOneThing todos = Some t -> selectFocusTask todos = Some t).
Proof.
  set (pending := fun t => negb (todo_completed t)).
  set (high := fun t => String.eqb (todo_priority t) "high").
  assert (Hfind : forall l, List.find high l
                            = match List.filter high l with
                              | [] => None | t :: _ => Some t end).
  { induction l as [|t l IH]; simpl; [reflexivity|].
    destruct (high t); [reflexivity|exact IH]. }
  assert (Hboth : List.filter (fun t => negb (todo_completed t)
                                        && String.eqb (todo_priority t) "high") todos
                  = List.filter high (List.filter pending todos)).
  { induction todos as [|t l IH]; simpl; [reflexivity|].
    unfold pending at 1. destruct (todo_completed t); simpl; [exact IH|].
    fold (high t). destruct (high t); simpl; rewrite IH; reflexivity. }
  unfold selectFocusTask, setOneThing. fold pending. fold high.
  rewrite Hboth, Hfind.
  split; [|split; [|split]].
  - split.
    + intros H t Hin. destruct (todo_completed t) eqn:Hc; [reflexivity|].
      assert (In t (List.filter pending todos)) as Hp.
      { apply filter_In. unfold pending. rewrite Hc. auto. }
      destruct (List.filter pending todos) as [|a l]; [contradiction|].
      destruct (List.filter high (a :: l)); discriminate.
    + intros H. destruct (List.filter pending todos) as [|a l] eqn:Hf; [reflexivity|].
      assert (In a (List.filter pending todos)) as Hp by (rewrite Hf; left; reflexivity).
      apply filter_In in Hp as [Hin Hp]. unfold pending in Hp.
      rewrite (H a Hin) in Hp. discriminate.
  - intros t Hsel.
    destruct (List.filter pending todos) as [|a l] eqn:Hf; [discriminate|].
    destruct (List.filter high (a :: l)) as [|h hs] eqn:Hh.
    + injection Hsel as <-.
      assert (In a (List.filter pending todos)) as Hp by (rewrite Hf; left; reflexivity).
      apply filter_In in Hp as [Hin Hp]. unfold pending in Hp.
      apply negb_true_iff in Hp. split; [exact Hin|]. split; [exact Hp|].
      right. intros t' Hin' Hc' Hprio.
      assert (In t' (List.filter high (a :: l))) as Habs.
      { apply filter_In. split.
        - rewrite <- Hf. apply filter_In. unfold pending. rewrite Hc'. auto.
        - unfold high. rewrite Hprio. reflexivity. }
      rewrite Hh in Habs. contradiction.
    + injection Hsel as <-.
      assert (In h (List.filter high (a :: l))) as Hp by (rewrite Hh; left; reflexivity).
      apply filter_In in Hp as [Hin Hp]. rewrite <- Hf in Hin.
      apply filter_In in Hin as [Hin Hpend]. unfold pending in Hpend.
      apply negb_true_iff in Hpend. unfold high in Hp. apply String.eqb_eq in Hp.
      auto.
  - split.
    + intros H t Hin Hc Hprio.
      assert (In t (List.filter high (List.filter pending todos))) as Habs.
      { apply filter_In. split.
        - apply filter_In. unfold pending. rewrite Hc. auto.
        - unfold high. rewrite Hprio. reflexivity. }
      destruct (List.filter high (List.filter pending todos)); [contradiction|discriminate].
    + intros H.
      destruct (List.filter high (List.filter pending todos)) as [|h hs] eqn:Hh;
        [reflexivity|].
      assert (In h (List.filter high (List.filter pending todos))) as Hp
        by (rewrite Hh; left; reflexivity).
      apply filter_In in Hp as [Hin Hp]. apply filter_In in Hin as [Hin Hpend].
      unfold pending in Hpend. apply negb_true_iff in Hpend.
      unfold high in Hp. apply String.eqb_eq in Hp.
      exfalso. exact (H h Hin Hpend Hp).
  - intros t Hone.
    destruct (List.filter pending todos) as [|a l] eqn:Hf; [discriminate|].
    destruct (List.filter high (a :: l)); [discriminate|]. exact Hone.
Qed.

(** ** The browser code: the focus timer *)

Lemma focus_step_ok st ev n :
  focus_ok st n ->
  focus_ok (focus_step st ev)
           (n + match ev with FocusTick => 1 | _ => 0 end).
Proof.
  unfold focus_ok. intros (H1 & H2 & H3 & H4 & H5 & H6).
  destruct ev; simpl;
    [unfold startFocusTimer; destruct (isFocusTimerRunning st) eqn:Hr
    | | |unfold focus_tick; destruct (focusTimer st) eqn:Hf;
         [destruct (Z.leb_spec (focusTimerSeconds st - 1) 0)|]];
    simpl; repeat split; try lia; try congruence; try reflexivity.
Qed.

Lemma ticks_cons ev evs :
  ticks (ev :: evs) = match ev with FocusTick => 1 | _ => 0 end + ticks evs.
Proof. unfold ticks. destruct ev; simpl; lia. Qed.

Lemma focus_run_ok evs : forall st n,
  focus_ok st n -> focus_ok (focus_run evs st) (n + ticks evs).
Proof.
  induction evs as [|ev evs IH]; intros st n H.
  - unfold ticks. simpl. rewrite Z.add_0_r. exact H.
  - rewrite ticks_cons, Z.add_assoc. apply (IH (focus_step st ev)).
    apply focus_step_ok, H.
Qed.

(** Whatever the user clicks and whenever the interval fires, from the
    state the page loads with: the seconds shown stay between 1 and 1500
    once a callback is over, the daily focus time is 25 minutes per
    completed pomodoro, a pomodoro is never credited for fewer than 1500
    callbacks of the interval, the session number stays 1, and the running
    flag tells whether an interval is set. *)
Theorem focus_timer_accounting (evs : list focus_event) :
  let st := focus_run evs focus_initial in
  dailyFocusTime st = 25 * completedPomodoros st
  /\ 1 <= focusTimerSeconds st <= 1500
  /\ 0 <= completedPomodoros st
  /\ 1500 * completedPomodoros st <= ticks evs
  /\ currentSession st = 1
  /\ isFocusTimerRunning st = focusTimer st.
Proof.
  assert (H0 : focus_ok focus_initial 0).
  { unfold focus_ok, focus_initial. simpl. repeat split; lia. }
  pose proof (focus_run_ok evs focus_initial 0 H0) as (H1 & H2 & H3 & H4 & H5 & H6).
  simpl. repeat split; try assumption; lia.
Qed.

Lemma focus_ticks_count n : forall st,
  focusTimer st = true -> 0 < focusTimerSeconds st ->
  Z.of_nat n < focusTimerSeconds st ->
  focus_run (repeat FocusTick n) st
  = mkFocus (focusTimerSeconds st - Z.of_nat n) (isFocusTimerRunning st) true
            (completedPomodoros st) (currentSession st) (dailyFocusTime st).
Proof.
  induction n as [|n IH]; intros st Hf Hpos Hlt.
  - simpl. rewrite Z.sub_0_r. destruct st; simpl in *. subst. reflexivity.
  - change (focus_run (repeat FocusTick (S n)) st)
      with (focus_run (repeat FocusTick n) (focus_tick st)).
    assert (Htick : focus_tick st
                    = mkFocus (focusTimerSeconds st - 1) (isFocusTimerRunning st) true
                        (completedPomodoros st) (currentSession st)
                        (dailyFocusTime st)).
    { unfold focus_tick. rewrite Hf.
      destruct (Z.leb_spec (focusTimerSeconds st - 1) 0); [lia|reflexivity]. }
    rewrite Htick, IH; simpl; try reflexivity; try lia.
    f_equal. lia.
Qed.

Lemma focus_ticks_stopped later : forall st,
  focusTimer st = false -> fold_left focus_step (repeat FocusTick later) st = st.
Proof.
  induction later as [|later IH]; intros st Hf; simpl; [reflexivity|].
  unfold focus_tick. rewrite Hf. apply IH, Hf.
Qed.

(** A running focus timer that shows [k] seconds counts down by one per
    callback of the interval; the [k]-th callback ends the session: the
    interval is cleared, one pomodoro and 25 minutes are credited and the
    timer shows 25:00 again.  Callbacks that come later change nothing
    until the timer is started again, and a start while it runs changes
    nothing, so the countdown never speeds up. *)
Theorem focus_session (st : focus_state) (n : nat) :
  focusTimer st = true -> isFocusTimerRunning st = true ->
  0 < focusTimerSeconds st ->
  (Z.of_nat n < focusTimerSeconds st ->
   focus_run (repeat FocusTick n) st
   = mkFocus (focusTimerSeconds st - Z.of_nat n) true true
             (completedPomodoros st) (currentSession st) (dailyFocusTime st))
  /\ (Z.of_nat n = focusTimerSeconds st ->
      forall later : nat,
        focus_run (repeat FocusTick (n + later)) st
        = mkFocus 1500 false false (completedPomodoros st + 1)
                  (currentSession st) (dailyFocusTime st + 25))
  /\ startFocusTimer st = st.
Proof.
  intros Hf Hr Hpos. split; [|split].
  - intros Hlt. rewrite focus_ticks_count by assumption. rewrite Hr. reflexivity.
  - intros Heq later. destruct n as [|n]; [simpl in Heq; lia|].
    replace (S n + later)%nat with (n + (1 + later))%nat by lia.
    rewrite repeat_app. unfold focus_run. rewrite fold_left_app.
    fold (focus_run (repeat FocusTick n) st).
    rewrite (focus_ticks_count n st Hf Hpos ltac:(lia)).
    simpl repeat. cbn [fold_left].
    assert (Hend : focus_step
                     (mkFocus (focusTimerSeconds st - Z.of_nat n)
                        (isFocusTimerRunning st) true (completedPomodoros st)
                        (currentSession st) (dailyFocusTime st)) FocusTick
                   = mkFocus 1500 false false (completedPomodoros st + 1)
                       (currentSession st) (dailyFocusTime st + 25)).
    { simpl. unfold focus_tick. simpl.
      destruct (Z.leb_spec (focusTimerSeconds st - Z.of_nat n - 1) 0); [reflexivity|lia]. }
    rewrite Hend. apply focus_ticks_stopped. reflexivity.
  - unfold startFocusTimer. rewrite Hr. reflexivity.
Qed.

(** From the page as loaded: start, then 1500 callbacks. *)
Lemma focus_session_witness :
  focus_run (repeat FocusTick 1500) (startFocusTimer focus_initial)
  = mkFocus 1500 false false 1 1 25.
Proof.
  exact (proj1 (proj2 (focus_session (startFocusTimer focus_initial) 1500
                         eq_refl eq_refl ltac:(reflexivity)))
           eq_refl 0%nat).
Defined.

(** ** Registration and login *)

Lemma email_taken_spec em (accounts : gmap string account) :
  email_taken (Some em) accounts = true <->
  exists id a, accounts !! id = Some a /\ acc_email a = Some em.
Proof.
  unfold email_taken. rewrite existsb_exists. split.
  - intros [[id a] [Hin Heq]]. apply list_elem_of_In, elem_of_map_to_list in Hin.
    unfold has_email in Heq. simpl in Heq.
    destruct (acc_email a) as [e|] eqn:He; [|discriminate].
    apply String.eqb_eq in Heq. subst e. eauto.
  - intros (id & a & Hl & Heq). exists (id, a). split.
    + apply list_elem_of_In, elem_of_map_to_list, Hl.
    + unfold has_email. simpl. rewrite Heq. apply String.eqb_refl.
Qed.

Lemma find_by_email_unique em (accounts : gmap string account) id a :
  unique_emails accounts ->
  accounts !! id = Some a -> acc_email a = Some em ->
  find_by_email em accounts = Some (id, a).
Proof.
  intros Huniq Hl Hem. unfold find_by_email.
  destruct (List.find _ (map_to_list accounts)) as [[j b]|] eqn:Hfind.
  - apply find_some in Hfind as [Hin Heq]. unfold has_email in Heq. simpl in Heq.
    destruct (acc_email b) as [e|] eqn:He; [|discriminate].
    apply String.eqb_eq in Heq. subst e.
    apply list_elem_of_In, elem_of_map_to_list in Hin.
    assert (j = id) as -> by (apply (Huniq j id b a em); assumption).
    congruence.
  - assert (Hin : In (id, a) (map_to_list accounts))
      by (apply list_elem_of_In, elem_of_map_to_list, Hl).
    pose proof (find_none _ _ Hfind (id, a) Hin) as Hno.
    unfold has_email in Hno. simpl in Hno.
    rewrite Hem, String.eqb_refl in Hno. discriminate.
Qed.

Section AuthFacts.
Variable isEmail : string -> bool.
Variable char_count : string -> nat.
Variable hashSync : string -> string -> string.
Variable compareSync : string -> string -> bool.
Variable sign : Z -> string -> option string -> string.

Lemma register_unique
  (uuid salt : string) (now issued : Z) (email_ password name_ : option string)
  (accounts : gmap string account) :
  unique_emails accounts ->
  unique_emails (fst (register isEmail char_count hashSync sign uuid salt now issued
                        email_ password name_ accounts)).
Proof.
  intros Huniq. unfold register.
  destruct (isEmail (str_or email_ "") && (6 <=? char_count (str_or password ""))%nat);
    [|exact Huniq].
  destruct password as [pw|]; [|exact Huniq].
  destruct (accounts !! uuid) eqn:Hu; [exact Huniq|].
  destruct (email_taken email_ accounts) eqn:Htaken; [exact Huniq|].
  simpl. intros i j a b e Hi Hj Ha Hb.
  destruct (decide (i = uuid)) as [->|Hin], (decide (j = uuid)) as [->|Hjn];
    [reflexivity| | |].
  - rewrite lookup_insert_eq in Hi. rewrite lookup_insert_ne in Hj by congruence.
    injection Hi as <-. simpl in Ha. subst email_.
    assert (email_taken (Some e) accounts = true)
      by (apply email_taken_spec; eauto).
    congruence.
  - rewrite lookup_insert_eq in Hj. rewrite lookup_insert_ne in Hi by congruence.
    injection Hj as <-. simpl in Hb. subst email_.
    assert (email_taken (Some e) accounts = true)
      by (apply email_taken_spec; eauto).
    congruence.
  - rewrite lookup_insert_ne in Hi, Hj by congruence.
    exact (Huniq i j a b e Hi Hj Ha Hb).
Qed.


(** Registering and then logging in.  With a valid address and password,
    an unused generated identifier and an address no row has, registration
    answers the identifier, the address and a token signed for them; if
    bcrypt accepts the password against its own hash, a later login with
    the same address and password is answered with the same identifier and
    address and a token signed for them at the time of the login, and a
    login with another (non-empty) password that bcrypt refuses is
    answered 401. *)
Theorem register_then_login
  (uuid salt : string) (now issued later : Z) (em pw : string)
  (name_ : option string) (accounts : gmap string account) :
  unique_emails accounts ->
  isEmail em = true -> (6 <= char_count pw)%nat ->
  em <> "" -> pw <> "" ->
  accounts !! uuid = None ->
  email_taken (Some em) accounts = false ->
  compareSync pw (hashSync salt pw) = true ->
  let after := fst (register isEmail char_count hashSync sign uuid salt now issued
                      (Some em) (Some pw) name_ accounts) in
  snd (register isEmail char_count hashSync sign uuid salt now issued
         (Some em) (Some pw) name_ accounts)
  = Register200 uuid (Some em) (sign issued uuid (Some em))
  /\ login compareSync sign later (Some em) (Some pw) after
     = Login200 uuid (Some em) (sign later uuid (Some em))
  /\ forall pw', pw' <> "" -> compareSync pw' (hashSync salt pw) = false ->
       login compareSync sign later (Some em) (Some pw') after = Login401.
Proof.
  intros Huniq Hvalid Hlen Hem Hpw Hfresh Hfree Hbcrypt after.
  pose proof (register_unique uuid salt now issued (Some em) (Some pw) name_
                accounts Huniq) as Huniq'.
  fold after in Huniq'.
  assert (Hso_em : str_or (Some em) "" = em).
  { unfold str_or. apply String.eqb_neq in Hem. rewrite Hem. reflexivity. }
  assert (Hso_pw : str_or (Some pw) "" = pw).
  { unfold str_or. apply String.eqb_neq in Hpw. rewrite Hpw. reflexivity. }
  assert (Hafter : after = <[uuid := mkAccount (Some em) (str_or name_ "")
                                       (hashSync salt pw) 0 now]> accounts).
  { unfold after, register. rewrite Hso_em, Hso_pw, Hvalid, Hfresh, Hfree.
    apply Nat.leb_le in Hlen. rewrite Hlen. reflexivity. }
  assert (Hfind : find_by_email em after
                  = Some (uuid, mkAccount (Some em) (str_or name_ "")
                                  (hashSync salt pw) 0 now)).
  { apply find_by_email_unique; [exact Huniq'| |reflexivity].
    rewrite Hafter. apply lookup_insert_eq. }
  split; [|split].
  - unfold register. rewrite Hso_em, Hso_pw, Hvalid, Hfresh, Hfree.
    apply Nat.leb_le in Hlen. rewrite Hlen. reflexivity.
  - unfold login. rewrite Hso_em, Hso_pw, Hfind.
    unfold truthy_str. apply String.eqb_neq in Hem, Hpw. rewrite Hem, Hpw.
    cbn. rewrite Hbcrypt. reflexivity.
  - intros pw' Hp' Hbad. unfold login. rewrite Hso_em, Hfind.
    unfold truthy_str, str_or. apply String.eqb_neq in Hem, Hp'. rewrite Hem, Hp'.
    cbn. rewrite Hbad. reflexivity.
Qed.

End AuthFacts.

Lemma unique_emails_empty : unique_emails ∅.
Proof. intros i j a b e H. rewrite lookup_empty in H. discriminate. Qed.

(** With toy validators and a toy hash: the first registration on an empty
    table, and the login that follows it a minute later. *)
Lemma register_then_login_witness :
  login toy_compare toy_sign (t0 + 60000) (Some "a@b.c") (Some "secret1")
    (fst (register toy_isEmail String.length toy_hash toy_sign "uuid-1" "salt" t0 t0
            (Some "a@b.c") (Some "secret1") None ∅))
  = Login200 "uuid-1" (Some "a@b.c") "uuid-1:a@b.c".
Proof.
  exact (proj1 (proj2 (register_then_login toy_isEmail String.length toy_hash
                         toy_compare toy_sign "uuid-1" "salt" t0 t0 (t0 + 60000)
                         "a@b.c" "secret1"
                         None ∅ unique_emails_empty eq_refl
                         ltac:(vm_compute; lia) ltac:(discriminate)
                         ltac:(discriminate) ltac:(apply lookup_empty)
                         ltac:(vm_compute; reflexivity) eq_refl))).
Defined.


(** ** Instances *)

(** A batch of a delete, which the loop does not know, and a create: one
    result for two operations. *)
Lemma sync_answer_shape_witness :
  exists results,
    snd (sync (sync_env_at 1000) "u1"
           [mkOp "task" "delete" (Some (payload "A" "x")); op_create (payload "A" "y")]
           empty_store) = Some results
    /\ length results = 1%nat.
Proof.
  destruct (proj1 (sync_answer_shape (sync_env_at 1000) "u1"
                     [mkOp "task" "delete" (Some (payload "A" "x"));
                      op_create (payload "A" "y")] empty_store) eq_refl)
    as (results & H1 & H2 & _).
  exists results. split; [exact H1|exact H2].
Defined.

(** The entry of u1 started at [t0] and stopped 125 s later: the total of
    u1, which was [NULL], is 125. *)
Lemma productivity_report_witness :
  total_seconds (Some "u1") (fst (time_stop (t0 + 125000) "e1" store_timing))
  = Some 125.
Proof.
  refine (eq_trans
            (proj1 (proj2 (proj2 (proj2 (productivity_report store_timing)))
                      (t0 + 125000) "e1"
                      (mkTimeEntry (Some "A") (Some "u1") t0 None None)
                      ltac:(vm_compute; reflexivity) eq_refl)) _).
  vm_compute. reflexivity.
Defined.

(** The reminder r1 whose mail failed in a run is mailed by the next run at
    the same time. *)
Lemma scan_again_retries_failures_witness :
  exists a,
    In a (snd (scan (t0 + 60000) send_ok
                 (fst (scan (t0 + 60000) send_fails (store_reminder None 0)))))
    /\ att_id a = "r1".
Proof.
  apply (proj2 (scan_again_retries_failures (t0 + 60000) send_fails send_ok
                  (store_reminder None 0) "r1")).
  exists (mkAttempt "r1" (mkMail "u1@example.com" "Reminder: t") false).
  split; [vm_compute; left; reflexivity|split; reflexivity].
Defined.

Lemma toggleTodo_properties_witness :
  toggleTodo 5 [mkTodo 1 "call mum" "high" false 1] = [mkTodo 1 "call mum" "high" false 1].
Proof.
  apply (proj1 (proj2 (proj2 (proj2 (toggleTodo_properties 5
                  [mkTodo 1 "call mum" "high" false 1]))))).
  simpl. intros [H|[]]. discriminate.
Defined.

(** A low-priority and a high-priority pending todo: both functions find
    the high-priority one. *)
Lemma focus_task_choice_witness :
  selectFocusTask [mkTodo 1 "tidy" "low" false 1; mkTodo 2 "taxes" "high" false 2]
  = Some (mkTodo 2 "taxes" "high" false 2).
Proof.
  apply (proj2 (proj2 (proj2 (focus_task_choice
                  [mkTodo 1 "tidy" "low" false 1; mkTodo 2 "taxes" "high" false 2])))).
  reflexivity.
Defined.

(** ** Completion through the sync loop, and a create without a payload *)

(** C2 (the code departs from it).  A task does reach [completed] through
    an update of the sync loop, and that update has no recurrence step.
    When the update of a stored, incomplete task [id] carries a truthy
    [completed] and [db.run] does not fail, the handler answers
    [[{ ok: true, id }]]; the row of [id] is written with [completed] 1 and
    the payload's other members, its recurrence rule among them, the
    creator and the creation time staying; and no successor is created,
    whatever the rule is: the table holds the identifiers it held before,
    every other row is as it was, and so are the other tables. *)
Theorem sync_update_completes_without_successor
  (e : sync_env) (u : string) (t : task_body) (s : store) (id : string)
  (row : task) :
  b_id t = Some id ->
  tasks s !! id = Some row ->
  completed row = 0 ->
  truthy (b_completed t) = true ->
  se_fail e 0%nat = None ->
  let s' := fst (sync e u [mkOp "task" "update" (Some t)] s) in
  snd (sync e u [mkOp "task" "update" (Some t)] s) = Some [SyncOk (Some id)]
  /\ tasks s' !! id
     = Some (mkTask (b_title t) (b_description t) (b_priority t) 1 (b_due_at t)
                    (created_by row) (b_assignee t) (b_recurring_rule t)
                    (created_at row))
  /\ dom (tasks s') = dom (tasks s)
  /\ size (tasks s') = size (tasks s)
  /\ (forall j, j <> id -> tasks s' !! j = tasks s !! j)
  /\ users s' = users s
  /\ task_dependencies s' = task_dependencies s
  /\ time_entries s' = time_entries s
  /\ reminders s' = reminders s.
Proof.
  intros Hid Hrow Hzero Hdone Hf s'.
  assert (Hsync : sync e u [mkOp "task" "update" (Some t)] s
                  = (with_tasks (alter (update_row t) id) s, Some [SyncOk (Some id)])).
  { unfold sync. simpl. unfold sync_turn. simpl. rewrite Hf, Hid.
    unfold update_where. rewrite Hid. reflexivity. }
  assert (Hdom : dom (tasks s') = dom (tasks s)).
  { subst s'. rewrite Hsync. simpl. apply dom_alter_L. }
  subst s'. rewrite Hsync in *. simpl in *.
  split; [reflexivity|]. split.
  { rewrite lookup_alter_eq, Hrow. simpl. unfold update_row, flag.
    rewrite Hdone. reflexivity. }
  split; [exact Hdom|]. split.
  { rewrite <- !size_dom, Hdom. reflexivity. }
  split.
  { intros j Hj. apply lookup_alter_ne. congruence. }
  repeat split.
Qed.

(** The daily task R, due 2024-01-31T10:00:00Z, completed by a sync update
    that repeats its fields: R is stored completed, still daily, and the
    table holds R alone. *)
Lemma sync_update_completes_without_successor_witness :
  snd (sync (sync_env_at 1000) "u1"
         [op_update (payload_done "R" (Some "daily") (Some (DueNum due_jan31)))]
         store_rec)
  = Some [SyncOk (Some "R")]
  /\ tasks (fst (sync (sync_env_at 1000) "u1"
                   [op_update (payload_done "R" (Some "daily")
                                 (Some (DueNum due_jan31)))] store_rec)) !! "R"
     = Some (mkTask (Some "t") (Some "") (Some "medium") 1
                    (Some (DueNum due_jan31)) (Some "u1") None (Some "daily")
                    (Some 1))
  /\ size (tasks (fst (sync (sync_env_at 1000) "u1"
                         [op_update (payload_done "R" (Some "daily")
                                       (Some (DueNum due_jan31)))] store_rec)))
     = size (tasks store_rec).
Proof.
  pose proof (sync_update_completes_without_successor (sync_env_at 1000) "u1"
                (payload_done "R" (Some "daily") (Some (DueNum due_jan31)))
                store_rec "R" recurring_task
                eq_refl ltac:(vm_compute; reflexivity) eq_refl eq_refl eq_refl)
    as (Hanswer & Hrow & _ & Hsize & _).
  split; [exact Hanswer|]. split; [exact Hrow|exact Hsize].
Defined.

(** C5 (the code departs from it).  The create branch reads [t.id] before
    its [try], so a task create without a payload is no failure recorded
    in a result slot: the exception leaves the loop and [res.json] is
    never called.  Whatever comes before and after it in the batch, the
    handler gives no answer, also not the results of the operations before
    it, which the loop had collected; those operations stay applied, and
    the operations after it are not applied.  With one create of [id] in
    front, the store is left with exactly that create written.  The update
    branch reads its payload inside the [try]: there the same fault is
    recorded in the slot and the batch goes on to an answer. *)
Theorem sync_create_without_payload_aborts
  (e : sync_env) (u : string) (s : store) :
  (forall before after,
     existsb throws before = false ->
     (exists results, snd (sync e u before s) = Some results)
     /\ sync e u (before ++ mkOp "task" "create" None :: after) s
        = (fst (sync e u before s), None))
  /\ (forall c id after,
        b_id c = Some id -> id <> "" -> se_fail e 0%nat = None ->
        sync e u (mkOp "task" "create" (Some c) :: mkOp "task" "create" None :: after) s
        = (with_tasks
             (insert id
                (mkTask (Some (str_or (b_title c) ""))
                        (Some (str_or (b_description c) ""))
                        (Some (str_or (b_priority c) "medium"))
                        (if truthy (b_completed c) then 1 else 0)
                        (due_or_null (b_due_at c)) (Some u)
                        (str_or_null (b_assignee c))
                        (str_or_null (b_recurring_rule c))
                        (Some (se_now e 0%nat)))) s,
           None))
  /\ (forall after,
        existsb throws after = false ->
        exists msg rest,
          snd (sync e u (mkOp "task" "update" None :: after) s)
          = Some (SyncFail msg :: rest)
          /\ length rest = length (List.filter pushes after)).
Proof.
  split; [|split].
  - intros before after Hno.
    destruct (sync_loop_answers e u before 0 s [] Hno) as (res & Hres & _).
    split; [exists res; exact Hres|].
    unfold sync in *. rewrite sync_loop_app.
    destruct (sync_loop e u 0 before s []) as [s1 answer]. simpl in Hres.
    subst answer. reflexivity.
  - intros c id after Hid Hne Hf. unfold sync. simpl sync_loop.
    rewrite (sync_turn_create e u 0 c s id Hid Hne Hf). reflexivity.
  - intros after Hno. unfold sync. simpl.
    destruct (sync_loop_answers e u after 1 s
                [SyncFail "Cannot read properties of undefined (reading 'title')"] Hno)
      as (res & Hres & Hlen).
    exists "Cannot read properties of undefined (reading 'title')", res.
    split; [exact Hres|exact Hlen].
Qed.

(** A create of A, a create without a payload and an update of A: no
    answer, A is stored as created, and the update has not run. *)
Lemma sync_create_without_payload_aborts_witness :
  sync (sync_env_at 1000) "u1"
    [op_create (payload "A" "first"); mkOp "task" "create" None;
     op_update (payload "A" "x")] empty_store
  = (with_tasks
       (insert "A" (mkTask (Some "first") (Some "") (Some "medium") 0 None
                           (Some "u1") None None (Some 1000))) empty_store,
     None).
Proof.
  exact (proj1 (proj2 (sync_create_without_payload_aborts (sync_env_at 1000) "u1"
                         empty_store))
           (payload "A" "first") "A" [op_update (payload "A" "x")]
           eq_refl ltac:(discriminate) eq_refl).
Defined.
